(** * school_map: buffer-zone risk analysis and hybrid school merge

    A shallow embedding of the two core services of the application:

    - [BufferAnalysisService] (ring zones around a point, risk levels,
      per-zone feature counts), and
    - [HybridSchoolService] (merge of the official and the OpenStreetMap
      school collections).

    Conventions of the embedding.

    - A JavaScript [number] is the rational value ([Q]) of a finite
      double; equality of numbers is [Qeq] ([==]).  The arithmetic of the
      zone builder (the zone count, the radii, the risk ratio and the fill
      opacity) is binary64 arithmetic: every operation is followed by the
      rounding [round64] to the nearest double, ties to even.  Coordinates
      are added and averaged exactly.  The centroid of an empty coordinate
      list ([0/0 = NaN]) is modelled with [option]; a zone count that is
      infinite or beyond what an array can hold makes [createBufferZones]
      return no value.
    - [Math.sqrt] is kept symbolic: [calculateDistance] returns the radicand
      wrapped in [JsSqrt], and the only use made of it, the comparison with
      the non-negative constant [maxDistance], compares squares.
    - A JavaScript string is its list of UTF-16 code units.  The two
      Unicode-table driven builtins used by the merge ([toLowerCase] and
      [normalize('NFD')]) belong to the runtime and are the fields of the
      class [JsRuntime]; the regular-expression replacements are modelled
      on code units, as the (non-unicode-flag) regexes of the source work.
    - The geometry library ([@turf/turf]) is an interface, the class
      [Turf]: [buffer], [difference] (which may return a feature, return
      [null], or throw) and [booleanPointInPolygon].  *)

From Stdlib Require Import ZArith QArith Qround Qminmax Qabs Qpower.
From Stdlib Require Import Lia Lqa String Ascii.
From stdpp Require Import base option list gmap.

Local Open Scope Z_scope.

(** ** Numbers *)

Definition Qlt_bool (x y : Q) : bool := negb (Qle_bool y x).

(** *** binary64

    A finite double is a rational [m * 2^k] with [|m| < 2^53] and
    [-1074 <= k].  An arithmetic operation on doubles returns the double
    nearest to the exact result, and of two nearest doubles the one with
    the even [m] (roundTiesToEven, the one rounding mode of ECMAScript).
    A result of magnitude [2^1024] or more, which JavaScript turns into
    [Infinity], is left as the rational that [round64] gives; the places
    where that matters say so. *)

Definition pow2 (k : Z) : Q := Qpower 2 k.

(** [floor (log2 |x|)], for [x] other than 0. *)
Definition binade (x : Q) : Z :=
  let e := Z.log2 (Z.abs (Qnum x)) - Z.log2 (Zpos (Qden x)) in
  if Qle_bool (pow2 e) (Qabs x) then e else e - 1.

(** The integer nearest to [x], the even one of two nearest. *)
Definition roundHalfEven (x : Q) : Z :=
  let f := Qfloor x in
  let r := (x - inject_Z f)%Q in
  if Qlt_bool r (1 # 2) then f
  else if Qlt_bool (1 # 2) r then f + 1
  else if Z.even f then f else f + 1.

(** The multiple of [2^k] nearest to [x]. *)
Definition roundAt (k : Z) (x : Q) : Q :=
  (inject_Z (roundHalfEven (x / pow2 k)) * pow2 k)%Q.

(** The exponent of the last of the 53 bits of a double in the binade of
    [x]; in the subnormal range it stays at [-1074]. *)
Definition lastBit (x : Q) : Z := Z.max (binade x - 52) (-1074).

(** The double nearest to [x]. *)
Definition round64 (x : Q) : Q := roundAt (lastBit x) x.

(** A decimal literal of the source, and the operators [*], [/] and [-]
    on doubles; [div64] is used with a divisor other than 0. *)
Definition double (literal : Q) : Q := round64 literal.
Definition mul64 (a b : Q) : Q := round64 (a * b).
Definition div64 (a b : Q) : Q := round64 (a / b).
Definition sub64 (a b : Q) : Q := round64 (a - b).

(** [x] is the value of a double. *)
Definition isDouble (x : Q) : Prop := (round64 x == x)%Q.

Global Arguments round64 : simpl never.
Global Arguments double : simpl never.
Global Arguments mul64 : simpl never.
Global Arguments div64 : simpl never.
Global Arguments sub64 : simpl never.

(** [Math.sqrt(radicand)], never evaluated. *)
Inductive JsSqrt := Sqrt (radicand : Q).

(** [Math.sqrt(s) < m] for a constant [0 <= m]. *)
Definition sqrt_lt (d : JsSqrt) (m : Q) : bool :=
  match d with Sqrt s => Qlt_bool s (m * m) end.

(** ** Strings *)

Definition jsstring := list N.

Definition js (s : string) : jsstring :=
  (fun a => N_of_ascii a) <$> list_ascii_of_string s.

Class JsRuntime := {
  js_toLowerCase : jsstring -> jsstring;
  js_normalizeNFD : jsstring -> jsstring
}.

(** ** buffer-zone.model.ts *)

Inductive RiskLevel := High | Medium | Low.

(** [[lat, lng]] as the application passes points around. *)
Definition LatLng := (Q * Q)%type.

(** A GeoJSON position [[lng, lat]], the argument of [turf.point]. *)
Definition Position := (Q * Q)%type.

Definition turf_point (coords : Q * Q) : Position := coords.

Inductive DiffOutcome (G : Type) :=
| DiffThrows
| DiffNull
| DiffFeature (g : G).
Arguments DiffThrows {G}.
Arguments DiffNull {G}.
Arguments DiffFeature {G} g.

(** The operations of [@turf/turf] the services call, over the type [Geom]
    of GeoJSON polygon features: [turf_buffer p r] is
    [turf.buffer(p, r, { units: 'kilometers' })], [turf_difference a b] is
    [turf.difference(turf.featureCollection([a, b]))], the first polygon
    minus the second. *)
Class Turf (Geom : Type) := {
  turf_buffer : Position -> Q -> Geom;
  turf_difference : Geom -> Geom -> DiffOutcome Geom;
  turf_booleanPointInPolygon : Position -> Geom -> bool
}.

(** The optional field [polygon?] is always set by [createBufferZones] and
    is dereferenced with [!] by the aggregator; it is a plain field here. *)
Record BufferZone (Geom : Type) := mkBufferZone {
  id : Z;
  radiusKm : Q;
  riskLevel : RiskLevel;
  color : string;
  fillOpacity : Q;
  polygon : Geom
}.
Arguments mkBufferZone {Geom}.
Arguments id {Geom}.
Arguments radiusKm {Geom}.
Arguments riskLevel {Geom}.
Arguments color {Geom}.
Arguments fillOpacity {Geom}.
Arguments polygon {Geom}.

Record BufferZoneStats := mkBufferZoneStats {
  zoneId : Z;
  stat_radiusKm : Q;
  stat_riskLevel : RiskLevel;
  schools : nat;
  hospitals : nat;
  police : nat;
  fireStations : nat;
  riskZones : nat;
  total : nat
}.

Record TotalElements := mkTotalElements {
  tot_schools : nat;
  tot_hospitals : nat;
  tot_police : nat;
  tot_fireStations : nat;
  tot_riskZones : nat
}.

Record BufferAnalysisResult (Geom : Type) := mkBufferAnalysisResult {
  centerPoint : LatLng;
  zones : list (BufferZone Geom);
  statistics : list BufferZoneStats;
  totalElements : TotalElements
}.
Arguments mkBufferAnalysisResult {Geom}.
Arguments centerPoint {Geom}.
Arguments zones {Geom}.
Arguments statistics {Geom}.
Arguments totalElements {Geom}.

(** ** layer.model.ts *)

Inductive LayerType :=
| schools_layer | hospitals_layer | police_layer | fire_stations_layer
| risk_zones_layer | burned_areas_layer | geology_layer
| natural_areas_layer | natural_regions_layer | soil_map_layer.

Global Instance LayerType_eq_dec : EqDecision LayerType.
Proof. solve_decision. Defined.

Definition LayerType_to_nat (t : LayerType) : nat :=
  match t with
  | schools_layer => 0 | hospitals_layer => 1 | police_layer => 2
  | fire_stations_layer => 3 | risk_zones_layer => 4
  | burned_areas_layer => 5 | geology_layer => 6
  | natural_areas_layer => 7 | natural_regions_layer => 8
  | soil_map_layer => 9
  end%nat.

Definition LayerType_of_nat (n : nat) : option LayerType :=
  match n with
  | 0 => Some schools_layer | 1 => Some hospitals_layer
  | 2 => Some police_layer | 3 => Some fire_stations_layer
  | 4 => Some risk_zones_layer | 5 => Some burned_areas_layer
  | 6 => Some geology_layer | 7 => Some natural_areas_layer
  | 8 => Some natural_regions_layer | 9 => Some soil_map_layer
  | _ => None
  end%nat.

Global Program Instance LayerType_countable : Countable LayerType :=
  inj_countable LayerType_to_nat LayerType_of_nat _.
Next Obligation. by intros []. Qed.

(** The [properties] bag of a feature is opaque to the services and is
    left out. *)
Record LayerFeature := mkLayerFeature {
  lf_id : jsstring;
  lf_name : jsstring;
  lf_type : LayerType;
  lf_coordinates : LatLng;
  lf_polygon : option (list LatLng)
}.

(** ** school.model.ts *)

Record ContactInfo := mkContactInfo {
  phone : jsstring;
  email : jsstring;
  website : option jsstring
}.

Record PolygonCoordinates := mkPolygonCoordinates {
  coordinates : list LatLng
}.

Inductive Source := src_idecor | src_osm | src_hybrid.

Record SchoolData := mkSchoolData {
  nivel : option jsstring;
  sector : option jsstring;
  ambito : option jsstring;
  alumnos : option Q;
  estado : option jsstring;
  cue : option jsstring;
  source : option Source
}.

Record School := mkSchool {
  school_id : jsstring;
  name : jsstring;
  address : jsstring;
  contactInfo : ContactInfo;
  school_polygon : PolygonCoordinates;
  detected : bool;
  school_color : option jsstring;
  additionalData : option SchoolData
}.

(** ** buffer-analysis.service.ts *)

Record BufferConfig := mkBufferConfig {
  totalRadius : Q;
  zoneWidth : Q
}.

Module BufferAnalysisService.
Section WithTurf.
Context {Geom : Type} `{T : Turf Geom}.

Definition defaultConfig : BufferConfig :=
  {| totalRadius := 5; zoneWidth := 1 |}.

Definition calculateRiskLevel (zoneIndex totalZones : Z) : RiskLevel :=
  let ratio := div64 (inject_Z zoneIndex) (inject_Z totalZones) in
  if Qle_bool ratio (double (6 # 10)) then High
  else if Qle_bool ratio (double (8 # 10)) then Medium
  else Low.

Definition getRiskColor (riskLevel : RiskLevel) : string :=
  match riskLevel with
  | High => "#e74c3c"
  | Medium => "#f39c12"
  | Low => "#27ae60"
  end.

Definition getFillOpacity (zoneIndex totalZones : Z) : Q :=
  sub64 (double (35 # 100))
    (mul64 (div64 (inject_Z zoneIndex) (inject_Z totalZones))
       (double (2 # 10))).

(** One iteration of the [for] loop of [createBufferZones]. *)
Definition zoneAt (centerPoint : LatLng) (totalRadius zoneWidth : Q)
    (numZones i : Z) : BufferZone Geom :=
  let radiusKm := Qmin (mul64 (inject_Z i) zoneWidth) totalRadius in
  let riskLevel := calculateRiskLevel i numZones in
  let color := getRiskColor riskLevel in
  let fillOpacity := getFillOpacity i numZones in
  let point := turf_point (centerPoint.2, centerPoint.1) in
  let buffered := turf_buffer point radiusKm in
  {| id := i; radiusKm := radiusKm; riskLevel := riskLevel;
     color := color; fillOpacity := fillOpacity; polygon := buffered |}.

(** An array holds at most [2^32 - 1] elements: the [push] that would
    make it longer throws a [RangeError]. *)
Definition maxArrayLength : Z := 4294967295.

(** [numZones = Math.ceil(totalRadius / zoneWidth)]; the loop runs for
    [i = 1 .. numZones] and pushes one zone per iteration.  [None] is a
    call that returns no value: with a zero [zoneWidth] and a positive
    [totalRadius] the quotient is [Infinity] and the loop has no end, and
    with [numZones] above [maxArrayLength] (which covers a quotient that
    overflows to [Infinity]) the array cannot take the zones.  With a zero
    [zoneWidth] and a [totalRadius] that is not positive the quotient is
    [-Infinity] or [NaN], and the loop test fails at once. *)
Definition createBufferZones (centerPoint : LatLng)
    (config : option BufferConfig) : option (list (BufferZone Geom)) :=
  let cfg := default defaultConfig config in
  if Qeq_bool (zoneWidth cfg) 0 then
    if Qlt_bool 0 (totalRadius cfg) then None else Some []
  else
    let numZones := Qceiling (div64 (totalRadius cfg) (zoneWidth cfg)) in
    if decide (numZones <= maxArrayLength) then
      Some (zoneAt centerPoint (totalRadius cfg) (zoneWidth cfg) numZones
              <$> seqZ 1 numZones)
    else None.

Definition createRingPolygon (outerPolygon : Geom)
    (innerPolygons : list Geom) : Geom :=
  match last innerPolygons with
  | None => outerPolygon
  | Some innerPolygon =>
      match turf_difference outerPolygon innerPolygon with
      | DiffFeature difference => difference
      | DiffNull => outerPolygon
      | DiffThrows => outerPolygon
      end
  end.

Definition getSchoolCenter (school : School) : LatLng :=
  let coords := coordinates (school_polygon school) in
  if decide (0 < length coords)%nat then
    let sumLat := foldl (fun sum c => (sum + c.1)%Q) 0%Q coords in
    let sumLng := foldl (fun sum c => (sum + c.2)%Q) 0%Q coords in
    let n := inject_Z (Z.of_nat (length coords)) in
    ((sumLat / n)%Q, (sumLng / n)%Q)
  else (0%Q, 0%Q).

Definition countPointsInPolygon (points : list LatLng)
    (polygon : Geom) : nat :=
  length (filter (fun point =>
    turf_booleanPointInPolygon (turf_point (point.2, point.1)) polygon
      = true) points).

Definition countFeaturesInPolygon (features : list LayerFeature)
    (polygon : Geom) : nat :=
  length (filter (fun feature =>
    turf_booleanPointInPolygon
      (turf_point ((lf_coordinates feature).2, (lf_coordinates feature).1))
      polygon = true) features).

Definition layerOrEmpty (layerFeatures : gmap LayerType (list LayerFeature))
    (t : LayerType) : list LayerFeature :=
  default [] (layerFeatures !! t).

(** The body of the callback of [zones.map] in [calculateStatistics], for
    a ring polygon already computed. *)
Definition zoneStats (zone : BufferZone Geom) (ringPolygon : Geom)
    (schools : list School)
    (layerFeatures : gmap LayerType (list LayerFeature))
    : BufferZoneStats :=
  let schoolsInZone :=
    countPointsInPolygon (getSchoolCenter <$> schools) ringPolygon in
  let hospitalsInZone :=
    countFeaturesInPolygon (layerOrEmpty layerFeatures hospitals_layer)
      ringPolygon in
  let policeInZone :=
    countFeaturesInPolygon (layerOrEmpty layerFeatures police_layer)
      ringPolygon in
  let fireStationsInZone :=
    countFeaturesInPolygon (layerOrEmpty layerFeatures fire_stations_layer)
      ringPolygon in
  let riskZonesInZone :=
    countFeaturesInPolygon (layerOrEmpty layerFeatures risk_zones_layer)
      ringPolygon in
  {| zoneId := id zone;
     stat_radiusKm := radiusKm zone;
     stat_riskLevel := riskLevel zone;
     schools := schoolsInZone;
     hospitals := hospitalsInZone;
     police := policeInZone;
     fireStations := fireStationsInZone;
     riskZones := riskZonesInZone;
     total := (schoolsInZone + hospitalsInZone + policeInZone
               + fireStationsInZone + riskZonesInZone)%nat |}.

(** [zones.map(...)] with the array [prevZonePolygons] that the callback
    reads and then extends, threaded through as state. *)
Fixpoint calculateStatistics_from (prevZonePolygons : list Geom)
    (zones : list (BufferZone Geom)) (schools : list School)
    (layerFeatures : gmap LayerType (list LayerFeature))
    : list BufferZoneStats :=
  match zones with
  | [] => []
  | zone :: rest =>
      let ringPolygon :=
        createRingPolygon (polygon zone) prevZonePolygons in
      let prevZonePolygons' := prevZonePolygons ++ [polygon zone] in
      zoneStats zone ringPolygon schools layerFeatures
        :: calculateStatistics_from prevZonePolygons' rest schools
             layerFeatures
  end.

Definition calculateStatistics (zones : list (BufferZone Geom))
    (schools : list School)
    (layerFeatures : gmap LayerType (list LayerFeature))
    : list BufferZoneStats :=
  calculateStatistics_from [] zones schools layerFeatures.

Definition analyzeBufferZones (centerPoint : LatLng)
    (schools : list School)
    (layerFeatures : gmap LayerType (list LayerFeature))
    (config : option BufferConfig) : option (BufferAnalysisResult Geom) :=
  zones ← createBufferZones centerPoint config;
  let statistics := calculateStatistics zones schools layerFeatures in
  let totalElements :=
    {| tot_schools := length schools;
       tot_hospitals := length (layerOrEmpty layerFeatures hospitals_layer);
       tot_police := length (layerOrEmpty layerFeatures police_layer);
       tot_fireStations :=
         length (layerOrEmpty layerFeatures fire_stations_layer);
       tot_riskZones :=
         length (layerOrEmpty layerFeatures risk_zones_layer) |} in
  Some {| centerPoint := centerPoint;
          zones := zones;
          statistics := statistics;
          totalElements := totalElements |}.

End WithTurf.
End BufferAnalysisService.

(** ** hybrid-school.service.ts *)

Module HybridSchoolService.
Section WithRuntime.
Context `{R : JsRuntime}.

(** [[sum[0] / coords.length, sum[1] / coords.length]]; for an empty
    list both components are [0/0 = NaN], rendered as [None]. *)
Definition getCenter (coords : list LatLng) : option LatLng :=
  let sum :=
    foldl (fun acc coord => ((acc.1 + coord.1)%Q, (acc.2 + coord.2)%Q))
      (0%Q, 0%Q) coords in
  let n := inject_Z (Z.of_nat (length coords)) in
  if decide (length coords = 0%nat) then None
  else Some ((sum.1 / n)%Q, (sum.2 / n)%Q).

(** [None] is [NaN] (an operand was [NaN]). *)
Definition calculateDistance (coord1 coord2 : option LatLng)
    : option JsSqrt :=
  c1 ← coord1;
  c2 ← coord2;
  let dx := (c1.1 - c2.1)%Q in
  let dy := (c1.2 - c2.2)%Q in
  Some (Sqrt (dx * dx + dy * dy)%Q).

Definition maxDistance : Q := 2 # 1000.

(** [distance < maxDistance]; false when [distance] is [NaN]. *)
Definition withinMaxDistance (distance : option JsSqrt) : bool :=
  match distance with
  | Some d => sqrt_lt d maxDistance
  | None => false
  end.

Fixpoint findNearestOSM_loop (oficialCenter : option LatLng)
    (osmSchools : list School) : option School :=
  match osmSchools with
  | [] => None
  | osm :: rest =>
      let osmCenter := getCenter (coordinates (school_polygon osm)) in
      let distance := calculateDistance oficialCenter osmCenter in
      if withinMaxDistance distance then Some osm
      else findNearestOSM_loop oficialCenter rest
  end.

Definition findNearestOSM (oficial : School) (osmSchools : list School)
    : option School :=
  let oficialCenter := getCenter (coordinates (school_polygon oficial)) in
  findNearestOSM_loop oficialCenter osmSchools.

Definition isCombiningMark (c : N) : bool :=
  ((768 <=? c) && (c <=? 879))%N.

Definition isLowerAlnum (c : N) : bool :=
  (((97 <=? c) && (c <=? 122)) || ((48 <=? c) && (c <=? 57)))%N.

Definition normalizeSchoolName (name : jsstring) : jsstring :=
  let lowered := js_toLowerCase name in
  let decomposed := js_normalizeNFD lowered in
  let unaccented :=
    filter (fun c => isCombiningMark c = false) decomposed in
  filter (fun c => isLowerAlnum c = true) unaccented.

Definition emptySchoolData : SchoolData :=
  {| nivel := None; sector := None; ambito := None; alumnos := None;
     estado := None; cue := None; source := None |}.

(** [{ ...oficial.additionalData, source: 'hybrid' }] *)
Definition withHybridSource (d : option SchoolData) : SchoolData :=
  let spread := default emptySchoolData d in
  {| nivel := nivel spread; sector := sector spread;
     ambito := ambito spread; alumnos := alumnos spread;
     estado := estado spread; cue := cue spread;
     source := Some src_hybrid |}.

(** The callback of [oficiales.map] in [mergeSchools]. *)
Definition enrich (osmSchools : list School) (oficial : School) : School :=
  match findNearestOSM oficial osmSchools with
  | Some osmMatch =>
      if decide (5 < length (coordinates (school_polygon osmMatch)))%nat
      then
        {| school_id := school_id oficial;
           name := name oficial;
           address := address oficial;
           contactInfo := contactInfo oficial;
           school_polygon := school_polygon osmMatch;
           detected := detected oficial;
           school_color := school_color oficial;
           additionalData :=
             Some (withHybridSource (additionalData oficial)) |}
      else oficial
  | None => oficial
  end.

Definition mergeSchools (oficiales osmSchools : list School)
    : list School :=
  let merged := enrich osmSchools <$> oficiales in
  let oficialNames : gset jsstring :=
    list_to_set ((fun school => normalizeSchoolName (name school))
                   <$> oficiales) in
  let additionalOSM :=
    filter (fun osm => normalizeSchoolName (name osm) ∉ oficialNames)
      osmSchools in
  merged ++ additionalOSM.

End WithRuntime.
End HybridSchoolService.

(** * Vocabulary of the specification *)

Import BufferAnalysisService HybridSchoolService.

Definition validConfig (cfg : BufferConfig) : Prop :=
  (0 < totalRadius cfg)%Q ∧ (0 < zoneWidth cfg)%Q.

(** [Math.ceil(totalRadius / zoneWidth)], for a [zoneWidth] other than
    0. *)
Definition zoneCount (cfg : BufferConfig) : Z :=
  Qceiling (div64 (totalRadius cfg) (zoneWidth cfg)).

(** The radii of the zones lie above [r] and grow strictly from each zone
    to the next. *)
Fixpoint radiiRiseFrom {Geom : Type} (r : Q) (zs : list (BufferZone Geom))
    : Prop :=
  match zs with
  | [] => True
  | z :: rest => (r < radiusKm z)%Q ∧ radiiRiseFrom (radiusKm z) rest
  end.

(** No zone is empty and no two zones have the same radius. *)
Definition radiiRise {Geom : Type} (zs : list (BufferZone Geom)) : Prop :=
  radiiRiseFrom 0 zs.

(** The five counted categories of a [BufferZoneStats]. *)
Inductive Category :=
| CatSchools | CatHospitals | CatPolice | CatFireStations | CatRiskZones.

Definition categoryCount (cat : Category) (st : BufferZoneStats) : nat :=
  match cat with
  | CatSchools => schools st
  | CatHospitals => hospitals st
  | CatPolice => police st
  | CatFireStations => fireStations st
  | CatRiskZones => riskZones st
  end.

Definition categoryTotal (cat : Category) (tot : TotalElements) : nat :=
  match cat with
  | CatSchools => tot_schools tot
  | CatHospitals => tot_hospitals tot
  | CatPolice => tot_police tot
  | CatFireStations => tot_fireStations tot
  | CatRiskZones => tot_riskZones tot
  end.

(** [school.additionalData?.field] *)
Definition dataField {A : Type} (field : SchoolData -> option A)
    (school : School) : option A :=
  additionalData school ≫= field.

Section Vocabulary.
Context {Geom : Type} `{T : Turf Geom}.

(** The representative points of the features of a category, as the
    aggregator tests them. *)
Definition categoryPoints (cat : Category) (schools : list School)
    (layerFeatures : gmap LayerType (list LayerFeature)) : list LatLng :=
  match cat with
  | CatSchools => getSchoolCenter <$> schools
  | CatHospitals =>
      lf_coordinates <$> layerOrEmpty layerFeatures hospitals_layer
  | CatPolice =>
      lf_coordinates <$> layerOrEmpty layerFeatures police_layer
  | CatFireStations =>
      lf_coordinates <$> layerOrEmpty layerFeatures fire_stations_layer
  | CatRiskZones =>
      lf_coordinates <$> layerOrEmpty layerFeatures risk_zones_layer
  end.

(** The point-in-polygon test applied to a [[lat, lng]] point. *)
Definition countedIn (p : LatLng) (g : Geom) : bool :=
  turf_booleanPointInPolygon (turf_point (p.2, p.1)) g.

(** The ring of the specification: zone [i]'s buffer minus the buffer of
    the zone just before it, the buffer itself for the first zone and
    whenever the difference throws or is [null]. *)
Definition countableRing (zones : list (BufferZone Geom)) (k : nat)
    (zone : BufferZone Geom) : Geom :=
  match k with
  | O => polygon zone
  | S k' =>
      match zones !! k' with
      | None => polygon zone
      | Some before =>
          match turf_difference (polygon zone) (polygon before) with
          | DiffFeature d => d
          | DiffNull | DiffThrows => polygon zone
          end
      end
  end.

Definition ringOf (zones : list (BufferZone Geom)) (k : nat)
    : option Geom :=
  countableRing zones k <$> zones !! k.

(** What the services assume of a well-behaved geometry library:
    [difference] never throws, returns a feature containing exactly the
    points of the first polygon outside the second, and returns [null]
    only when there is no such point; buffers around one point are
    nested, grow strictly with the radius, and contain their centre. *)
Record TurfExact : Prop := {
  difference_exact : ∀ a b : Geom,
    match turf_difference a b with
    | DiffFeature d => ∀ p,
        turf_booleanPointInPolygon p d
        = turf_booleanPointInPolygon p a
          && negb (turf_booleanPointInPolygon p b)
    | DiffNull => ∀ p,
        turf_booleanPointInPolygon p a = true →
        turf_booleanPointInPolygon p b = true
    | DiffThrows => False
    end;
  buffer_nested : ∀ c r1 r2 p, (r1 <= r2)%Q →
    turf_booleanPointInPolygon p (turf_buffer c r1) = true →
    turf_booleanPointInPolygon p (turf_buffer c r2) = true;
  buffer_grows : ∀ c r1 r2, (0 <= r1)%Q → (r1 < r2)%Q →
    ∃ p, turf_booleanPointInPolygon p (turf_buffer c r2) = true
         ∧ turf_booleanPointInPolygon p (turf_buffer c r1) = false;
  buffer_centre : ∀ c r, (0 < r)%Q →
    turf_booleanPointInPolygon c (turf_buffer c r) = true
}.
End Vocabulary.
Arguments TurfExact {Geom} T.

(** For one point and the buffers taken from the centre outwards, [bs]
    tells which buffers contain the point; [ringHits prev bs] tells which
    rings do, a ring being a buffer without the buffer before it. *)
Fixpoint ringHits (prev : bool) (bs : list bool) : list bool :=
  match bs with
  | [] => []
  | b :: rest => (b && negb prev) :: ringHits b rest
  end.

(** Membership never turns from true to false along the list. *)
Fixpoint rising (prev : bool) (bs : list bool) : Prop :=
  match bs with
  | [] => True
  | b :: rest => (prev = true → b = true) ∧ rising b rest
  end.

(** * The services as objects

    Above, a method is a function of its arguments.  Here the three core
    operations are written once more as the source has them: as methods
    that run in the state of the program, read [this], and declare and
    update local arrays.  What they return and what they leave behind
    can then be compared from one call to the next. *)

Module ServiceObjects.

(** The state that outlives a call, as far as the methods of the buffer
    service can reach it: the instance field [defaultConfig].  (Its
    [private readonly] is TypeScript's; at run time the field is an
    ordinary property.) *)
Record Fields := mkFields {
  field_defaultConfig : BufferConfig
}.

(** [new BufferAnalysisService()] *)
Definition newFields : Fields :=
  {| field_defaultConfig := {| totalRadius := 5; zoneWidth := 1 |} |}.

(** A computation that runs in a state [S] and returns an [A]. *)
Definition Run (S A : Type) : Type := S → A * S.

Definition ret {S A : Type} (a : A) : Run S A := fun s => (a, s).

Definition bind {S A B : Type} (m : Run S A) (k : A → Run S B) : Run S B :=
  fun s => let '(a, s') := m s in k a s'.

Definition get {S : Type} : Run S S := fun s => (s, s).

Definition put {S : Type} (s : S) : Run S unit := fun _ => (tt, s).

Notation "'let!' x := m 'in' k" := (bind m (fun x => k))
  (at level 10, x name, m at level 100, k at level 200,
   format "'[' 'let!'  x  :=  m  'in'  '/' k ']'").

(** [const x = init; block]: the block runs with the local variable
    beside the outer state, and the variable is gone when it ends. *)
Definition withLocal {S L A : Type} (init : L) (block : Run (L * S) A)
    : Run S A :=
  fun s => let '(a, (_, s')) := block (init, s) in (a, s').

Definition getLocal {S L : Type} : Run (L * S) L := fun s => (s.1, s).

(** [array.push(x)] on the local array *)
Definition push {S A : Type} (x : A) : Run (list A * S) unit :=
  fun s => (tt, (s.1 ++ [x], s.2)).

(** A loop over [items], in order. *)
Fixpoint forEach {S A : Type} (items : list A) (body : A → Run S unit)
    : Run S unit :=
  match items with
  | [] => ret tt
  | item :: rest => let! _ := body item in forEach rest body
  end.

(** [array.map(callback)] for a callback with effects. *)
Fixpoint mapArray {S A B : Type} (callback : A → Run S B) (array : list A)
    : Run S (list B) :=
  match array with
  | [] => ret []
  | item :: rest =>
      let! b := callback item in
      let! bs := mapArray callback rest in
      ret (b :: bs)
  end.

Section WithLibraries.
Context {Geom : Type} `{T : Turf Geom} `{R : JsRuntime}.

(** [createBufferZones]: reads [this.defaultConfig] when no [config] is
    given, and fills the local array [zones]. *)
Definition createBufferZones (centerPoint : LatLng)
    (config : option BufferConfig)
    : Run Fields (option (list (BufferZone Geom))) :=
  let! this := get in
  let cfg := default (field_defaultConfig this) config in
  if Qeq_bool (zoneWidth cfg) 0 then
    ret (if Qlt_bool 0 (totalRadius cfg) then None else Some [])
  else
    let numZones := Qceiling (div64 (totalRadius cfg) (zoneWidth cfg)) in
    if decide (numZones <= maxArrayLength) then
      withLocal []
        (let! _ :=
           forEach (seqZ 1 numZones) (fun i =>
             push (BufferAnalysisService.zoneAt centerPoint
                     (totalRadius cfg) (zoneWidth cfg) numZones i)) in
         let! zones := getLocal in
         ret (Some zones))
    else ret None.

(** The callback of [zones.map] in [calculateStatistics]: it reads the
    array [prevZonePolygons] of the enclosing call and pushes to it. *)
Definition statisticsCallback (schools : list School)
    (layerFeatures : gmap LayerType (list LayerFeature))
    (zone : BufferZone Geom) : Run (list Geom * Fields) BufferZoneStats :=
  let! prevZonePolygons := getLocal in
  let ringPolygon :=
    BufferAnalysisService.createRingPolygon (polygon zone)
      prevZonePolygons in
  let! _ := push (polygon zone) in
  ret (BufferAnalysisService.zoneStats zone ringPolygon schools
         layerFeatures).

Definition calculateStatistics (zones : list (BufferZone Geom))
    (schools : list School)
    (layerFeatures : gmap LayerType (list LayerFeature))
    : Run Fields (list BufferZoneStats) :=
  withLocal [] (mapArray (statisticsCallback schools layerFeatures) zones).

Definition analyzeBufferZones (centerPoint : LatLng)
    (schools : list School)
    (layerFeatures : gmap LayerType (list LayerFeature))
    (config : option BufferConfig)
    : Run Fields (option (BufferAnalysisResult Geom)) :=
  let! zones := createBufferZones centerPoint config in
  match zones with
  | None => ret None
  | Some zones =>
      let! statistics := calculateStatistics zones schools layerFeatures in
      let totalElements :=
        {| tot_schools := length schools;
           tot_hospitals :=
             length (layerOrEmpty layerFeatures hospitals_layer);
           tot_police := length (layerOrEmpty layerFeatures police_layer);
           tot_fireStations :=
             length (layerOrEmpty layerFeatures fire_stations_layer);
           tot_riskZones :=
             length (layerOrEmpty layerFeatures risk_zones_layer) |} in
      ret (Some {| centerPoint := centerPoint;
                   zones := zones;
                   statistics := statistics;
                   totalElements := totalElements |})
  end.

(** [mergeSchools]: three constants, none of them updated after its
    declaration, and no access to [this] but for the calls of the
    helpers. *)
Definition mergeSchools (oficiales osmSchools : list School)
    : Run Fields (list School) :=
  let merged := HybridSchoolService.enrich osmSchools <$> oficiales in
  let oficialNames : gset jsstring :=
    list_to_set
      ((fun school => HybridSchoolService.normalizeSchoolName (name school))
         <$> oficiales) in
  let additionalOSM :=
    filter (fun osm =>
              HybridSchoolService.normalizeSchoolName (name osm)
              ∉ oficialNames) osmSchools in
  ret (merged ++ additionalOSM).

End WithLibraries.

(** Two calls of a method, one after the other: the two results and the
    state after each call. *)
Definition twice {S A : Type} (m : Run S A) (s : S) : (A * S) * (A * S) :=
  let first := m s in (first, m first.2).

End ServiceObjects.

(** * Concrete libraries and data for worked examples *)

(** A planar stand-in for the geometry library: discs and differences,
    on raw degrees.  A buffer of [r] kilometres is the disc of [r] km
    with one degree taken as 111.195 km, its length along a meridian and
    along the equator. *)
Inductive PlanarGeom :=
| Disc (c : Position) (r : Q)
| Minus (a b : PlanarGeom).

Definition kmPerDegree : Q := 111195 # 1000.

Definition dist2 (p c : Position) : Q :=
  ((p.1 - c.1) * (p.1 - c.1) + (p.2 - c.2) * (p.2 - c.2))%Q.

(** The two points are [d] apart (planar distance on raw degrees). *)
Definition apart (a b : LatLng) (d : Q) : Prop :=
  (0 <= d)%Q ∧ (dist2 a b == d * d)%Q.

Fixpoint planar_contains (p : Position) (g : PlanarGeom) : bool :=
  match g with
  | Disc c r => Qle_bool 0 r && Qle_bool (dist2 p c) (r * r)
  | Minus a b => planar_contains p a && negb (planar_contains p b)
  end.

Definition planar_buffer (c : Position) (radiusKm : Q) : PlanarGeom :=
  Disc c (radiusKm / kmPerDegree).

(** As [turf.difference] does, the difference answers [null] when
    nothing of the first polygon is left: so for two discs around one
    point of which the first is not the wider one. *)
Definition planar_difference (a b : PlanarGeom) : DiffOutcome PlanarGeom :=
  match a, b with
  | Disc c r, Disc c' r' =>
      if Qeq_bool c.1 c'.1 && Qeq_bool c.2 c'.2 && Qle_bool r r'
      then DiffNull
      else DiffFeature (Minus a b)
  | _, _ => DiffFeature (Minus a b)
  end.

Definition planarTurf : Turf PlanarGeom :=
  {| turf_buffer := planar_buffer;
     turf_difference := planar_difference;
     turf_booleanPointInPolygon := planar_contains |}.

(** The same discs, with a [difference] that always throws. *)
Definition throwingTurf : Turf PlanarGeom :=
  {| turf_buffer := planar_buffer;
     turf_difference := fun _ _ => DiffThrows;
     turf_booleanPointInPolygon := planar_contains |}.

(** A runtime for ASCII strings: lower-casing shifts [A-Z], and canonical
    decomposition leaves ASCII text unchanged. *)
Definition asciiLower (c : N) : N :=
  if ((65 <=? c) && (c <=? 90))%N then (c + 32)%N else c.

Definition asciiRuntime : JsRuntime :=
  {| js_toLowerCase := fun s => asciiLower <$> s;
     js_normalizeNFD := fun s => s |}.

Definition noContact : ContactInfo :=
  {| phone := []; email := []; website := None |}.

Definition schoolAt (ident nm : string) (src : Source)
    (coords : list LatLng) : School :=
  {| school_id := js ident; name := js nm; address := [];
     contactInfo := noContact;
     school_polygon := {| coordinates := coords |};
     detected := false; school_color := None;
     additionalData :=
       Some {| nivel := None; sector := None; ambito := None;
               alumnos := None; estado := None; cue := None;
               source := Some src |} |}.

(** A traced outline of six vertices around [(-31.401, -64.2)], whose
    vertex mean is exactly that point. *)
Definition tracedOutline : list LatLng :=
  [ ((-31401 # 1000) + (1 # 10000), (-642 # 10));
    ((-31401 # 1000) - (1 # 10000), (-642 # 10));
    ((-31401 # 1000), (-642 # 10) + (1 # 10000));
    ((-31401 # 1000), (-642 # 10) - (1 # 10000));
    ((-31401 # 1000) + (1 # 10000), (-642 # 10));
    ((-31401 # 1000) - (1 # 10000), (-642 # 10)) ]%Q.

(** The square placeholder of an official point record at
    [(-31.4, -64.2)]. *)
Definition pointSquare : list LatLng :=
  [ ((-314 # 10) - (1 # 10000), (-642 # 10) - (1 # 10000));
    ((-314 # 10) - (1 # 10000), (-642 # 10) + (1 # 10000));
    ((-314 # 10) + (1 # 10000), (-642 # 10) + (1 # 10000));
    ((-314 # 10) + (1 # 10000), (-642 # 10) - (1 # 10000)) ]%Q.

Definition oficialBelgrano : School :=
  schoolAt "idecor-1" "Escuela Manuel Belgrano" src_idecor pointSquare.

Definition osmBelgrano : School :=
  schoolAt "osm-1" "ESCUELA MANUEL BELGRANO" src_osm tracedOutline.

Definition osmSarmiento : School :=
  schoolAt "osm-2" "Colegio Sarmiento" src_osm tracedOutline.

(** A traced outline some 0.1 degrees away from [pointSquare]. *)
Definition farOutline : list LatLng :=
  (fun c => ((c.1 + (1 # 10))%Q, c.2)) <$> tracedOutline.

Definition osmBelgranoFar : School :=
  schoolAt "osm-3" "Escuela  Manuel-Belgrano!" src_osm farOutline.

Definition hospitalAt (p : LatLng) : LayerFeature :=
  {| lf_id := js "h1"; lf_name := js "Hospital"; lf_type := hospitals_layer;
     lf_coordinates := p; lf_polygon := None |}.

Definition schoolWithoutVertices : School :=
  schoolAt "idecor-9" "Escuela sin geometria" src_idecor [].

(** * Further code of the application *)

(** ** buffer-analysis.service.ts: zone queries *)

Module ZoneQueries.
Section WithTurf.
Context {Geom : Type} `{T : Turf Geom}.

(** The guard [if (!zone.polygon) return false] has no counterpart: the
    polygon is a plain field of [BufferZone] here. *)
Definition isPointInZone (point : LatLng) (zone : BufferZone Geom) : bool :=
  let turfPoint := turf_point (point.2, point.1) in
  turf_booleanPointInPolygon turfPoint (polygon zone).

(** [[...zones].sort((a, b) => a.radiusKm - b.radiusKm)]: the stable sort
    of a copy by ascending radius.  [insertByRadius] puts a zone in front
    of the first zone whose radius is not smaller, and the zones are
    inserted from the last to the first, so zones of equal radius keep
    their order. *)
Fixpoint insertByRadius (zone : BufferZone Geom)
    (sorted : list (BufferZone Geom)) : list (BufferZone Geom) :=
  match sorted with
  | [] => [zone]
  | z :: rest =>
      if Qle_bool (radiusKm zone) (radiusKm z) then zone :: z :: rest
      else z :: insertByRadius zone rest
  end.

Definition sortByRadius (zones : list (BufferZone Geom))
    : list (BufferZone Geom) :=
  foldr insertByRadius [] zones.

(** The [for ... of] loop of [getZoneForPoint]; [None] is [null]. *)
Fixpoint getZoneForPoint_loop (point : LatLng)
    (sortedZones : list (BufferZone Geom)) : option (BufferZone Geom) :=
  match sortedZones with
  | [] => None
  | zone :: rest =>
      if isPointInZone point zone then Some zone
      else getZoneForPoint_loop point rest
  end.

Definition getZoneForPoint (point : LatLng)
    (zones : list (BufferZone Geom)) : option (BufferZone Geom) :=
  let sortedZones := sortByRadius zones in
  getZoneForPoint_loop point sortedZones.

End WithTurf.
End ZoneQueries.

(** ** statistics-panel.component.ts *)

Module StatisticsPanel.
Section WithGeom.
Context {Geom : Type}.

(** The component's input [analysisResult] is [null] until an analysis
    has been made. *)
Definition getTotalInAllZones
    (analysisResult : option (BufferAnalysisResult Geom)) : nat :=
  match analysisResult with
  | None => 0%nat
  | Some result =>
      foldl (fun sum s => (sum + total s)%nat) 0%nat (statistics result)
  end.

(** [getZoneRange] renders [`${prevRadius}-${stats.radiusKm} km`]; the
    model returns the two numbers that are rendered.  [None] is the
    [TypeError] of reading [radiusKm] off a missing previous record. *)
Definition getZoneRange
    (analysisResult : option (BufferAnalysisResult Geom))
    (stats : BufferZoneStats) (index : nat) : option (Q * Q) :=
  match index with
  | O => Some (0%Q, stat_radiusKm stats)
  | S before =>
      result ← analysisResult;
      previous ← statistics result !! before;
      Some (stat_radiusKm previous, stat_radiusKm stats)
  end.

End WithGeom.
End StatisticsPanel.

(** ** map.component.ts *)

Module MapComponent.

(** The centre used when a school is clicked in buffer mode: the vertex
    mean without the emptiness guard of the service, so an empty polygon
    gives [[NaN, NaN]] ([None]). *)
Definition getSchoolCenter (school : School) : option LatLng :=
  let coords := coordinates (school_polygon school) in
  let sumLat := foldl (fun sum c => (sum + c.1)%Q) 0%Q coords in
  let sumLng := foldl (fun sum c => (sum + c.2)%Q) 0%Q coords in
  let n := inject_Z (Z.of_nat (length coords)) in
  if decide (length coords = 0%nat) then None
  else Some ((sumLat / n)%Q, (sumLng / n)%Q).

End MapComponent.

(** ** idecor.service.ts *)

Module IdecorService.

(** The square placeholder drawn around a point record. *)
Definition createPointPolygon (lat lon : Q) : list LatLng :=
  let offset := (5 # 10000)%Q in
  [ ((lat + offset)%Q, (lon - offset)%Q);
    ((lat + offset)%Q, (lon + offset)%Q);
    ((lat - offset)%Q, (lon + offset)%Q);
    ((lat - offset)%Q, (lon - offset)%Q);
    ((lat + offset)%Q, (lon - offset)%Q) ].

End IdecorService.

(** ** Vocabulary of the further properties *)

(** High risk ranks above medium, medium above low. *)
Definition riskRank (r : RiskLevel) : nat :=
  match r with
  | High => 2
  | Medium => 1
  | Low => 0
  end.

(** The fill opacity of the outermost zone: [0.35 - 1 * 0.2] on doubles,
    which is 0.14999999999999997. *)
Definition lowestOpacity : Q := sub64 (double (35 # 100)) (double (2 # 10)).

(** Every zone of the list has a radius at most that of the zones after
    it. *)
Fixpoint radiusSorted {Geom : Type} (l : list (BufferZone Geom)) : Prop :=
  match l with
  | [] => True
  | z :: rest =>
      Forall (fun y => (radiusKm z <= radiusKm y)%Q) rest
      ∧ radiusSorted rest
  end.

Definition allCategories : list Category :=
  [CatSchools; CatHospitals; CatPolice; CatFireStations; CatRiskZones].

(** The test of [findNearestOSM]: the two centroids are less than
    [maxDistance] apart. *)
Definition closeEnough (oficial osm : School) : bool :=
  withinMaxDistance
    (calculateDistance (getCenter (coordinates (school_polygon oficial)))
       (getCenter (coordinates (school_polygon osm)))).

(** A runtime whose lower-casing and canonical decomposition leave a
    string of the characters [a-z0-9] unchanged, as those of JavaScript
    do. *)
Definition RuntimeKeepsPlain (R : JsRuntime) : Prop :=
  ∀ s, Forall (fun c => isLowerAlnum c = true) s →
       @js_toLowerCase R s = s ∧ @js_normalizeNFD R s = s.

(** ** overpass.service.ts: from the Overpass answer to schools *)

Module OverpassService.

(** One point [{ lat, lon }] of an element's geometry. *)
Record GeometryPoint := mkGeometryPoint {
  pt_lat : Q;
  pt_lon : Q
}.

(** An element of the answer, as far as [transformToSchools] reads it:
    the id (already as the string that ['osm_' + element.id] appends),
    the optional geometry and the optional tags, all of whose values are
    strings. *)
Record OverpassElement := mkOverpassElement {
  el_id : jsstring;
  el_geometry : option (list GeometryPoint);
  el_tags : option (gmap jsstring jsstring)
}.

(** [a || b] on possibly missing strings: [a] when it is a non-empty
    string, [b] otherwise. *)
Definition orElse (a b : option jsstring) : option jsstring :=
  match a with
  | Some (_ :: _) => a
  | _ => b
  end.

(** [a || 'literal'] *)
Definition orString (a : option jsstring) (b : jsstring) : jsstring :=
  match a with
  | Some (c :: s) => c :: s
  | _ => b
  end.

(** [parts.join(' ')] *)
Fixpoint joinWithSpace (parts : list jsstring) : jsstring :=
  match parts with
  | [] => []
  | [part] => part
  | part :: rest => part ++ js " " ++ joinWithSpace rest
  end.

(** [', Córdoba'] and ['Dirección no disponible']; the letter o with
    acute accent is the code unit 243. *)
Definition commaCordoba : jsstring := js ", C" ++ [243%N] ++ js "rdoba".
Definition direccionNoDisponible : jsstring :=
  js "Direcci" ++ [243%N] ++ js "n no disponible".

Definition buildAddress (tags : gmap jsstring jsstring) : jsstring :=
  let parts :=
    filter (fun part => part ≠ [])
      (omap (fun part : option jsstring => part)
         [tags !! js "addr:street"; tags !! js "addr:housenumber"]) in
  if decide (0 < length parts)%nat
  then joinWithSpace parts ++ commaCordoba
  else direccionNoDisponible.

(** The ring is closed by pushing a copy of its first point when the
    first and the last point differ in a coordinate. *)
Definition closeRing (coordinates : list LatLng) : list LatLng :=
  match head coordinates, last coordinates with
  | Some first, Some last_ =>
      if negb (Qeq_bool first.1 last_.1) || negb (Qeq_bool first.2 last_.2)
      then coordinates ++ [(first.1, first.2)]
      else coordinates
  | _, _ => coordinates
  end.

(** The callback of [.map] in [transformToSchools]; [None] is [null]. *)
Definition elementToSchool (element : OverpassElement) : option School :=
  let coordinates :=
    (fun point => (pt_lat point, pt_lon point))
      <$> default [] (el_geometry element) in
  if decide (length coordinates < 3)%nat then None
  else
    let coordinates := closeRing coordinates in
    let tags := default ∅ (el_tags element) in
    Some
      {| school_id := js "osm_" ++ el_id element;
         name := orString (tags !! js "name") (js "Escuela sin nombre");
         address := buildAddress tags;
         contactInfo :=
           {| phone :=
                orString (orElse (tags !! js "contact:phone")
                            (tags !! js "phone")) [];
              email :=
                orString (orElse (tags !! js "contact:email")
                            (tags !! js "email")) [];
              website :=
                orElse (tags !! js "contact:website")
                  (tags !! js "website") |};
         school_polygon := {| coordinates := coordinates |};
         detected := true;
         school_color := None;
         additionalData :=
           Some {| nivel := None; sector := None; ambito := None;
                   alumnos := None; estado := None; cue := None;
                   source := Some src_osm |} |}.

(** [element.geometry && element.geometry.length > 0] *)
Definition hasGeometry (element : OverpassElement) : Prop :=
  match el_geometry element with
  | Some (_ :: _) => True
  | _ => False
  end.

Global Instance hasGeometry_dec element : Decision (hasGeometry element).
Proof.
  unfold hasGeometry. destruct (el_geometry element) as [[|]|];
    [right; tauto | left; exact I | right; tauto].
Defined.

(** [response] is [None] when the answer is missing or has no
    [elements]. *)
Definition transformToSchools (response : option (list OverpassElement))
    : list School :=
  match response with
  | None => []
  | Some elements => omap elementToSchool (filter hasGeometry elements)
  end.

End OverpassService.

(** The first and the last vertex of the ring are the same point. *)
Definition ringClosed (ring : list LatLng) : Prop :=
  match head ring, last ring with
  | Some first, Some last_ =>
      (first.1 == last_.1)%Q ∧ (first.2 == last_.2)%Q
  | _, _ => False
  end.

(** A string that JavaScript takes for true: present and not empty. *)
Definition truthy (a : option jsstring) : Prop :=
  match a with
  | Some (_ :: _) => True
  | _ => False
  end.

(** ** idecor-layers.service.ts: geometry of a WFS feature *)

Module IdecorLayersService.

(** What a call does: it returns a value or throws a [TypeError]. *)
Inductive Outcome (A : Type) :=
| Returns (a : A)
| Throws.
Arguments Returns {A} a.
Arguments Throws {A}.

(** The geometry of a WFS feature by its [type]; positions are
    [[lng, lat]]. *)
Inductive WfsGeometry :=
| Point (position : Position)
| MultiPoint (positions : list Position)
| Polygon (rings : list (list Position))
| MultiPolygon (polygons : list (list (list Position)))
| OtherGeometry (type : jsstring).

(** [[sumLat / ring.length, sumLng / ring.length]]; [None] is
    [[NaN, NaN]], the mean of an empty ring. *)
Definition ringMean (ring : list Position) : option LatLng :=
  let sumLat := foldl (fun sum c => (sum + c.2)%Q) 0%Q ring in
  let sumLng := foldl (fun sum c => (sum + c.1)%Q) 0%Q ring in
  let n := inject_Z (Z.of_nat (length ring)) in
  if decide (length ring = 0%nat) then None
  else Some ((sumLat / n)%Q, (sumLng / n)%Q).

(** Reading a member of [undefined] (the first point of an empty
    MultiPoint, the first ring of a Polygon without rings, ...) throws. *)
Definition extractCoordinates (geometry : WfsGeometry)
    : Outcome (option LatLng) :=
  match geometry with
  | Point coords => Returns (Some (coords.2, coords.1))
  | MultiPoint coords =>
      match coords with
      | firstPoint :: _ => Returns (Some (firstPoint.2, firstPoint.1))
      | [] => Throws
      end
  | Polygon coords =>
      match coords with
      | ring :: _ => Returns (ringMean ring)
      | [] => Throws
      end
  | MultiPolygon coords =>
      match coords with
      | (ring :: _) :: _ => Returns (ringMean ring)
      | [] :: _ => Throws
      | [] => Throws
      end
  | OtherGeometry _ => Returns (Some (0%Q, 0%Q))
  end.

(** [None] is [undefined]. *)
Definition extractPolygon (geometry : WfsGeometry)
    : Outcome (option (list LatLng)) :=
  match geometry with
  | Polygon coords =>
      match coords with
      | ring :: _ => Returns (Some ((fun c => (c.2, c.1)) <$> ring))
      | [] => Throws
      end
  | MultiPolygon coords =>
      match coords with
      | (ring :: _) :: _ =>
          Returns (Some ((fun c => (c.2, c.1)) <$> ring))
      | [] :: _ => Throws
      | [] => Throws
      end
  | _ => Returns None
  end.

End IdecorLayersService.

(** ** overpass.service.ts and hybrid-school.service.ts: fetching *)

Module Fetching.
Import OverpassService.

(** What one HTTP request comes to. *)
Inductive HttpResult :=
| Answer (response : option (list OverpassElement))
| Failure.

(** The network as the service meets it: the result of the request
    number [attempt] (from 0) sent to the server number [server]. *)
Definition Network := nat → nat → HttpResult.

(** A computation paired with the requests it sends, as
    [(server, attempt)], in order. *)
Definition Logged (A : Type) : Type := (A * list (nat * nat))%type.

(** [this.http.post(url, ...).pipe(retry({ count: 2, ... }))]: the
    request is sent again after an error, twice at most; [attempt]
    counts the requests already sent to this server.  [None] is the
    error that is left when the last retry has failed. *)
Fixpoint postWithRetry (net : Network) (server attempt retries : nat)
    : Logged (option (option (list OverpassElement))) :=
  match net server attempt with
  | Answer response => (Some response, [(server, attempt)])
  | Failure =>
      match retries with
      | O => (None, [(server, attempt)])
      | S retries' =>
          let '(result, log) :=
            postWithRetry net server (S attempt) retries' in
          (result, (server, attempt) :: log)
      end
  end.

(** [tryServer(serverIndex)], with [remaining] the number of servers
    from [serverIndex] on: none left is the branch
    [serverIndex >= this.overpassServers.length]; an answer is passed to
    [transformToSchools]; an error is caught and the next server is
    tried. *)
Fixpoint tryServer_from (net : Network) (remaining serverIndex : nat)
    : Logged (list School) :=
  match remaining with
  | O => ([], [])
  | S remaining' =>
      let '(result, log) := postWithRetry net serverIndex 0 2 in
      match result with
      | Some response => (transformToSchools response, log)
      | None =>
          let '(schools, log') :=
            tryServer_from net remaining' (S serverIndex) in
          (schools, log ++ log')
      end
  end.

Definition overpassServers : list string :=
  [ "https://overpass.kumi.systems/api/interpreter";
    "https://overpass-api.de/api/interpreter";
    "https://maps.mail.ru/osm/tools/overpass/api/interpreter" ]%string.

Definition tryServer (net : Network) (serverIndex : nat)
    : Logged (list School) :=
  tryServer_from net (length overpassServers - serverIndex) serverIndex.

(** The order in which requests can be sent: three to each server, the
    servers in the order of [overpassServers]. *)
Definition requestOrder : list (nat * nat) :=
  server ← seq 0 (length overpassServers);
  attempt ← seq 0 3;
  [(server, attempt)].

Definition getSchoolsInCordoba (net : Network) : Logged (list School) :=
  tryServer net 0.

(** [getSchoolsCombined]: [forkJoin] of the two sources, then
    [mergeSchools].  [oficial] is what the IDECOR service delivers (the
    empty list when its request fails). *)
Definition getSchoolsCombined `{R : JsRuntime} (oficial : list School)
    (net : Network) : list School :=
  let osmSchools := (getSchoolsInCordoba net).1 in
  mergeSchools oficial osmSchools.

End Fetching.

(** ** Data for the worked examples of the further properties *)

(** An open way of three points and a way of two points. *)
Definition triangleWay : OverpassService.OverpassElement :=
  {| OverpassService.el_id := js "101";
     OverpassService.el_geometry :=
       Some [ OverpassService.mkGeometryPoint (-31) (-64);
              OverpassService.mkGeometryPoint (-31) (-63);
              OverpassService.mkGeometryPoint (-30) (-64) ];
     OverpassService.el_tags := Some {[ js "name" := js "Escuela Norte" ]} |}.

Definition brokenWay : OverpassService.OverpassElement :=
  {| OverpassService.el_id := js "102";
     OverpassService.el_geometry :=
       Some [ OverpassService.mkGeometryPoint (-31) (-64);
              OverpassService.mkGeometryPoint (-31) (-63) ];
     OverpassService.el_tags := None |}.

(** An official school drawn as the placeholder around
    [(-31.4, -64.2)], and an OSM triangle whose vertex mean is that
    point. *)
Definition oficialPlaceholder : School :=
  schoolAt "idecor-2" "Escuela Sur" src_idecor
    (IdecorService.createPointPolygon (-314 # 10) (-642 # 10)).

Definition osmTriangle : School :=
  schoolAt "osm-4" "Colegio Sur" src_osm
    [ ((-314 # 10) + (1 # 1000), (-642 # 10));
      ((-314 # 10) - (1 # 1000), (-642 # 10) + (1 # 1000));
      ((-314 # 10), (-642 # 10) - (1 # 1000)) ]%Q.

(** * Properties *)

(** From [Hz : zs !! S k = Some z], name the element just before it. *)
Ltac element_before Hz before Hb :=
  lazymatch type of Hz with
  | ?zs !! S ?k = Some _ =>
      let Hlt := fresh "Hlt" in
      assert (Hlt : (k < length zs)%nat)
        by (apply lookup_lt_Some in Hz; lia);
      destruct (lookup_lt_is_Some_2 zs k Hlt) as [before Hb];
      clear Hlt
  end.

(** ** Comparisons *)

Lemma Qlt_bool_iff (x y : Q) : Qlt_bool x y = true <-> (x < y)%Q.
Proof.
  unfold Qlt_bool. rewrite negb_true_iff.
  split.
  - intros Hb. apply Qnot_le_lt. intros Hle.
    apply Qle_bool_iff in Hle. congruence.
  - intros Hlt. destruct (Qle_bool y x) eqn:E; [|reflexivity].
    apply Qle_bool_iff in E. exfalso. apply (Qlt_not_le _ _ Hlt E).
Qed.

Lemma Qle_bool_false_iff (x y : Q) : Qle_bool x y = false <-> (y < x)%Q.
Proof.
  rewrite <- Qlt_bool_iff. unfold Qlt_bool.
  destruct (Qle_bool x y); simpl; intuition congruence.
Qed.

Lemma Qlt_bool_false_iff (x y : Q) : Qlt_bool x y = false <-> (y <= x)%Q.
Proof.
  unfold Qlt_bool. rewrite negb_false_iff. apply Qle_bool_iff.
Qed.

Lemma inject_Z_pos (n : Z) : 0 < n → (0 < inject_Z n)%Q.
Proof. intros H. change 0%Q with (inject_Z 0). by rewrite <- Zlt_Qlt. Qed.

(** ** Rounding to a double *)

Lemma pow2_pos k : (0 < pow2 k)%Q.
Proof. apply Qpower_0_lt. reflexivity. Qed.

Lemma pow2_add a b : (pow2 (a + b) == pow2 a * pow2 b)%Q.
Proof. apply Qpower_plus. discriminate. Qed.

Lemma pow2_le a b : a <= b → (pow2 a <= pow2 b)%Q.
Proof. intros H. apply Qpower_le_compat_l; [exact H | discriminate]. Qed.

Lemma pow2_lt_inv a b : (pow2 a < pow2 b)%Q → a < b.
Proof.
  intros H. apply (Qpower_lt_compat_l_inv 2); [exact H | reflexivity].
Qed.

Lemma pow2_Z k : 0 <= k → (pow2 k == inject_Z (2 ^ k))%Q.
Proof. intros H. symmetry. apply (Zpower_Qpower 2 k H). Qed.

Lemma pow2_quot a b : (pow2 a / pow2 b == pow2 (a - b))%Q.
Proof.
  assert (Hb := pow2_pos b).
  replace a with ((a - b) + b) at 1 by ring. rewrite pow2_add.
  field. intros E. rewrite E in Hb. apply (Qlt_irrefl 0 Hb).
Qed.

(** The two ways [roundHalfEven] can go. *)
Lemma roundHalfEven_cases x :
  let f := Qfloor x in
  (roundHalfEven x = f ∧ (x - inject_Z f <= 1 # 2)%Q
   ∧ ((x - inject_Z f == 1 # 2)%Q → Z.even f = true))
  ∨ (roundHalfEven x = f + 1 ∧ (1 # 2 <= x - inject_Z f)%Q
     ∧ ((x - inject_Z f == 1 # 2)%Q → Z.even f = false)).
Proof.
  intros f. unfold roundHalfEven. fold f.
  destruct (Qlt_bool (x - inject_Z f) (1 # 2)) eqn:E1.
  - apply Qlt_bool_iff in E1. left. split; [reflexivity|].
    split; [lra|]. intros E. lra.
  - apply Qlt_bool_false_iff in E1.
    destruct (Qlt_bool (1 # 2) (x - inject_Z f)) eqn:E2.
    + apply Qlt_bool_iff in E2. right. split; [reflexivity|].
      split; [lra|]. intros E. lra.
    + apply Qlt_bool_false_iff in E2.
      destruct (Z.even f) eqn:E3.
      * left. split; [reflexivity|]. split; [lra | intros _; reflexivity].
      * right. split; [reflexivity|]. split; [lra | intros _; reflexivity].
Qed.

Lemma roundHalfEven_mono x y :
  (x <= y)%Q → roundHalfEven x <= roundHalfEven y.
Proof.
  intros Hxy.
  pose proof (Qfloor_resp_le x y Hxy) as Hf.
  pose proof (Qfloor_le x) as Hx1. pose proof (Qlt_floor x) as Hx2.
  pose proof (Qfloor_le y) as Hy1. pose proof (Qlt_floor y) as Hy2.
  destruct (roundHalfEven_cases x) as [(-> & Hx & Hxe)|(-> & Hx & Hxe)];
    destruct (roundHalfEven_cases y) as [(-> & Hy & Hye)|(-> & Hy & Hye)];
    try lia.
  destruct (Z.eq_dec (Qfloor x) (Qfloor y)) as [E|N]; [|lia].
  exfalso. rewrite E in *.
  assert (Hx' : (x - inject_Z (Qfloor y) == 1 # 2)%Q) by lra.
  assert (Hy' : (y - inject_Z (Qfloor y) == 1 # 2)%Q) by lra.
  rewrite (Hxe Hx') in Hye. specialize (Hye Hy'). discriminate.
Qed.

Lemma roundHalfEven_Z (n : Z) : roundHalfEven (inject_Z n) = n.
Proof.
  unfold roundHalfEven. rewrite Qfloor_Z.
  assert (E : Qlt_bool (inject_Z n - inject_Z n) (1 # 2) = true).
  { apply Qlt_bool_iff. lra. }
  rewrite E. reflexivity.
Qed.

Lemma roundHalfEven_eq x y : (x == y)%Q → roundHalfEven x = roundHalfEven y.
Proof.
  intros E. apply Z.le_antisymm; apply roundHalfEven_mono; lra.
Qed.

Lemma roundAt_mono k x y : (x <= y)%Q → (roundAt k x <= roundAt k y)%Q.
Proof.
  intros Hxy. unfold roundAt. pose proof (pow2_pos k) as Hk.
  apply Qmult_le_compat_r; [|lra].
  rewrite <- Zle_Qle. apply roundHalfEven_mono.
  apply Qmult_le_compat_r; [exact Hxy|].
  apply Qlt_le_weak, Qinv_lt_0_compat, Hk.
Qed.

(** A power of two is a multiple of every smaller power of two. *)
Lemma roundAt_pow2 k e : k <= e → (roundAt k (pow2 e) == pow2 e)%Q.
Proof.
  intros Hke.
  assert (E : (pow2 e == inject_Z (2 ^ (e - k)) * pow2 k)%Q).
  { rewrite <- pow2_Z by lia. rewrite <- pow2_add.
    replace (e - k + k) with e by ring. reflexivity. }
  unfold roundAt at 1.
  assert (E' : (pow2 e / pow2 k == inject_Z (2 ^ (e - k)))%Q).
  { rewrite pow2_quot. apply pow2_Z. lia. }
  rewrite (roundHalfEven_eq _ _ E'), roundHalfEven_Z.
  symmetry. exact E.
Qed.

(** [binade x] is the exponent of the power of two at or just below a
    positive [x]. *)
Lemma binade_spec x :
  (0 < x)%Q → (pow2 (binade x) <= x)%Q ∧ (x < pow2 (binade x + 1))%Q.
Proof.
  intros Hx. destruct x as [n d]. unfold binade. cbn [Qnum Qden].
  assert (Hn : 0 < n).
  { unfold Qlt in Hx. cbn in Hx. lia. }
  set (a := Z.log2 n). set (b := Z.log2 (Zpos d)).
  rewrite (Z.abs_eq n) by lia. fold a.
  assert (Habs : (Qabs (n # d) == n # d)%Q).
  { apply Qabs_pos. apply Qlt_le_weak, Hx. }
  destruct (Z.log2_spec n Hn) as [Ha1 Ha2]. fold a in Ha1, Ha2.
  destruct (Z.log2_spec (Zpos d) eq_refl) as [Hb1 Hb2]. fold b in Hb1, Hb2.
  assert (Ha0 : 0 <= a) by apply Z.log2_nonneg.
  assert (Hb0 : 0 <= b) by apply Z.log2_nonneg.
  assert (HdQ : (0 < inject_Z (Zpos d))%Q) by reflexivity.
  assert (Hna1 : (pow2 a <= inject_Z n)%Q).
  { rewrite pow2_Z by lia. rewrite <- Zle_Qle. exact Ha1. }
  assert (Hna2 : (inject_Z n < pow2 (a + 1))%Q).
  { rewrite pow2_Z by lia. rewrite <- Zlt_Qlt.
    replace (a + 1) with (Z.succ a) by lia. exact Ha2. }
  assert (Hdb1 : (pow2 b <= inject_Z (Zpos d))%Q).
  { rewrite pow2_Z by lia. rewrite <- Zle_Qle. exact Hb1. }
  assert (Hdb2 : (inject_Z (Zpos d) < pow2 (b + 1))%Q).
  { rewrite pow2_Z by lia. rewrite <- Zlt_Qlt.
    replace (b + 1) with (Z.succ b) by lia. exact Hb2. }
  assert (Hmul : ((n # d) * inject_Z (Zpos d) == inject_Z n)%Q).
  { rewrite (Qmake_Qdiv n d). field. discriminate. }
  assert (Hup : ((n # d) < pow2 (a - b + 1))%Q).
  { assert (H1 : ((n # d) * pow2 b < pow2 (a - b + 1) * pow2 b)%Q).
    { rewrite <- pow2_add. replace (a - b + 1 + b) with (a + 1) by ring.
      apply Qle_lt_trans with (inject_Z n); [|exact Hna2].
      rewrite <- Hmul. apply Qmult_le_l; [exact Hx | exact Hdb1]. }
    apply Qmult_lt_r in H1; [exact H1 | apply pow2_pos]. }
  assert (Hlow : (pow2 (a - b - 1) <= (n # d))%Q).
  { assert (H1 : (pow2 (a - b - 1) * inject_Z (Zpos d)
                  <= (n # d) * inject_Z (Zpos d))%Q).
    { rewrite Hmul.
      apply Qle_trans with (pow2 a); [|exact Hna1].
      replace a with (a - b - 1 + (b + 1)) at 2 by ring.
      rewrite pow2_add. apply Qmult_le_l; [apply pow2_pos|].
      apply Qlt_le_weak, Hdb2. }
    apply Qmult_le_r in H1; [exact H1 | exact HdQ]. }
  destruct (Qle_bool (pow2 (a - b)) (Qabs (n # d))) eqn:E.
  - apply Qle_bool_iff in E. rewrite Habs in E. split; [exact E | exact Hup].
  - split; [exact Hlow|].
    replace (a - b - 1 + 1) with (a - b) by ring.
    apply Qnot_le_lt. intros H.
    assert (E' : Qle_bool (pow2 (a - b)) (Qabs (n # d)) = true).
    { apply Qle_bool_iff. rewrite Habs. exact H. }
    congruence.
Qed.

Lemma binade_mono x y : (0 < x)%Q → (x <= y)%Q → binade x <= binade y.
Proof.
  intros Hx Hxy.
  destruct (binade_spec x Hx) as [Hx1 _].
  destruct (binade_spec y ltac:(lra)) as [_ Hy2].
  assert (H : (pow2 (binade x) < pow2 (binade y + 1))%Q) by lra.
  apply pow2_lt_inv in H. lia.
Qed.

Lemma round64_zero x : (x == 0)%Q → (round64 x == 0)%Q.
Proof.
  intros E. unfold round64, roundAt.
  assert (E' : (x / pow2 (lastBit x) == inject_Z 0)%Q).
  { transitivity (0 * / pow2 (lastBit x))%Q;
      [apply Qmult_comp; [exact E | reflexivity] | ring]. }
  rewrite (roundHalfEven_eq _ _ E'), roundHalfEven_Z. ring.
Qed.

Lemma round64_nonneg x : (0 <= x)%Q → (0 <= round64 x)%Q.
Proof.
  intros Hx. unfold round64, roundAt. pose proof (pow2_pos (lastBit x)) as Hk.
  assert (H : 0 <= roundHalfEven (x / pow2 (lastBit x))).
  { apply Z.le_trans with (roundHalfEven (inject_Z 0));
      [by rewrite roundHalfEven_Z|].
    apply roundHalfEven_mono.
    apply Qle_shift_div_l; [exact Hk|]. rewrite Qmult_0_l. exact Hx. }
  rewrite Zle_Qle in H. apply Qmult_le_0_compat; [exact H | lra].
Qed.

Lemma round64_nonpos x : (x <= 0)%Q → (round64 x <= 0)%Q.
Proof.
  intros Hx. unfold round64, roundAt. pose proof (pow2_pos (lastBit x)) as Hk.
  assert (H : roundHalfEven (x / pow2 (lastBit x)) <= 0).
  { apply Z.le_trans with (roundHalfEven (inject_Z 0));
      [|by rewrite roundHalfEven_Z].
    apply roundHalfEven_mono.
    apply Qle_shift_div_r; [exact Hk|]. rewrite Qmult_0_l. exact Hx. }
  rewrite Zle_Qle in H. change (inject_Z 0) with 0%Q in H. nra.
Qed.

(** Two numbers of different binades are separated by a power of two,
    which both roundings leave where it is. *)
Lemma round64_mono_pos x y :
  (0 < x)%Q → (x <= y)%Q → (round64 x <= round64 y)%Q.
Proof.
  intros Hx Hxy. unfold round64.
  pose proof (binade_mono x y Hx Hxy) as Hb.
  assert (Hk : lastBit x <= lastBit y) by (unfold lastBit; lia).
  destruct (Z.eq_dec (lastBit x) (lastBit y)) as [E|N].
  - rewrite E. by apply roundAt_mono.
  - assert (Hy : lastBit y <= binade y) by (unfold lastBit in *; lia).
    assert (Hxy' : binade x < binade y) by (unfold lastBit in *; lia).
    destruct (binade_spec x Hx) as [_ Hx2].
    destruct (binade_spec y ltac:(lra)) as [Hy1 _].
    apply Qle_trans with (pow2 (binade y)).
    + rewrite <- (roundAt_pow2 (lastBit x) (binade y)) by lia.
      apply roundAt_mono.
      apply Qle_trans with (pow2 (binade x + 1)); [lra|].
      apply pow2_le. lia.
    + rewrite <- (roundAt_pow2 (lastBit y) (binade y)) at 1 by lia.
      apply roundAt_mono. exact Hy1.
Qed.

(** Rounding to a double never reverses the order of two numbers. *)
Lemma round64_mono x y :
  (0 <= x)%Q → (x <= y)%Q → (round64 x <= round64 y)%Q.
Proof.
  intros Hx Hxy.
  destruct (Qlt_le_dec 0 x) as [Hpos|H0].
  - by apply round64_mono_pos.
  - rewrite (round64_zero x) by lra. apply round64_nonneg. lra.
Qed.

Lemma round64_eq x y : (0 <= x)%Q → (x == y)%Q → (round64 x == round64 y)%Q.
Proof.
  intros Hx E. apply Qle_antisym; apply round64_mono; lra.
Qed.

(** The product of a positive integer and a positive double is not
    rounded to 0. *)
Lemma mul64_pos (i : Z) (w : Q) :
  1 <= i → isDouble w → (0 < w)%Q → (0 < mul64 (inject_Z i) w)%Q.
Proof.
  intros Hi Hd Hw. unfold mul64.
  apply Qlt_le_trans with (round64 w); [unfold isDouble in Hd; lra|].
  apply round64_mono; [lra|].
  assert (H1 : (1 <= inject_Z i)%Q).
  { change 1%Q with (inject_Z 1). by rewrite <- Zle_Qle. }
  nra.
Qed.

Lemma mul64_mono (i j : Z) (w : Q) :
  0 <= i → i <= j → (0 <= w)%Q →
  (mul64 (inject_Z i) w <= mul64 (inject_Z j) w)%Q.
Proof.
  intros Hi Hij Hw. unfold mul64.
  assert (H0 : (0 <= inject_Z i)%Q).
  { change 0%Q with (inject_Z 0). by rewrite <- Zle_Qle. }
  assert (H1 : (inject_Z i <= inject_Z j)%Q) by by rewrite <- Zle_Qle.
  apply round64_mono; nra.
Qed.

(** ** The ratio of a zone's index to the zone count *)

Lemma ratio_bounds (i n : Z) :
  0 < i → i <= n →
  (0 < inject_Z i / inject_Z n)%Q ∧ (inject_Z i / inject_Z n <= 1)%Q.
Proof.
  intros Hi Hin.
  assert (Hn : (0 < inject_Z n)%Q) by (apply inject_Z_pos; lia).
  split.
  - apply Qlt_shift_div_l; [exact Hn|]. rewrite Qmult_0_l.
    apply inject_Z_pos, Hi.
  - apply Qle_shift_div_r; [exact Hn|]. rewrite Qmult_1_l.
    by rewrite <- Zle_Qle.
Qed.

Lemma ratio_mono (i j n : Z) :
  0 < n → i <= j → (inject_Z i / inject_Z n <= inject_Z j / inject_Z n)%Q.
Proof.
  intros Hn Hij. unfold Qdiv. apply Qmult_le_compat_r.
  - by rewrite <- Zle_Qle.
  - apply Qlt_le_weak, Qinv_lt_0_compat, inject_Z_pos, Hn.
Qed.

Lemma ratio_one (n : Z) : 0 < n → (inject_Z n / inject_Z n == 1)%Q.
Proof.
  intros Hn. field. intros E.
  pose proof (inject_Z_pos n Hn) as H. rewrite E in H.
  apply (Qlt_irrefl 0 H).
Qed.

(** A ratio of two integers that lies above [a / 10] lies above it by
    [1 / (10 n)] at least, which for the zone counts an array can hold
    is more than [2^-36]. *)
Lemma ratio_clear_of_tenth (a i n : Z) :
  0 < n → n <= maxArrayLength →
  (inject_Z a / 10 < inject_Z i / inject_Z n)%Q →
  (inject_Z a / 10 + (1 # 68719476736) <= inject_Z i / inject_Z n)%Q.
Proof.
  intros Hn Hmax Hlt.
  pose proof (inject_Z_pos n Hn) as HnQ.
  assert (HZ : a * n < 10 * i).
  { assert (H1 : (inject_Z a / 10 * inject_Z n
                  < inject_Z i / inject_Z n * inject_Z n)%Q)
      by (apply Qmult_lt_r; [exact HnQ | exact Hlt]).
    assert (H2 : (inject_Z i / inject_Z n * inject_Z n == inject_Z i)%Q).
    { field. intros E. rewrite E in HnQ. apply (Qlt_irrefl 0 HnQ). }
    assert (H3 : (inject_Z a / 10 * inject_Z n
                  == inject_Z a * inject_Z n / 10)%Q) by field.
    rewrite H2, H3 in H1.
    assert (H : (inject_Z (a * n) < inject_Z (10 * i))%Q).
    { rewrite !inject_Z_mult. change (inject_Z 10) with 10%Q.
      set (an := (inject_Z a * inject_Z n)%Q) in *. clearbody an.
      clear Hlt H2 H3. unfold Qdiv in H1.
      change (/ 10)%Q with (1 # 10)%Q in H1. lra. }
    by rewrite <- Zlt_Qlt in H. }
  assert (HZ' : a * n + 1 <= 10 * i) by lia.
  assert (HQ : (inject_Z a * inject_Z n + 1 <= 10 * inject_Z i)%Q).
  { rewrite Zle_Qle in HZ'.
    rewrite inject_Z_plus, !inject_Z_mult in HZ'.
    change (inject_Z 10) with 10%Q in HZ'.
    change (inject_Z 1) with 1%Q in HZ'. exact HZ'. }
  assert (HmaxQ : (inject_Z n <= 4294967295)%Q).
  { change 4294967295%Q with (inject_Z maxArrayLength).
    by rewrite <- Zle_Qle. }
  apply Qle_shift_div_l; [exact HnQ|].
  assert (H4 : ((inject_Z a / 10 + (1 # 68719476736)) * inject_Z n
                == inject_Z a * inject_Z n / 10
                   + (1 # 68719476736) * inject_Z n)%Q) by field.
  rewrite H4. set (an := (inject_Z a * inject_Z n)%Q) in *. clearbody an.
  clear Hlt H4. unfold Qdiv. change (/ 10)%Q with (1 # 10)%Q. lra.
Qed.

Lemma div64_ratio_le (i n : Z) (a : Z) :
  0 <= i → 0 < n →
  (inject_Z i / inject_Z n <= inject_Z a / 10)%Q →
  (div64 (inject_Z i) (inject_Z n) <= double (inject_Z a / 10))%Q.
Proof.
  intros Hi Hn Hle. unfold div64, double.
  apply round64_mono; [|exact Hle].
  apply Qle_shift_div_l; [apply inject_Z_pos, Hn|]. rewrite Qmult_0_l.
  change 0%Q with (inject_Z 0). by rewrite <- Zle_Qle.
Qed.

Lemma div64_ratio_gt (i n : Z) (a : Z) :
  0 <= a → 0 < n → n <= maxArrayLength →
  (double (inject_Z a / 10)
   < round64 (inject_Z a / 10 + (1 # 68719476736)))%Q →
  (inject_Z a / 10 < inject_Z i / inject_Z n)%Q →
  (double (inject_Z a / 10) < div64 (inject_Z i) (inject_Z n))%Q.
Proof.
  intros Ha Hn Hmax Hgap Hlt.
  eapply Qlt_le_trans; [exact Hgap|]. unfold div64.
  apply round64_mono.
  - assert (H : (0 <= inject_Z a)%Q).
    { change 0%Q with (inject_Z 0). by rewrite <- Zle_Qle. }
    unfold Qdiv. change (/ 10)%Q with (1 # 10)%Q. lra.
  - by apply ratio_clear_of_tenth.
Qed.

(** ** The zone builder *)

Section ZoneBuilder.
Context {Geom : Type} `{T : Turf Geom}.

Lemma createBufferZones_default c config :
  createBufferZones c config
  = createBufferZones c (Some (default defaultConfig config)).
Proof. reflexivity. Qed.

Lemma zoneCount_no_width cfg : (zoneWidth cfg == 0)%Q → zoneCount cfg = 0.
Proof.
  intros Hw. unfold zoneCount, div64.
  assert (E : (totalRadius cfg / zoneWidth cfg == 0)%Q).
  { unfold Qdiv. rewrite Hw. unfold Qinv. simpl. ring. }
  rewrite (Qceiling_comp _ _ (round64_zero _ E)). reflexivity.
Qed.

(** When the call returns, it returns the zones of the iterations
    [i = 1 .. zoneCount cfg], and there are no more of them than an
    array holds. *)
Lemma createBufferZones_Some c cfg zs :
  createBufferZones c (Some cfg) = Some zs →
  zoneCount cfg <= maxArrayLength
  ∧ zs = zoneAt c (totalRadius cfg) (zoneWidth cfg) (zoneCount cfg)
           <$> seqZ 1 (zoneCount cfg).
Proof.
  unfold createBufferZones.
  change (default defaultConfig (Some cfg)) with cfg. fold (zoneCount cfg).
  destruct (Qeq_bool (zoneWidth cfg) 0) eqn:Ew.
  - apply Qeq_bool_iff in Ew.
    destruct (Qlt_bool 0 (totalRadius cfg)); [by intros [=]|].
    intros [= <-]. rewrite (zoneCount_no_width cfg Ew).
    split; [done | reflexivity].
  - destruct (decide (zoneCount cfg <= maxArrayLength)) as [Hle|];
      [|by intros [=]].
    intros [= <-]. split; [exact Hle | reflexivity].
Qed.

Lemma createBufferZones_returns c cfg :
  ¬ (zoneWidth cfg == 0)%Q → zoneCount cfg <= maxArrayLength →
  createBufferZones c (Some cfg)
  = Some (zoneAt c (totalRadius cfg) (zoneWidth cfg) (zoneCount cfg)
            <$> seqZ 1 (zoneCount cfg)).
Proof.
  intros Hw Hle. unfold createBufferZones.
  change (default defaultConfig (Some cfg)) with cfg. fold (zoneCount cfg).
  destruct (Qeq_bool (zoneWidth cfg) 0) eqn:Ew.
  - apply Qeq_bool_iff in Ew. contradiction.
  - by rewrite decide_True.
Qed.

Lemma createBufferZones_length c cfg zs :
  createBufferZones c (Some cfg) = Some zs →
  length zs = Z.to_nat (zoneCount cfg).
Proof.
  intros [_ ->]%createBufferZones_Some.
  by rewrite length_fmap, length_seqZ.
Qed.

Lemma createBufferZones_lookup c cfg zs k z :
  createBufferZones c (Some cfg) = Some zs →
  zs !! k = Some z ↔
  Z.of_nat k < zoneCount cfg
  ∧ z = zoneAt c (totalRadius cfg) (zoneWidth cfg) (zoneCount cfg)
          (Z.of_nat (S k)).
Proof.
  intros [_ ->]%createBufferZones_Some. rewrite list_lookup_fmap.
  split.
  - intros H. apply fmap_Some in H as (i & Hi & ->).
    apply lookup_seqZ in Hi as [-> Hlt]. split; [exact Hlt|].
    f_equal. lia.
  - intros [Hlt ->]. rewrite lookup_seqZ_lt by exact Hlt. simpl.
    do 2 f_equal. lia.
Qed.

Lemma createBufferZones_last c cfg zs z :
  createBufferZones c (Some cfg) = Some zs →
  last zs = Some z →
  z = zoneAt c (totalRadius cfg) (zoneWidth cfg) (zoneCount cfg)
        (zoneCount cfg).
Proof.
  intros Hzs. rewrite last_lookup, (createBufferZones_length _ _ _ Hzs).
  intros H. apply (createBufferZones_lookup _ _ _ _ _ Hzs) in H as [Hlt ->].
  f_equal. lia.
Qed.

Lemma zone_radius_le_total c t w n i :
  (radiusKm (zoneAt c t w n i) <= t)%Q.
Proof. simpl. apply Q.le_min_r. Qed.

(** Rounding keeps the products [i * zoneWidth] in order, so the radii
    never fall from one zone to the next. *)
Lemma zone_radius_mono c cfg zs i j zi zj :
  (0 <= zoneWidth cfg)%Q →
  createBufferZones c (Some cfg) = Some zs →
  zs !! i = Some zi → zs !! j = Some zj →
  (i ≤ j)%nat → (radiusKm zi <= radiusKm zj)%Q.
Proof.
  intros Hw Hzs Hi Hj Hij.
  apply (createBufferZones_lookup _ _ _ _ _ Hzs) in Hi as [_ ->].
  apply (createBufferZones_lookup _ _ _ _ _ Hzs) in Hj as [_ ->]. simpl.
  apply Q.min_le_compat_r, mul64_mono; [lia | lia | exact Hw].
Qed.

(** C1.  The claim does not hold of the code, whose arithmetic is that
    of doubles.  With a total radius of 1.8 and a zone width of 0.6 the
    product [3 * 0.6] is rounded to 1.7999999999999998, below the double
    1.8: the last of the three zones has that radius, not the total
    radius.  With a total radius of 4.2 and a zone width of 0.6 the
    quotient of the two doubles is 7.000000000000001: the call returns
    eight zones where the decimal numbers give [ceil (4.2 / 0.6) = 7],
    and the zones 7 and 8 both have the radius 4.2. *)
Theorem last_radius_misses_total c :
  (let cfg := {| totalRadius := double (18 # 10);
                 zoneWidth := double (6 # 10) |} in
   validConfig cfg
   ∧ ∃ zs z, createBufferZones c (Some cfg) = Some zs
       ∧ length zs = 3%nat
       ∧ last zs = Some z
       ∧ (radiusKm z == 2026619832316723 # 1125899906842624)%Q
       ∧ (radiusKm z < totalRadius cfg)%Q)
  ∧ (let cfg := {| totalRadius := double (42 # 10);
                   zoneWidth := double (6 # 10) |} in
     validConfig cfg
     ∧ Qceiling ((42 # 10) / (6 # 10)) = 7
     ∧ ∃ zs z7 z8, createBufferZones c (Some cfg) = Some zs
         ∧ length zs = 8%nat
         ∧ zs !! 6%nat = Some z7 ∧ zs !! 7%nat = Some z8
         ∧ (radiusKm z7 == totalRadius cfg)%Q
         ∧ (radiusKm z8 == totalRadius cfg)%Q).
Proof.
  split.
  - split; [split; reflexivity|].
    eexists _, _. split; [vm_compute; reflexivity|].
    split; [reflexivity|]. split; [reflexivity|].
    split; vm_compute; reflexivity.
  - split; [split; reflexivity|]. split; [vm_compute; reflexivity|].
    eexists _, _, _. split; [vm_compute; reflexivity|].
    split; [reflexivity|]. split; [reflexivity|]. split; [reflexivity|].
    split; vm_compute; reflexivity.
Qed.

End ZoneBuilder.

(** ** Risk levels *)

Section RiskLevels.
Context {Geom : Type} `{T : Turf Geom}.

(** For the zone counts an array can hold, the comparisons of the
    rounded ratio with the doubles 0.6 and 0.8 come out as those of the
    exact ratio with 6/10 and 8/10. *)
Lemma calculateRiskLevel_cases (i n : Z) :
  0 <= i → 0 < n → n <= maxArrayLength →
  let ratio := (inject_Z i / inject_Z n)%Q in
  ((ratio <= 6 # 10)%Q → calculateRiskLevel i n = High)
  ∧ ((6 # 10 < ratio)%Q → (ratio <= 8 # 10)%Q →
     calculateRiskLevel i n = Medium)
  ∧ ((8 # 10 < ratio)%Q → calculateRiskLevel i n = Low).
Proof.
  intros Hi Hn Hmax ratio. unfold calculateRiskLevel.
  assert (Hle6 : (ratio <= 6 # 10)%Q →
            Qle_bool (div64 (inject_Z i) (inject_Z n)) (double (6 # 10))
            = true).
  { intros H. apply Qle_bool_iff. exact (div64_ratio_le i n 6 Hi Hn H). }
  assert (Hle8 : (ratio <= 8 # 10)%Q →
            Qle_bool (div64 (inject_Z i) (inject_Z n)) (double (8 # 10))
            = true).
  { intros H. apply Qle_bool_iff. exact (div64_ratio_le i n 8 Hi Hn H). }
  assert (Hgt6 : (6 # 10 < ratio)%Q →
            Qle_bool (div64 (inject_Z i) (inject_Z n)) (double (6 # 10))
            = false).
  { intros H. apply Qle_bool_false_iff.
    refine (div64_ratio_gt i n 6 _ Hn Hmax _ H); [lia|].
    vm_compute. reflexivity. }
  assert (Hgt8 : (8 # 10 < ratio)%Q →
            Qle_bool (div64 (inject_Z i) (inject_Z n)) (double (8 # 10))
            = false).
  { intros H. apply Qle_bool_false_iff.
    refine (div64_ratio_gt i n 8 _ Hn Hmax _ H); [lia|].
    vm_compute. reflexivity. }
  split; [|split].
  - intros H. by rewrite (Hle6 H).
  - intros H6 H8. by rewrite (Hgt6 H6), (Hle8 H8).
  - intros H8.
    rewrite Hgt6 by (apply Qlt_trans with (8 # 10)%Q; [reflexivity | exact H8]).
    by rewrite (Hgt8 H8).
Qed.

(** C7.  Every zone returned by [createBufferZones] has the risk level
    given by the ratio of its id to the number of zones: high up to 0.6,
    medium above 0.6 and up to 0.8, low above 0.8. *)
Theorem risk_level_by_ratio c cfg zs k z :
  createBufferZones c (Some cfg) = Some zs →
  zs !! k = Some z →
  let numZones := zoneCount cfg in
  let ratio := (inject_Z (id z) / inject_Z numZones)%Q in
  length zs = Z.to_nat numZones
  ∧ id z = Z.of_nat (S k)
  ∧ ((ratio <= 6 # 10)%Q → riskLevel z = High)
  ∧ ((6 # 10 < ratio)%Q → (ratio <= 8 # 10)%Q → riskLevel z = Medium)
  ∧ ((8 # 10 < ratio)%Q → riskLevel z = Low).
Proof.
  intros Hzs Hk numZones ratio. subst ratio numZones.
  destruct (createBufferZones_Some _ _ _ Hzs) as [Hmax _].
  apply (createBufferZones_lookup _ _ _ _ _ Hzs) in Hk as [Hlt ->].
  split; [by apply (createBufferZones_length c)|].
  split; [reflexivity|].
  refine (calculateRiskLevel_cases (Z.of_nat (S k)) _ _ _ Hmax); lia.
Qed.

End RiskLevels.

(** Width 1 and total 5: five zones, rated high, high, high, medium, low;
    the third zone sits exactly on the 0.6 threshold. *)
Lemma risk_level_by_ratio_witness :
  let cfg := {| totalRadius := 5; zoneWidth := 1 |} in
  ∃ zs z, @createBufferZones _ planarTurf (0, 0)%Q (Some cfg) = Some zs
    ∧ riskLevel <$> zs = [High; High; High; Medium; Low]
    ∧ zs !! 2%nat = Some z ∧ id z = 3
    ∧ (inject_Z 3 / inject_Z 5 <= 6 # 10)%Q ∧ riskLevel z = High.
Proof.
  intros cfg.
  destruct (@createBufferZones _ planarTurf (0, 0)%Q (Some cfg))
    as [zs|] eqn:Hzs; [|vm_compute in Hzs; discriminate].
  destruct (zs !! 2%nat) as [z|] eqn:Hz;
    [|vm_compute in Hzs; injection Hzs as <-; discriminate].
  destruct (@risk_level_by_ratio _ planarTurf (0, 0)%Q cfg zs 2%nat z
              Hzs Hz) as (_ & Hid & Hhigh & _).
  exists zs, z. split; [reflexivity|].
  split; [vm_compute in Hzs; by injection Hzs as <-|].
  split; [exact Hz|]. split; [exact Hid|].
  split; [vm_compute; discriminate|].
  apply Hhigh. rewrite Hid. vm_compute. discriminate.
Defined.

(** ** The aggregator: which polygon each zone is counted against *)

Section Aggregator.
Context {Geom : Type} `{T : Turf Geom}.

Lemma last_take_S {A : Type} (l : list A) (k : nat) (x : A) :
  l !! k = Some x → last (take (S k) l) = Some x.
Proof.
  intros Hk. rewrite (take_S_r _ _ _ Hk). apply last_snoc.
Qed.

Lemma createRingPolygon_first (outer : Geom) :
  createRingPolygon outer [] = outer.
Proof. reflexivity. Qed.

Lemma createRingPolygon_after (outer inner : Geom) (inners : list Geom) :
  createRingPolygon outer (inners ++ [inner])
  = match turf_difference outer inner with
    | DiffFeature d => d
    | DiffNull | DiffThrows => outer
    end.
Proof. unfold createRingPolygon. by rewrite last_snoc. Qed.

(** The state of the loop when it reaches position [k]: the polygons of
    the zones before it, in order. *)
Lemma calculateStatistics_from_lookup prev zones schools layerFeatures k
    zone :
  zones !! k = Some zone →
  calculateStatistics_from prev zones schools layerFeatures !! k
  = Some (zoneStats zone
            (createRingPolygon (polygon zone)
               (prev ++ (polygon <$> take k zones)))
            schools layerFeatures).
Proof.
  revert prev k.
  induction zones as [|z zones IH]; intros prev k Hk; [done|].
  destruct k as [|k]; simpl in *.
  - injection Hk as ->. by rewrite app_nil_r.
  - rewrite (IH _ _ Hk). by rewrite <- app_assoc.
Qed.

Lemma calculateStatistics_from_length prev zones schools layerFeatures :
  length (calculateStatistics_from prev zones schools layerFeatures)
  = length zones.
Proof.
  revert prev. induction zones as [|z zones IH]; intros prev; [done|].
  simpl. by rewrite IH.
Qed.

Lemma ring_of_prefix zones k zone :
  zones !! k = Some zone →
  createRingPolygon (polygon zone) (polygon <$> take k zones)
  = countableRing zones k zone.
Proof.
  intros Hk. destruct k as [|k]; [done|].
  element_before Hk before Hb.
  rewrite (take_S_r _ _ _ Hb), fmap_app. simpl.
  rewrite createRingPolygon_after. by rewrite Hb.
Qed.

Lemma calculateStatistics_lookup zones schools layerFeatures k zone :
  zones !! k = Some zone →
  calculateStatistics zones schools layerFeatures !! k
  = Some (zoneStats zone (countableRing zones k zone) schools
            layerFeatures).
Proof.
  intros Hk. unfold calculateStatistics.
  rewrite (calculateStatistics_from_lookup _ _ _ _ _ _ Hk). simpl.
  by rewrite (ring_of_prefix _ _ _ Hk).
Qed.

Lemma calculateStatistics_lookup_inv zones schools layerFeatures k st :
  calculateStatistics zones schools layerFeatures !! k = Some st →
  ∃ zone, zones !! k = Some zone
    ∧ st = zoneStats zone (countableRing zones k zone) schools
             layerFeatures.
Proof.
  intros Hst.
  assert (Hlt : (k < length zones)%nat).
  { apply lookup_lt_Some in Hst. unfold calculateStatistics in Hst.
    by rewrite calculateStatistics_from_length in Hst. }
  destruct (lookup_lt_is_Some_2 zones k Hlt) as [zone Hz].
  exists zone. split; [done|].
  rewrite (calculateStatistics_lookup _ _ _ _ _ Hz) in Hst.
  by injection Hst as <-.
Qed.

Lemma calculateStatistics_imap zones schools layerFeatures :
  calculateStatistics zones schools layerFeatures
  = imap (fun k zone =>
            zoneStats zone (countableRing zones k zone) schools
              layerFeatures) zones.
Proof.
  apply list_eq. intros k. rewrite list_lookup_imap.
  destruct (zones !! k) as [zone|] eqn:Hk; simpl.
  - by apply calculateStatistics_lookup.
  - apply lookup_ge_None. apply lookup_ge_None in Hk.
    unfold calculateStatistics.
    by rewrite calculateStatistics_from_length.
Qed.

(** C3.  The statistics of the zone at position [k] are counted against
    the ring of the specification: the zone's own buffer for the first
    zone; for a later zone the difference of its buffer and the buffer of
    the zone immediately before it, and its own buffer when that
    difference throws or is [null].  One statistics record is produced
    per zone whatever the difference does. *)
Theorem ring_is_difference_or_own_buffer zones schools layerFeatures k
    zone :
  zones !! k = Some zone →
  length (calculateStatistics zones schools layerFeatures) = length zones
  ∧ calculateStatistics zones schools layerFeatures !! k
    = Some (zoneStats zone (countableRing zones k zone) schools
              layerFeatures)
  ∧ (k = 0%nat → countableRing zones k zone = polygon zone)
  ∧ (∀ k' before, k = S k' → zones !! k' = Some before →
       match turf_difference (polygon zone) (polygon before) with
       | DiffFeature d => countableRing zones k zone = d
       | DiffNull | DiffThrows => countableRing zones k zone = polygon zone
       end).
Proof.
  intros Hk.
  split; [apply calculateStatistics_from_length|].
  split; [by apply calculateStatistics_lookup|].
  split; [by intros ->|].
  intros k' before -> Hb. simpl. rewrite Hb.
  by destruct (turf_difference (polygon zone) (polygon before)).
Qed.

End Aggregator.

(** With a difference that always throws, the second of two zones is
    counted against its own full buffer. *)
Lemma ring_is_difference_or_own_buffer_witness :
  ∃ zs zone,
    @createBufferZones _ throwingTurf (0, 0)%Q
      (Some {| totalRadius := 2; zoneWidth := 1 |}) = Some zs
    ∧ zs !! 1%nat = Some zone
    ∧ (radiusKm zone == 2)%Q
    ∧ @countableRing _ throwingTurf zs 1 zone = polygon zone
    ∧ @calculateStatistics _ throwingTurf zs [] ∅ !! 1%nat
      = Some (@zoneStats _ throwingTurf zone
                (@countableRing _ throwingTurf zs 1 zone) [] ∅).
Proof.
  destruct (@createBufferZones _ throwingTurf (0, 0)%Q
              (Some {| totalRadius := 2; zoneWidth := 1 |}))
    as [zs|] eqn:Hzs; [|vm_compute in Hzs; discriminate].
  destruct (zs !! 1%nat) as [zone|] eqn:Hz;
    [|vm_compute in Hzs; injection Hzs as <-; discriminate].
  exists zs, zone. split; [reflexivity|]. split; [exact Hz|].
  split; [|split].
  - vm_compute in Hzs. injection Hzs as <-.
    vm_compute in Hz. injection Hz as <-. vm_compute. reflexivity.
  - vm_compute in Hzs. injection Hzs as <-.
    vm_compute in Hz. injection Hz as <-. reflexivity.
  - exact (proj1 (proj2
      (@ring_is_difference_or_own_buffer _ throwingTurf zs [] ∅ 1%nat
         zone Hz))).
Defined.

(** ** Counting lemmas *)

Lemma length_filter_b2n {A : Type} (f : A → bool) (l : list A) :
  length (filter (fun x => f x = true) l) = sum_list (Nat.b2n ∘ f <$> l).
Proof.
  induction l as [|x l IH]; [done|].
  rewrite filter_cons. simpl. destruct (f x) eqn:E.
  - rewrite decide_True by done. simpl. by rewrite IH.
  - rewrite decide_False by done. simpl. by rewrite IH.
Qed.

Lemma length_filter_fmap_true {A B : Type} (g : A → B) (f : B → bool)
    (l : list A) :
  length (filter (fun x => f (g x) = true) l)
  = length (filter (fun y => f y = true) (g <$> l)).
Proof.
  rewrite !length_filter_b2n. by rewrite <- list_fmap_compose.
Qed.

Lemma length_filter_all {A : Type} (f : A → bool) (l : list A) :
  length (filter (fun x => f x = true) l) = length l
  ↔ Forall (fun x => f x = true) l.
Proof.
  induction l as [|x l IH]; [by split|].
  rewrite filter_cons, Forall_cons.
  pose proof (length_filter (fun x => f x = true) l) as Hle.
  destruct (f x) eqn:E.
  - rewrite decide_True by done. simpl. rewrite <- IH.
    split; [intros H; split; [done | lia] | intros [_ H]; lia].
  - rewrite decide_False by done. simpl.
    split; [intros H; lia | intros [H _]; done].
Qed.

Lemma sum_list_imap_add {A : Type} (f g : nat → A → nat) (l : list A) :
  sum_list (imap (fun k x => f k x + g k x)%nat l)
  = (sum_list (imap f l) + sum_list (imap g l))%nat.
Proof.
  revert f g. induction l as [|x l IH]; intros f g; [done|].
  rewrite !imap_cons. simpl.
  pose proof (IH (f ∘ S) (g ∘ S)) as IH'.
  unfold compose in *. rewrite IH'. lia.
Qed.

Lemma sum_list_imap_zero {A : Type} (l : list A) :
  sum_list (imap (fun _ _ => 0%nat) l) = 0%nat.
Proof.
  induction l as [|x l IH]; [done|]. rewrite imap_cons. simpl. exact IH.
Qed.

Lemma ringHits_lookup (prev : bool) (bs : list bool) (k : nat) :
  ringHits prev bs !! k
  = (fun b => b && negb (match k with
                         | O => prev
                         | S k' => default false (bs !! k')
                         end)) <$> bs !! k.
Proof.
  revert prev k. induction bs as [|b bs IH]; intros prev k; [done|].
  destruct k as [|k]; [done|]. simpl. rewrite IH.
  destruct k as [|k]; done.
Qed.

Lemma ringHits_sum (prev : bool) (bs : list bool) :
  rising prev bs →
  (sum_list (Nat.b2n <$> ringHits prev bs) + Nat.b2n prev)%nat
  = Nat.b2n (default prev (last bs)).
Proof.
  revert prev. induction bs as [|b bs IH]; intros prev Hr; [done|].
  destruct Hr as [Hstep Hr]. simpl. specialize (IH b Hr).
  replace (default prev (last (b :: bs))) with (default b (last bs))
    by (rewrite last_cons; destruct (last bs); done).
  rewrite <- IH.
  destruct prev, b; simpl; unfold fmap; lia.
Qed.

Lemma rising_of_lookup (prev : bool) (bs : list bool) :
  (prev = true → ∀ j b, bs !! j = Some b → b = true) →
  (∀ i j bi bj, (i ≤ j)%nat → bs !! i = Some bi → bs !! j = Some bj →
                bi = true → bj = true) →
  rising prev bs.
Proof.
  revert prev. induction bs as [|b bs IH]; intros prev Hprev Hmono; [done|].
  split.
  - intros Hp. by apply (Hprev Hp 0%nat).
  - apply IH.
    + intros -> j bj Hj.
      by apply (Hmono 0%nat (S j) true bj); [lia | | |].
    + intros i j bi bj Hij Hi Hj.
      apply (Hmono (S i) (S j)); [lia | done | done].
Qed.

(** ** Zones whose radii rise *)

Section RisingRadii.
Context {Geom : Type}.

Lemma radiiRiseFrom_lookup r (zs : list (BufferZone Geom)) i z :
  radiiRiseFrom r zs → zs !! i = Some z → (r < radiusKm z)%Q.
Proof.
  revert r i. induction zs as [|z0 zs IH]; intros r i Hr Hi; [done|].
  destruct Hr as [Hr0 Hr]. destruct i as [|i]; simpl in Hi.
  - by injection Hi as <-.
  - apply Qlt_trans with (radiusKm z0); [exact Hr0|]. by apply (IH _ i).
Qed.

Lemma radiiRiseFrom_strict r (zs : list (BufferZone Geom)) i j zi zj :
  radiiRiseFrom r zs → zs !! i = Some zi → zs !! j = Some zj →
  (i < j)%nat → (radiusKm zi < radiusKm zj)%Q.
Proof.
  revert r i j. induction zs as [|z0 zs IH]; intros r i j Hr Hi Hj Hij;
    [done|].
  destruct Hr as [_ Hr]. destruct j as [|j]; [lia|]. simpl in Hj.
  destruct i as [|i]; simpl in Hi.
  - injection Hi as <-. by apply (radiiRiseFrom_lookup _ zs j).
  - apply (IH (radiusKm z0) i j); [done | done | done | lia].
Qed.

End RisingRadii.

(** ** Rings of an exact geometry library *)

Section ExactGeometry.
Context {Geom : Type} `{T : Turf Geom} (HT : TurfExact T).
Context (c : LatLng) (cfg : BufferConfig) (zs : list (BufferZone Geom)).
Context (Hzs : createBufferZones c (Some cfg) = Some zs).
Context (Hrise : radiiRise zs).

Lemma zone_polygon_buffer k z :
  zs !! k = Some z →
  polygon z = turf_buffer (turf_point (c.2, c.1)) (radiusKm z).
Proof.
  intros Hk. by apply (createBufferZones_lookup _ _ _ _ _ Hzs) in Hk as [_ ->].
Qed.

Lemma zone_radius_pos k z : zs !! k = Some z → (0 < radiusKm z)%Q.
Proof. apply radiiRiseFrom_lookup, Hrise. Qed.

Lemma zone_radius_rises i j zi zj :
  (i ≤ j)%nat → zs !! i = Some zi → zs !! j = Some zj →
  (radiusKm zi <= radiusKm zj)%Q.
Proof.
  intros Hij Hi Hj. destruct (decide (i = j)) as [->|Hne].
  - rewrite Hi in Hj. injection Hj as <-. apply Qle_refl.
  - apply Qlt_le_weak.
    apply (radiiRiseFrom_strict _ _ i j _ _ Hrise Hi Hj). lia.
Qed.

Lemma zone_buffers_nested i j zi zj p :
  (i ≤ j)%nat → zs !! i = Some zi → zs !! j = Some zj →
  countedIn p (polygon zi) = true → countedIn p (polygon zj) = true.
Proof.
  intros Hij Hi Hj.
  rewrite (zone_polygon_buffer _ _ Hi), (zone_polygon_buffer _ _ Hj).
  unfold countedIn. apply (buffer_nested HT).
  by apply (zone_radius_rises i j).
Qed.

Lemma zone_centre_inside k z :
  zs !! k = Some z → countedIn c (polygon z) = true.
Proof.
  intros Hk. rewrite (zone_polygon_buffer _ _ Hk). unfold countedIn.
  apply (buffer_centre HT). by apply zone_radius_pos with k.
Qed.

(** Consecutive buffers differ, so the difference is a feature and the
    ring is exactly the outer buffer without the inner one. *)
Lemma ring_exact_later k z before p :
  zs !! S k = Some z → zs !! k = Some before →
  countedIn p (countableRing zs (S k) z)
  = countedIn p (polygon z) && negb (countedIn p (polygon before)).
Proof.
  intros Hz Hb. simpl. rewrite Hb.
  pose proof (difference_exact HT (polygon z) (polygon before)) as Hd.
  destruct (turf_difference (polygon z) (polygon before)) as [| |d].
  - done.
  - exfalso.
    pose proof (zone_radius_pos _ _ Hb) as Hpos.
    assert (Hgrow : (radiusKm before < radiusKm z)%Q).
    { apply (radiiRiseFrom_strict _ _ k (S k) _ _ Hrise Hb Hz). lia. }
    destruct (buffer_grows HT (turf_point (c.2, c.1)) _ _
                (Qlt_le_weak _ _ Hpos) Hgrow) as (q & Hin & Hout).
    rewrite <- (zone_polygon_buffer _ _ Hz) in Hin.
    rewrite <- (zone_polygon_buffer _ _ Hb) in Hout.
    rewrite (Hd q Hin) in Hout. discriminate.
  - unfold countedIn. apply Hd.
Qed.

Lemma ring_membership k z p :
  zs !! k = Some z →
  ringHits false ((fun z => countedIn p (polygon z)) <$> zs) !! k
  = Some (countedIn p (countableRing zs k z)).
Proof.
  intros Hz. rewrite ringHits_lookup, list_lookup_fmap, Hz. simpl.
  destruct k as [|k].
  - simpl. by rewrite andb_true_r.
  - element_before Hz before Hb.
    rewrite list_lookup_fmap, Hb. simpl.
    by rewrite (ring_exact_later _ _ _ _ Hz Hb).
Qed.

Lemma buffers_rising p :
  rising false ((fun z => countedIn p (polygon z)) <$> zs).
Proof.
  apply rising_of_lookup; [done|].
  intros i j bi bj Hij Hi Hj Hbi.
  rewrite list_lookup_fmap in Hi, Hj.
  apply fmap_Some in Hi as (zi & Hi & ->).
  apply fmap_Some in Hj as (zj & Hj & ->).
  by apply (zone_buffers_nested i j zi zj).
Qed.

(** A point is in exactly one ring if it is in the outermost buffer, and
    in none otherwise. *)
Lemma ring_hits_total p outer :
  last zs = Some outer →
  sum_list (imap (fun k z =>
              Nat.b2n (countedIn p (countableRing zs k z))) zs)
  = Nat.b2n (countedIn p (polygon outer)).
Proof.
  intros Hlast.
  pose proof (ringHits_sum false _ (buffers_rising p)) as Hsum.
  rewrite fmap_last, Hlast in Hsum. simpl in Hsum.
  rewrite Nat.add_0_r in Hsum. rewrite <- Hsum. f_equal.
  apply list_eq. intros k.
  rewrite list_lookup_imap, list_lookup_fmap.
  destruct (zs !! k) as [z|] eqn:Hz.
  - by rewrite (ring_membership _ _ _ Hz).
  - simpl. symmetry. rewrite fmap_None. apply lookup_ge_None.
    apply lookup_ge_None in Hz.
    assert (Hlen : ∀ prev bs, length (ringHits prev bs) = length bs).
    { intros prev bs. revert prev.
      induction bs as [|b bs IH]; intros prev; [done|].
      simpl. by rewrite IH. }
    by rewrite Hlen, length_fmap.
Qed.

Lemma ring_counts_total (pts : list LatLng) outer :
  last zs = Some outer →
  sum_list (imap (fun k z =>
              countPointsInPolygon pts (countableRing zs k z)) zs)
  = length (filter (fun p => countedIn p (polygon outer) = true) pts).
Proof.
  intros Hlast. induction pts as [|p pts IH].
  - simpl. apply sum_list_imap_zero.
  - rewrite filter_cons.
    transitivity
      (sum_list (imap (fun k z =>
         (Nat.b2n (countedIn p (countableRing zs k z))
          + countPointsInPolygon pts (countableRing zs k z))%nat) zs)).
    { f_equal. apply imap_ext. intros k z _.
      unfold countPointsInPolygon. rewrite filter_cons.
      fold (countedIn p (countableRing zs k z)).
      destruct (countedIn p (countableRing zs k z)) eqn:E.
      - by rewrite decide_True.
      - by rewrite decide_False. }
    rewrite sum_list_imap_add, IH, (ring_hits_total _ _ Hlast).
    destruct (countedIn p (polygon outer)) eqn:E.
    + by rewrite decide_True.
    + by rewrite decide_False.
Qed.

Lemma ring_within_buffer k z p :
  zs !! k = Some z →
  countedIn p (countableRing zs k z) = true →
  countedIn p (polygon z) = true.
Proof.
  intros Hz. destruct k as [|k]; [done|].
  element_before Hz before Hb.
  rewrite (ring_exact_later _ _ _ _ Hz Hb).
  by intros [? _]%andb_true_iff.
Qed.

Lemma rings_disjoint i j zi zj p :
  (i < j)%nat → zs !! i = Some zi → zs !! j = Some zj →
  countedIn p (countableRing zs i zi) = true →
  countedIn p (countableRing zs j zj) = false.
Proof.
  intros Hij Hi Hj Hin.
  destruct j as [|j]; [lia|].
  element_before Hj before Hb.
  rewrite (ring_exact_later _ _ _ _ Hj Hb).
  apply (ring_within_buffer _ _ _ Hi) in Hin.
  assert (Hle : (i ≤ j)%nat) by lia.
  rewrite (zone_buffers_nested i j zi before p Hle Hi Hb Hin).
  apply andb_false_r.
Qed.

(** The ring of a zone holds the points of its buffer that are in the
    buffer of no zone before it. *)
Lemma ring_first_buffer p k z :
  zs !! k = Some z →
  countedIn p (countableRing zs k z) = true
  ↔ countedIn p (polygon z) = true
    ∧ ∀ j zj, (j < k)%nat → zs !! j = Some zj →
        countedIn p (polygon zj) = false.
Proof.
  intros Hz. split.
  - intros Hin. split; [by apply (ring_within_buffer k)|].
    intros j zj Hjk Hj.
    destruct (countedIn p (polygon zj)) eqn:E; [|done].
    destruct k as [|k]; [lia|].
    element_before Hz before Hb.
    rewrite (ring_exact_later _ _ _ _ Hz Hb) in Hin.
    apply andb_true_iff in Hin as [_ Hout].
    assert (Hle : (j ≤ k)%nat) by lia.
    rewrite (zone_buffers_nested j k zj before p Hle Hj Hb E) in Hout.
    discriminate.
  - intros [Hin Hfirst]. destruct k as [|k]; [done|].
    element_before Hz before Hb.
    rewrite (ring_exact_later _ _ _ _ Hz Hb), Hin.
    rewrite (Hfirst k before); [done | lia | done].
Qed.

(** The centre is in the ring of the first zone and of no other. *)
Lemma centre_only_in_first_ring k ring :
  ringOf zs k = Some ring → countedIn c ring = bool_decide (k = 0%nat).
Proof.
  unfold ringOf. intros Hk. apply fmap_Some in Hk as (z & Hz & ->).
  destruct k as [|k].
  - simpl. by apply (zone_centre_inside 0%nat).
  - element_before Hz before Hb.
    rewrite (ring_exact_later _ _ _ _ Hz Hb).
    rewrite (zone_centre_inside k before Hb).
    by rewrite andb_false_r.
Qed.

End ExactGeometry.

(** ** Per-category counts *)

Section Counting.
Context {Geom : Type} `{T : Turf Geom}.

(** What a call of [analyzeBufferZones] that returns has returned. *)
Lemma analyzeBufferZones_Some c ss layerFeatures config res :
  analyzeBufferZones c ss layerFeatures config = Some res →
  createBufferZones c config = Some (zones res)
  ∧ centerPoint res = c
  ∧ statistics res = calculateStatistics (zones res) ss layerFeatures
  ∧ totalElements res
    = {| tot_schools := length ss;
         tot_hospitals := length (layerOrEmpty layerFeatures hospitals_layer);
         tot_police := length (layerOrEmpty layerFeatures police_layer);
         tot_fireStations :=
           length (layerOrEmpty layerFeatures fire_stations_layer);
         tot_riskZones :=
           length (layerOrEmpty layerFeatures risk_zones_layer) |}.
Proof.
  unfold analyzeBufferZones.
  destruct (createBufferZones c config) as [zs|]; [|done].
  simpl. by intros [= <-].
Qed.

Lemma analyzeBufferZones_returns c ss layerFeatures config zs :
  createBufferZones c config = Some zs →
  ∃ res, analyzeBufferZones c ss layerFeatures config = Some res
    ∧ zones res = zs.
Proof.
  intros Hzs. unfold analyzeBufferZones. rewrite Hzs. simpl.
  by eexists.
Qed.

Lemma countFeatures_as_points (fs : list LayerFeature) (ring : Geom) :
  countFeaturesInPolygon fs ring
  = countPointsInPolygon (lf_coordinates <$> fs) ring.
Proof.
  unfold countFeaturesInPolygon, countPointsInPolygon.
  apply (length_filter_fmap_true lf_coordinates
           (fun p => turf_booleanPointInPolygon (turf_point (p.2, p.1)) ring)).
Qed.

Lemma categoryCount_zoneStats cat z (ring : Geom) schools layerFeatures :
  categoryCount cat (zoneStats z ring schools layerFeatures)
  = countPointsInPolygon (categoryPoints cat schools layerFeatures) ring.
Proof. destruct cat; simpl; by rewrite ?countFeatures_as_points. Qed.

Lemma categoryTotal_analyze cat c schools layerFeatures config res :
  analyzeBufferZones c schools layerFeatures config = Some res →
  categoryTotal cat (totalElements res)
  = length (categoryPoints cat schools layerFeatures).
Proof.
  intros (_ & _ & _ & ->)%analyzeBufferZones_Some.
  destruct cat; simpl; by rewrite length_fmap.
Qed.

Lemma total_is_sum_of_counts z (ring : Geom) ss layerFeatures :
  let st := zoneStats z ring ss layerFeatures in
  total st
  = (schools st + hospitals st + police st + fireStations st
     + riskZones st)%nat.
Proof. reflexivity. Qed.

Lemma category_counts_imap cat zones schools layerFeatures :
  categoryCount cat <$> calculateStatistics zones schools layerFeatures
  = imap (fun k z =>
            countPointsInPolygon
              (categoryPoints cat schools layerFeatures)
              (countableRing zones k z)) zones.
Proof.
  rewrite calculateStatistics_imap. apply list_eq. intros k.
  rewrite list_lookup_fmap, !list_lookup_imap.
  destruct (zones !! k) as [z|]; simpl; [|done].
  by rewrite categoryCount_zoneStats.
Qed.

End Counting.

(** ** Each feature in one ring; counts add up to the outermost buffer *)

Section ExactCounts.
Context {Geom : Type} `{T : Turf Geom} (HT : TurfExact T).

(** C2 (as amended).  With an exact geometry library and zones whose
    radii rise from each zone to the next, the count of every category
    in every zone is the number of the category's points inside that
    zone's ring, and: no point is inside the rings of two zones; the
    zone whose ring holds a point is the first zone, from the centre
    outwards, whose buffer holds it; the centre point itself is in the
    ring of zone 1 and of no other zone. *)
Theorem each_feature_in_at_most_one_ring c cfg schools layerFeatures res :
  analyzeBufferZones c schools layerFeatures (Some cfg) = Some res →
  radiiRise (zones res) →
  (∀ k st, statistics res !! k = Some st →
     ∃ ring, ringOf (zones res) k = Some ring
       ∧ ∀ cat, categoryCount cat st
           = length (filter (fun p => countedIn p ring = true)
                       (categoryPoints cat schools layerFeatures)))
  ∧ (∀ p i j ri rj,
       ringOf (zones res) i = Some ri → ringOf (zones res) j = Some rj →
       countedIn p ri = true → countedIn p rj = true → i = j)
  ∧ (∀ p i zi, zones res !! i = Some zi →
       (countedIn p (countableRing (zones res) i zi) = true
        ↔ countedIn p (polygon zi) = true
          ∧ ∀ j zj, (j < i)%nat → zones res !! j = Some zj →
              countedIn p (polygon zj) = false))
  ∧ (∀ k ring, ringOf (zones res) k = Some ring →
       countedIn c ring = bool_decide (k = 0%nat)).
Proof.
  intros (Hzs & _ & Hst & _)%analyzeBufferZones_Some Hrise.
  set (zs := zones res) in *. rewrite Hst. unfold ringOf.
  split.
  { intros k st Hk.
    apply calculateStatistics_lookup_inv in Hk as (z & Hz & ->).
    exists (countableRing zs k z).
    rewrite Hz. split; [done|]. intros cat.
    by rewrite categoryCount_zoneStats. }
  split.
  { intros p i j ri rj Hi Hj Hpi Hpj.
    apply fmap_Some in Hi as (zi & Hi & ->).
    apply fmap_Some in Hj as (zj & Hj & ->).
    destruct (Nat.lt_trichotomy i j) as [Hlt|[Heq|Hgt]]; [|done|].
    - rewrite (rings_disjoint HT c cfg zs Hzs Hrise i j zi zj p
                 Hlt Hi Hj Hpi) in Hpj.
      discriminate.
    - rewrite (rings_disjoint HT c cfg zs Hzs Hrise j i zj zi p
                 Hgt Hj Hi Hpj) in Hpi.
      discriminate. }
  split.
  { intros p i zi Hi.
    by apply (ring_first_buffer HT c cfg zs Hzs Hrise). }
  intros k ring Hk.
  by apply (centre_only_in_first_ring HT c cfg zs Hzs Hrise).
Qed.

(** C5 (as amended).  With an exact geometry library and zones whose
    radii rise from each zone to the next, for every category the
    per-zone counts summed over all zones equal the number of the
    category's features inside the outermost buffer; this is at most the
    category's overall total, with equality exactly when every feature of
    the category is inside the outermost buffer; and a feature outside
    the outermost buffer is in no ring. *)
Theorem zone_counts_sum_to_features_within_outermost c cfg schools
    layerFeatures cat res outer :
  analyzeBufferZones c schools layerFeatures (Some cfg) = Some res →
  radiiRise (zones res) →
  last (zones res) = Some outer →
  let pts := categoryPoints cat schools layerFeatures in
  let summed := sum_list (categoryCount cat <$> statistics res) in
  categoryTotal cat (totalElements res) = length pts
  ∧ summed
    = length (filter (fun p => countedIn p (polygon outer) = true) pts)
  ∧ (summed ≤ categoryTotal cat (totalElements res))%nat
  ∧ (summed = categoryTotal cat (totalElements res)
     ↔ Forall (fun p => countedIn p (polygon outer) = true) pts)
  ∧ (∀ p k ring, countedIn p (polygon outer) = false →
       ringOf (zones res) k = Some ring → countedIn p ring = false).
Proof.
  intros Hres Hrise Hlast pts summed.
  pose proof (categoryTotal_analyze cat _ _ _ _ _ Hres) as Htot.
  fold pts in Htot.
  apply analyzeBufferZones_Some in Hres as (Hzs & _ & Hst & _).
  set (zs := zones res) in *.
  assert (Hsum : summed
    = length (filter (fun p => countedIn p (polygon outer) = true) pts)).
  { subst summed pts. rewrite Hst, category_counts_imap.
    by apply (ring_counts_total HT c cfg zs Hzs Hrise). }
  split; [exact Htot|]. split; [exact Hsum|].
  split; [rewrite Hsum, Htot; apply length_filter|].
  split; [rewrite Hsum, Htot; apply length_filter_all|].
  intros p k ring Hout Hk. unfold ringOf in Hk.
  apply fmap_Some in Hk as (z & Hz & ->).
  destruct (countedIn p (countableRing zs k z)) eqn:E; [|done].
  apply (ring_within_buffer HT c cfg zs Hzs Hrise _ _ _ Hz) in E.
  rewrite last_lookup in Hlast.
  assert (Hle : (k ≤ pred (length zs))%nat).
  { apply lookup_lt_Some in Hz. lia. }
  rewrite (zone_buffers_nested HT c cfg zs Hzs Hrise k _ z outer p
             Hle Hz Hlast E) in Hout.
  discriminate.
Qed.

End ExactCounts.

(** ** The planar library is exact *)

Lemma planar_disc_contains (p c : Position) (r : Q) :
  planar_contains p (Disc c r) = true
  ↔ (0 <= r)%Q ∧ (dist2 p c <= r * r)%Q.
Proof.
  simpl. rewrite andb_true_iff. by rewrite !Qle_bool_iff.
Qed.

Lemma planar_buffer_contains (p c : Position) (radiusKm : Q) :
  planar_contains p (planar_buffer c radiusKm) = true
  ↔ (0 <= radiusKm)%Q
    ∧ (dist2 p c
       <= radiusKm * (1000 # 111195) * (radiusKm * (1000 # 111195)))%Q.
Proof.
  unfold planar_buffer, Qdiv.
  change (/ kmPerDegree)%Q with (1000 # 111195)%Q.
  rewrite planar_disc_contains. split; intros [H0 Hd]; (split; [lra|done]).
Qed.

Lemma planarTurf_exact : TurfExact planarTurf.
Proof.
  split.
  - intros a b. cbn [turf_difference turf_booleanPointInPolygon planarTurf].
    destruct a as [c r|a1 a2], b as [c' r'|b1 b2]; try (intros p; reflexivity).
    unfold planar_difference.
    destruct (Qeq_bool c.1 c'.1 && Qeq_bool c.2 c'.2 && Qle_bool r r')
      eqn:E; [|intros p; reflexivity].
    apply andb_true_iff in E as [E Hr].
    apply andb_true_iff in E as [E1 E2].
    apply Qeq_bool_iff in E1, E2. apply Qle_bool_iff in Hr.
    intros p. rewrite !planar_disc_contains. intros [H0 Hd].
    split; [lra|].
    assert (Hc : (dist2 p c' == dist2 p c)%Q).
    { unfold dist2. rewrite E1, E2. reflexivity. }
    rewrite Hc. apply Qle_trans with (r * r)%Q; [exact Hd | nra].
  - intros c r1 r2 p Hle.
    cbn [turf_booleanPointInPolygon turf_buffer planarTurf].
    rewrite !planar_buffer_contains.
    intros [H0 Hd]. split; [lra|].
    eapply Qle_trans; [exact Hd|]. nra.
  - intros c r1 r2 H0 Hlt.
    exists ((c.1 + r2 * (1000 # 111195))%Q, c.2).
    cbn [turf_booleanPointInPolygon turf_buffer planarTurf].
    assert (Hd : (dist2 ((c.1 + r2 * (1000 # 111195))%Q, c.2) c
                  == r2 * (1000 # 111195) * (r2 * (1000 # 111195)))%Q).
    { unfold dist2. simpl. ring. }
    split.
    + apply planar_buffer_contains. split; [lra|]. rewrite Hd. lra.
    + destruct (planar_contains _ (planar_buffer c r1)) eqn:E; [|done].
      apply planar_buffer_contains in E as [_ E]. rewrite Hd in E.
      exfalso. nra.
  - intros c r Hr. cbn [turf_booleanPointInPolygon turf_buffer planarTurf].
    apply planar_buffer_contains. split; [lra|].
    assert (Hd : (dist2 c c == 0)%Q) by (unfold dist2; ring).
    rewrite Hd. nra.
Qed.

(** One hospital at the centre, two zones, planar library: the hospital
    is counted in zone 1 only. *)
Lemma each_feature_in_at_most_one_ring_witness :
  let cfg := {| totalRadius := 2; zoneWidth := 1 |} in
  let layers : gmap LayerType (list LayerFeature) :=
    {[ hospitals_layer := [hospitalAt (0, 0)%Q] ]} in
  ∃ res,
    @analyzeBufferZones _ planarTurf (0, 0)%Q [] layers (Some cfg) = Some res
    ∧ radiiRise (zones res)
    ∧ hospitals <$> statistics res = [1; 0]%nat
    ∧ ∀ k ring, @ringOf _ planarTurf (zones res) k = Some ring →
        @countedIn _ planarTurf (0, 0)%Q ring = bool_decide (k = 0%nat).
Proof.
  intros cfg layers.
  destruct (@analyzeBufferZones _ planarTurf (0, 0)%Q [] layers (Some cfg))
    as [res|] eqn:Hres; [|vm_compute in Hres; discriminate].
  assert (Hrise : radiiRise (zones res)).
  { vm_compute in Hres. injection Hres as <-. repeat split. }
  exists res. split; [reflexivity|]. split; [exact Hrise|].
  split; [vm_compute in Hres; by injection Hres as <-|].
  exact (proj2 (proj2 (proj2
    (@each_feature_in_at_most_one_ring _ planarTurf planarTurf_exact
       (0, 0)%Q cfg [] layers res Hres Hrise)))).
Defined.

(** C2, counterexample.  A total radius of 4.2 and a zone width of 0.6
    give eight zones of which the last two have the same radius; the
    difference of their buffers is [null], the eighth zone is counted
    against its whole buffer, and one hospital at the centre is counted
    in zone 1 and again in zone 8, with a geometry library that is
    exact. *)
Lemma centre_feature_counted_in_two_zones :
  let cfg := {| totalRadius := double (42 # 10);
                zoneWidth := double (6 # 10) |} in
  let layers : gmap LayerType (list LayerFeature) :=
    {[ hospitals_layer := [hospitalAt (0, 0)%Q] ]} in
  validConfig cfg
  ∧ ∃ res,
      @analyzeBufferZones _ planarTurf (0, 0)%Q [] layers (Some cfg)
      = Some res
      ∧ zoneId <$> statistics res = [1; 2; 3; 4; 5; 6; 7; 8]
      ∧ hospitals <$> statistics res = [1; 0; 0; 0; 0; 0; 0; 1]%nat
      ∧ ¬ (∀ i j si sj, statistics res !! i = Some si →
             statistics res !! j = Some sj →
             (0 < hospitals si)%nat → (0 < hospitals sj)%nat → i = j).
Proof.
  intros cfg layers. split; [split; reflexivity|].
  destruct (@analyzeBufferZones _ planarTurf (0, 0)%Q [] layers (Some cfg))
    as [res|] eqn:Hres; [|vm_compute in Hres; discriminate].
  exists res. split; [reflexivity|].
  vm_compute in Hres. injection Hres as <-.
  split; [reflexivity|]. split; [reflexivity|].
  intros H.
  assert (E : 0%nat = 7%nat); [|discriminate E].
  eapply H; [reflexivity | reflexivity | |]; vm_compute; lia.
Qed.

(** One police station half a kilometre from the centre and one three
    degrees away: the zone counts sum to 1, below the category total of
    2. *)
Lemma zone_counts_sum_to_features_within_outermost_witness :
  let cfg := {| totalRadius := 2; zoneWidth := 1 |} in
  let layers : gmap LayerType (list LayerFeature) :=
    {[ police_layer := [hospitalAt (0, 45 # 10000)%Q;
                        hospitalAt (3, 0)%Q] ]} in
  ∃ res outer,
    @analyzeBufferZones _ planarTurf (0, 0)%Q [] layers (Some cfg) = Some res
    ∧ radiiRise (zones res)
    ∧ last (zones res) = Some outer
    ∧ police <$> statistics res = [1; 0]%nat
    ∧ tot_police (totalElements res) = 2%nat
    ∧ sum_list (police <$> statistics res)
      = length (filter
          (fun p => @countedIn _ planarTurf p (polygon outer) = true)
          [(0, 45 # 10000)%Q; (3, 0)%Q]).
Proof.
  intros cfg layers.
  destruct (@analyzeBufferZones _ planarTurf (0, 0)%Q [] layers (Some cfg))
    as [res|] eqn:Hres; [|vm_compute in Hres; discriminate].
  destruct (last (zones res)) as [outer|] eqn:Hlast;
    [|vm_compute in Hres; injection Hres as <-; discriminate].
  assert (Hrise : radiiRise (zones res)).
  { vm_compute in Hres. injection Hres as <-. repeat split. }
  exists res, outer. split; [reflexivity|]. split; [exact Hrise|].
  split; [exact Hlast|].
  split; [vm_compute in Hres; by injection Hres as <-|].
  split; [vm_compute in Hres; by injection Hres as <-|].
  exact (proj1 (proj2
    (@zone_counts_sum_to_features_within_outermost _ planarTurf
       planarTurf_exact (0, 0)%Q cfg [] layers CatPolice res outer
       Hres Hrise Hlast))).
Defined.

(** C5, counterexample.  With a total radius of 4.2 and a zone width of
    0.6 and a geometry library that is exact, a single police station
    at the centre is counted in zone 1 and in zone 8: the zone counts
    sum to 2, above the category total of 1. *)
Lemma zone_counts_exceed_category_total :
  let cfg := {| totalRadius := double (42 # 10);
                zoneWidth := double (6 # 10) |} in
  let layers : gmap LayerType (list LayerFeature) :=
    {[ police_layer := [hospitalAt (0, 0)%Q] ]} in
  validConfig cfg
  ∧ ∃ res,
      @analyzeBufferZones _ planarTurf (0, 0)%Q [] layers (Some cfg)
      = Some res
      ∧ police <$> statistics res = [1; 0; 0; 0; 0; 0; 0; 1]%nat
      ∧ tot_police (totalElements res) = 1%nat
      ∧ ¬ (sum_list (police <$> statistics res)
           ≤ tot_police (totalElements res))%nat.
Proof.
  intros cfg layers. split; [split; reflexivity|].
  destruct (@analyzeBufferZones _ planarTurf (0, 0)%Q [] layers (Some cfg))
    as [res|] eqn:Hres; [|vm_compute in Hres; discriminate].
  exists res. split; [reflexivity|].
  vm_compute in Hres. injection Hres as <-.
  split; [reflexivity|]. split; [reflexivity|].
  vm_compute. lia.
Qed.

(** ** Schools without vertices *)

Section MissingGeometry.
Context {Geom : Type} `{T : Turf Geom}.

Lemma countPoints_insert (l1 l2 : list LatLng) (p : LatLng) (ring : Geom) :
  countPointsInPolygon (l1 ++ p :: l2) ring
  = (countPointsInPolygon (l1 ++ l2) ring
     + Nat.b2n (countedIn p ring))%nat.
Proof.
  unfold countPointsInPolygon.
  rewrite !filter_app, filter_cons, !length_app.
  fold (countedIn p ring).
  destruct (countedIn p ring) eqn:E.
  - rewrite decide_True by done. simpl. lia.
  - rewrite decide_False by done. simpl. lia.
Qed.

Lemma getSchoolCenter_no_vertices (s : School) :
  coordinates (school_polygon s) = [] → getSchoolCenter s = (0%Q, 0%Q).
Proof. intros H. unfold getSchoolCenter. by rewrite H. Qed.

(** C8 (as amended).  A school whose polygon has no vertices is given the
    representative point [(0, 0)] and is tested like any other school: it
    adds one to the school count of exactly those zones whose ring
    contains [(0, 0)], and nothing elsewhere.  The overall totals are the
    lengths of the input collections, whatever the zones contain. *)
Theorem school_without_vertices_tested_at_origin c before s after
    layerFeatures config res :
  coordinates (school_polygon s) = [] →
  analyzeBufferZones c (before ++ s :: after) layerFeatures config
  = Some res →
  ∃ res',
    analyzeBufferZones c (before ++ after) layerFeatures config = Some res'
    ∧ tot_schools (totalElements res) = S (length before + length after)
    ∧ (∀ cat, categoryTotal cat (totalElements res)
              = length (categoryPoints cat (before ++ s :: after)
                          layerFeatures))
    ∧ zones res = zones res'
    ∧ ∀ k st, statistics res !! k = Some st →
        ∃ st' ring, statistics res' !! k = Some st'
          ∧ ringOf (zones res) k = Some ring
          ∧ schools st
            = (schools st' + Nat.b2n (countedIn (0%Q, 0%Q) ring))%nat.
Proof.
  intros Hs Hres.
  pose proof (λ cat, categoryTotal_analyze cat _ _ _ _ _ Hres) as Htot.
  apply analyzeBufferZones_Some in Hres as (Hzs & _ & Hst & Hte).
  set (zs := zones res) in *.
  destruct (analyzeBufferZones_returns c (before ++ after) layerFeatures
              config zs Hzs) as (res' & Hres' & Hzs').
  exists res'. split; [exact Hres'|].
  apply analyzeBufferZones_Some in Hres' as (_ & _ & Hst' & _).
  split; [rewrite Hte; simpl; rewrite length_app; simpl; lia|].
  split; [exact Htot|].
  split; [by rewrite Hzs'|].
  rewrite Hst, Hst', Hzs'. intros k st Hk.
  apply calculateStatistics_lookup_inv in Hk as (z & Hz & ->).
  eexists _, (countableRing zs k z).
  split; [by apply calculateStatistics_lookup|].
  split; [unfold ringOf; by rewrite Hz|].
  simpl. rewrite !fmap_app, fmap_cons, countPoints_insert.
  by rewrite (getSchoolCenter_no_vertices s Hs).
Qed.

End MissingGeometry.

(** A school without vertices, analysed around a centre far from
    [(0, 0)]: it is in no zone, and is still counted in the total. *)
Lemma school_without_vertices_tested_at_origin_witness :
  coordinates (school_polygon schoolWithoutVertices) = []
  ∧ ∃ res,
      @analyzeBufferZones _ planarTurf (-31, -64)%Q
        [schoolWithoutVertices] ∅ None = Some res
      ∧ schools <$> statistics res = [0; 0; 0; 0; 0]%nat
      ∧ tot_schools (totalElements res) = 1%nat.
Proof.
  split; [reflexivity|].
  destruct (@analyzeBufferZones _ planarTurf (-31, -64)%Q
              [schoolWithoutVertices] ∅ None)
    as [res|] eqn:Hres; [|vm_compute in Hres; discriminate].
  exists res. split; [reflexivity|].
  destruct (@school_without_vertices_tested_at_origin _ planarTurf
              (-31, -64)%Q [] schoolWithoutVertices [] ∅ None res
              eq_refl Hres) as (_ & _ & Htot & _).
  split; [vm_compute in Hres; by injection Hres as <-|].
  exact Htot.
Defined.

(** C8, counterexample.  Analysed around [(0, 0)], the school without
    vertices is counted in zone 1. *)
Lemma school_without_vertices_counted_in_zone :
  coordinates (school_polygon schoolWithoutVertices) = []
  ∧ ∃ res,
      @analyzeBufferZones _ planarTurf (0, 0)%Q
        [schoolWithoutVertices] ∅ None = Some res
      ∧ schools <$> statistics res = [1; 0; 0; 0; 0]%nat
      ∧ ¬ (∀ st, st ∈ statistics res → schools st = 0%nat).
Proof.
  split; [reflexivity|].
  destruct (@analyzeBufferZones _ planarTurf (0, 0)%Q
              [schoolWithoutVertices] ∅ None)
    as [res|] eqn:Hres; [|vm_compute in Hres; discriminate].
  exists res. split; [reflexivity|].
  vm_compute in Hres. injection Hres as <-.
  split; [reflexivity|].
  intros H.
  assert (E : 1%nat = 0%nat); [|discriminate E].
  eapply (H (mkBufferZoneStats 1 _ _ 1 _ _ _ _ _)).
  apply list_elem_of_lookup. exists 0%nat. reflexivity.
Qed.

(** ** The merge of the two school collections *)

Section Merge.
Context `{R : JsRuntime}.

Lemma mergeSchools_unfold oficiales osmSchools :
  mergeSchools oficiales osmSchools
  = (enrich osmSchools <$> oficiales)
    ++ filter (fun o =>
         normalizeSchoolName (name o)
         ∉ ((fun p => normalizeSchoolName (name p)) <$> oficiales))
       osmSchools.
Proof.
  unfold mergeSchools. f_equal. apply list_filter_iff.
  intros o. by rewrite elem_of_list_to_set.
Qed.

Lemma mergeSchools_one_one p s :
  mergeSchools [p] [s]
  = enrich [s] p
    :: (if decide (normalizeSchoolName (name s)
                   = normalizeSchoolName (name p))
        then [] else [s]).
Proof.
  rewrite mergeSchools_unfold. simpl. f_equal.
  rewrite filter_cons, filter_nil.
  destruct (decide (normalizeSchoolName (name s)
                    = normalizeSchoolName (name p))) as [E|E].
  - rewrite decide_False; [done|]. rewrite E. intros H. apply H.
    apply list_elem_of_singleton. done.
  - rewrite decide_True; [done|].
    intros H%list_elem_of_singleton. done.
Qed.

(** What [enrich] returns: the official record itself, or the official
    record with the polygon of the matched OSM record and the source tag
    [hybrid]. *)
Lemma enrich_cases osmSchools p :
  (enrich osmSchools p = p
   ∧ ∀ m, findNearestOSM p osmSchools = Some m →
          ¬ (5 < length (coordinates (school_polygon m)))%nat)
  ∨ (∃ m, findNearestOSM p osmSchools = Some m
        ∧ (5 < length (coordinates (school_polygon m)))%nat
        ∧ enrich osmSchools p
          = {| school_id := school_id p; name := name p;
               address := address p; contactInfo := contactInfo p;
               school_polygon := school_polygon m;
               detected := detected p; school_color := school_color p;
               additionalData :=
                 Some (withHybridSource (additionalData p)) |}).
Proof.
  unfold enrich. destruct (findNearestOSM p osmSchools) as [m|].
  - destruct (decide (5 < length (coordinates (school_polygon m)))%nat)
      as [H|H].
    + right. exists m. done.
    + left. split; [done|]. by intros ? [= <-].
  - left. split; [done|]. by intros ? [=].
Qed.

Lemma findNearestOSM_loop_first centre (ss : list School) m :
  findNearestOSM_loop centre ss = Some m →
  ∃ k, ss !! k = Some m
    ∧ withinMaxDistance
        (calculateDistance centre
           (getCenter (coordinates (school_polygon m)))) = true
    ∧ ∀ j o, (j < k)%nat → ss !! j = Some o →
        withinMaxDistance
          (calculateDistance centre
             (getCenter (coordinates (school_polygon o)))) = false.
Proof.
  induction ss as [|o ss IH]; [done|]. cbn [findNearestOSM_loop].
  destruct (withinMaxDistance
              (calculateDistance centre
                 (getCenter (coordinates (school_polygon o))))) eqn:E.
  - intros [= <-]. exists 0%nat. split; [done|]. split; [exact E|].
    intros j ? Hj. lia.
  - intros H. destruct (IH H) as (k & Hk & Hin & Hbefore).
    exists (S k). split; [done|]. split; [exact Hin|].
    intros [|j] o' Hj Ho'.
    + injection Ho' as <-. exact E.
    + apply (Hbefore j); [lia | done].
Qed.

End Merge.

Section MergeClaims.
Context `{R : JsRuntime}.

Lemma within_threshold cp cs d :
  apart cp cs d → (d < maxDistance)%Q →
  withinMaxDistance (calculateDistance (Some cp) (Some cs)) = true.
Proof.
  intros [Hd Heq] Hlt. simpl. apply Qlt_bool_iff.
  unfold dist2 in Heq. rewrite Heq. unfold maxDistance in *. nra.
Qed.

Lemma findNearestOSM_single_close p s cp cs d :
  getCenter (coordinates (school_polygon p)) = Some cp →
  getCenter (coordinates (school_polygon s)) = Some cs →
  apart cp cs d → (d < maxDistance)%Q →
  findNearestOSM p [s] = Some s.
Proof.
  intros Hp Hs Hd Hlt. unfold findNearestOSM.
  cbn [findNearestOSM_loop]. rewrite Hp, Hs.
  by rewrite (within_threshold cp cs d Hd Hlt).
Qed.

(** C4 (as amended).  One official and one OSM school whose centroids
    are 0.001 degrees apart, the OSM polygon having six vertices: the
    first record of the merge is the official record carrying the OSM
    polygon and the source tag [hybrid].  It is the only record when the
    two normalized names are equal; otherwise the OSM school follows it
    as a second record. *)
Theorem close_pair_merges_to_hybrid p s cp cs :
  getCenter (coordinates (school_polygon p)) = Some cp →
  getCenter (coordinates (school_polygon s)) = Some cs →
  apart cp cs (1 # 1000) →
  length (coordinates (school_polygon s)) = 6%nat →
  ∃ r, mergeSchools [p] [s] !! 0%nat = Some r
    ∧ school_polygon r = school_polygon s
    ∧ dataField source r = Some src_hybrid
    ∧ school_id r = school_id p ∧ name r = name p
    ∧ (normalizeSchoolName (name s) = normalizeSchoolName (name p) →
       mergeSchools [p] [s] = [r])
    ∧ (normalizeSchoolName (name s) ≠ normalizeSchoolName (name p) →
       mergeSchools [p] [s] = [r; s]).
Proof.
  intros Hp Hs Hd Hlen.
  assert (Hm : findNearestOSM p [s] = Some s).
  { apply (findNearestOSM_single_close p s cp cs (1 # 1000)); try done. }
  rewrite mergeSchools_one_one.
  exists (enrich [s] p). split; [done|].
  unfold enrich. rewrite Hm, Hlen. rewrite decide_True by lia.
  repeat split; try done.
  - intros E. by rewrite decide_True.
  - intros E. by rewrite decide_False.
Qed.

(** C6.  The merge is the official records, each passed through the
    geometry enrichment, in their order, followed by exactly the OSM
    records whose normalized name is the normalized name of no official
    record, in their order.  So an OSM record that shares its normalized
    name with an official record is not appended, however far away it
    is, and an OSM record with an unseen name is appended even when an
    official record has taken its polygon. *)
Theorem merge_primary_then_unseen_secondary oficiales osmSchools :
  let out := mergeSchools oficiales osmSchools in
  let seen := (fun p => normalizeSchoolName (name p)) <$> oficiales in
  ∃ additional,
    out = (enrich osmSchools <$> oficiales) ++ additional
    ∧ (∀ i p, oficiales !! i = Some p →
         out !! i = Some (enrich osmSchools p))
    ∧ drop (length oficiales) out = additional
    ∧ additional
      = filter (fun o => normalizeSchoolName (name o) ∉ seen) osmSchools
    ∧ additional `sublist_of` osmSchools
    ∧ (∀ o, o ∈ additional
          ↔ o ∈ osmSchools ∧ normalizeSchoolName (name o) ∉ seen)
    ∧ (∀ o p, p ∈ oficiales →
         normalizeSchoolName (name o) = normalizeSchoolName (name p) →
         o ∉ additional)
    ∧ (∀ o p, o ∈ osmSchools → normalizeSchoolName (name o) ∉ seen →
         findNearestOSM p osmSchools = Some o → o ∈ additional)
    ∧ (∀ p s, oficiales = [p] → osmSchools = [s] →
         normalizeSchoolName (name s) = normalizeSchoolName (name p) →
         length out = 1%nat).
Proof.
  intros out seen. subst out.
  assert (Hone : ∀ p s, oficiales = [p] → osmSchools = [s] →
            normalizeSchoolName (name s) = normalizeSchoolName (name p) →
            length (mergeSchools oficiales osmSchools) = 1%nat).
  { intros p s -> -> E. rewrite mergeSchools_one_one.
    by rewrite decide_True. }
  revert Hone. rewrite mergeSchools_unfold. fold seen. intros Hone.
  eexists. split; [reflexivity|].
  split.
  { intros i p Hi. rewrite lookup_app_l.
    - by rewrite list_lookup_fmap, Hi.
    - rewrite length_fmap. by apply lookup_lt_Some in Hi. }
  split.
  { rewrite drop_app_length'; [done|]. by rewrite length_fmap. }
  split; [done|].
  split; [apply sublist_filter|].
  split.
  { intros o. rewrite list_elem_of_filter. tauto. }
  split.
  { intros o p Hp E [Hunseen _]%list_elem_of_filter. apply Hunseen.
    rewrite E. subst seen. apply list_elem_of_fmap. by exists p. }
  split.
  { intros o p Ho Hunseen _. by apply list_elem_of_filter. }
  exact Hone.
Qed.

(** C10.  The record at position [i] of the merge agrees with the
    official record at position [i] on the id, the name, the address,
    the contact information, the detected flag, the colour, and every
    field of the additional data other than the source.  It is that
    official record unchanged unless the proximity search found an OSM
    record whose polygon has more than five coordinates; in that case
    its polygon is that record's polygon and its source is [hybrid]. *)
Theorem merge_keeps_primary_fields oficiales osmSchools i p :
  oficiales !! i = Some p →
  ∃ r, mergeSchools oficiales osmSchools !! i = Some r
    ∧ school_id r = school_id p ∧ name r = name p
    ∧ address r = address p ∧ contactInfo r = contactInfo p
    ∧ detected r = detected p ∧ school_color r = school_color p
    ∧ dataField nivel r = dataField nivel p
    ∧ dataField sector r = dataField sector p
    ∧ dataField ambito r = dataField ambito p
    ∧ dataField alumnos r = dataField alumnos p
    ∧ dataField estado r = dataField estado p
    ∧ dataField cue r = dataField cue p
    ∧ (r = p
       ∨ ∃ m, findNearestOSM p osmSchools = Some m
           ∧ (5 < length (coordinates (school_polygon m)))%nat
           ∧ school_polygon r = school_polygon m
           ∧ dataField source r = Some src_hybrid)
    ∧ ((∀ m, findNearestOSM p osmSchools = Some m →
             ¬ (5 < length (coordinates (school_polygon m)))%nat) →
       r = p).
Proof.
  intros Hi. exists (enrich osmSchools p).
  split.
  { rewrite mergeSchools_unfold, lookup_app_l.
    - by rewrite list_lookup_fmap, Hi.
    - rewrite length_fmap. by apply lookup_lt_Some in Hi. }
  destruct (enrich_cases osmSchools p) as [[-> Hno]|(m & Hm & Hlen & ->)].
  - repeat split; try done. by left.
  - unfold dataField. simpl.
    repeat split; try (by destruct (additionalData p)).
    + right. exists m. done.
    + intros Hno. destruct (Hno m Hm Hlen).
Qed.

End MergeClaims.

(** The official "Escuela Manuel Belgrano" and the OSM outline of the
    same name 0.001 degrees away: one hybrid record. *)
Lemma close_pair_merges_to_hybrid_witness :
  ∃ r, @mergeSchools asciiRuntime [oficialBelgrano] [osmBelgrano] = [r]
    ∧ school_id r = js "idecor-1"
    ∧ school_polygon r = school_polygon osmBelgrano
    ∧ dataField source r = Some src_hybrid.
Proof.
  destruct (@close_pair_merges_to_hybrid asciiRuntime
              oficialBelgrano osmBelgrano _ _ eq_refl eq_refl)
    as (r & _ & Hpoly & Hsrc & Hid & _ & Hsame & _).
  - split; [vm_compute; discriminate | vm_compute; reflexivity].
  - reflexivity.
  - exists r. split; [apply Hsame; reflexivity|].
    split; [exact Hid|]. split; [exact Hpoly | exact Hsrc].
Defined.

(** C4, counterexample.  The same pair of polygons under two different
    names: centroids 0.001 degrees apart, six vertices, and the merge has
    two records, the hybrid one and the OSM school itself. *)
Lemma close_pair_with_different_names_gives_two_records :
  ∃ cp cs,
    getCenter (coordinates (school_polygon oficialBelgrano)) = Some cp
    ∧ getCenter (coordinates (school_polygon osmSarmiento)) = Some cs
    ∧ apart cp cs (1 # 1000)
    ∧ length (coordinates (school_polygon osmSarmiento)) = 6%nat
    ∧ school_id <$> @mergeSchools asciiRuntime [oficialBelgrano] [osmSarmiento]
      = [js "idecor-1"; js "osm-2"]
    ∧ length (@mergeSchools asciiRuntime [oficialBelgrano] [osmSarmiento])
      ≠ 1%nat.
Proof.
  eexists _, _. split; [reflexivity|]. split; [reflexivity|].
  split; [split; [vm_compute; discriminate | vm_compute; reflexivity]|].
  split; [reflexivity|]. split; [reflexivity|].
  vm_compute. discriminate.
Qed.

(** One official school and one far-away OSM school with the same
    normalized name give one record; with the close OSM school of another
    name they give two, the first carrying the OSM polygon. *)
Lemma merge_primary_then_unseen_secondary_witness :
  @normalizeSchoolName asciiRuntime (name osmBelgranoFar)
  = @normalizeSchoolName asciiRuntime (name oficialBelgrano)
  ∧ @findNearestOSM oficialBelgrano [osmBelgranoFar] = None
  ∧ length (@mergeSchools asciiRuntime [oficialBelgrano] [osmBelgranoFar])
    = 1%nat
  ∧ @findNearestOSM oficialBelgrano [osmSarmiento] = Some osmSarmiento
  ∧ drop 1 (@mergeSchools asciiRuntime [oficialBelgrano] [osmSarmiento])
    = [osmSarmiento].
Proof.
  split; [reflexivity|]. split; [reflexivity|].
  split.
  { destruct (@merge_primary_then_unseen_secondary asciiRuntime
                [oficialBelgrano] [osmBelgranoFar])
      as (_ & _ & _ & _ & _ & _ & _ & _ & _ & Hone).
    apply (Hone oficialBelgrano osmBelgranoFar eq_refl eq_refl).
    reflexivity. }
  split; [reflexivity|].
  destruct (@merge_primary_then_unseen_secondary asciiRuntime
              [oficialBelgrano] [osmSarmiento])
    as (additional & _ & _ & Hdrop & Hfilter & _).
  transitivity additional; [exact Hdrop | rewrite Hfilter; reflexivity].
Defined.

Lemma merge_keeps_primary_fields_witness :
  ∃ r, @mergeSchools asciiRuntime [oficialBelgrano] [osmSarmiento] !! 0%nat
       = Some r
    ∧ name r = name oficialBelgrano
    ∧ school_polygon r = school_polygon osmSarmiento.
Proof.
  destruct (@merge_keeps_primary_fields asciiRuntime
              [oficialBelgrano] [osmSarmiento] 0%nat oficialBelgrano eq_refl)
    as (r & Hr & _ & Hname & _ & _ & _ & _ & _ & _ & _ & _ & _ & _
        & Hcases & _).
  exists r. split; [exact Hr|]. split; [exact Hname|].
  destruct Hcases as [->|(m & Hm & _ & -> & _)].
  - vm_compute in Hr. discriminate Hr.
  - vm_compute in Hm. injection Hm as <-. reflexivity.
Defined.

(** ** The operations as methods: what a call leaves behind *)

Section Methods.
Context {Geom : Type} `{T : Turf Geom} `{R : JsRuntime}.

Lemma forEach_push {S A B : Type} (f : A → B) (items : list A)
    (array : list B) (s : S) :
  ServiceObjects.forEach items (fun i => ServiceObjects.push (f i))
    (array, s)
  = (tt, (array ++ (f <$> items), s)).
Proof.
  revert array. induction items as [|i items IH]; intros array.
  - simpl. by rewrite app_nil_r.
  - cbn [ServiceObjects.forEach]. unfold ServiceObjects.bind.
    unfold ServiceObjects.push at 1. cbn [fst snd].
    rewrite IH. by rewrite <- app_assoc.
Qed.

(** The method returns what the function of its arguments returns for
    the configuration [config || this.defaultConfig], and writes no
    field. *)
Lemma createBufferZones_run (this : ServiceObjects.Fields) c config :
  ServiceObjects.createBufferZones c config this
  = (createBufferZones c
       (Some (default (ServiceObjects.field_defaultConfig this) config)),
     this).
Proof.
  unfold ServiceObjects.createBufferZones, createBufferZones.
  unfold ServiceObjects.bind, ServiceObjects.get.
  set (cfg := default (ServiceObjects.field_defaultConfig this) config).
  change (default defaultConfig (Some cfg)) with cfg.
  destruct (Qeq_bool (zoneWidth cfg) 0); [reflexivity|].
  destruct (decide _); [|reflexivity].
  unfold ServiceObjects.withLocal, ServiceObjects.bind.
  by rewrite forEach_push.
Qed.

(** The callback depends on the calls made before it: it reads the
    polygons they have pushed. *)
Lemma statisticsCallback_run ss layerFeatures (zone : BufferZone Geom)
    (prev : list Geom) (this : ServiceObjects.Fields) :
  ServiceObjects.statisticsCallback ss layerFeatures zone (prev, this)
  = (zoneStats zone (createRingPolygon (polygon zone) prev) ss
       layerFeatures,
     (prev ++ [polygon zone], this)).
Proof. reflexivity. Qed.

Lemma mapArray_statisticsCallback ss layerFeatures
    (zones : list (BufferZone Geom)) (prev : list Geom)
    (this : ServiceObjects.Fields) :
  ServiceObjects.mapArray
    (ServiceObjects.statisticsCallback ss layerFeatures) zones
    (prev, this)
  = (calculateStatistics_from prev zones ss layerFeatures,
     (prev ++ (polygon <$> zones), this)).
Proof.
  revert prev. induction zones as [|zone zones IH]; intros prev.
  - simpl. by rewrite app_nil_r.
  - cbn [ServiceObjects.mapArray calculateStatistics_from].
    unfold ServiceObjects.bind at 1. rewrite statisticsCallback_run.
    unfold ServiceObjects.bind at 1. rewrite IH.
    unfold ServiceObjects.ret. by rewrite <- app_assoc.
Qed.

(** The array [prevZonePolygons] is made anew by every call, so nothing
    of it is left when the call returns. *)
Lemma calculateStatistics_run (this : ServiceObjects.Fields)
    (zones : list (BufferZone Geom)) ss layerFeatures :
  ServiceObjects.calculateStatistics zones ss layerFeatures this
  = (calculateStatistics zones ss layerFeatures, this).
Proof.
  unfold ServiceObjects.calculateStatistics, ServiceObjects.withLocal.
  by rewrite mapArray_statisticsCallback.
Qed.

Lemma analyzeBufferZones_run (this : ServiceObjects.Fields) c ss
    layerFeatures config :
  ServiceObjects.analyzeBufferZones c ss layerFeatures config this
  = (analyzeBufferZones c ss layerFeatures
       (Some (default (ServiceObjects.field_defaultConfig this) config)),
     this).
Proof.
  unfold ServiceObjects.analyzeBufferZones, analyzeBufferZones.
  unfold ServiceObjects.bind at 1. rewrite createBufferZones_run.
  destruct (createBufferZones c _) as [zones|]; [|reflexivity].
  unfold ServiceObjects.bind. by rewrite calculateStatistics_run.
Qed.

Lemma mergeSchools_run (this : ServiceObjects.Fields) oficiales
    osmSchools :
  ServiceObjects.mergeSchools oficiales osmSchools this
  = (mergeSchools oficiales osmSchools, this).
Proof. reflexivity. Qed.

(** C9.  Each of the three operations, called twice in a row on the same
    arguments, returns the same result twice: whatever the fields of the
    service hold, a call leaves them as it found them, the local arrays
    it fills are its own, and its result is a function of its arguments
    and of [defaultConfig].  On a service as it is constructed the
    results are those of the functions [mergeSchools],
    [createBufferZones] and [analyzeBufferZones]. *)
Theorem operations_are_deterministic (this : ServiceObjects.Fields)
    oficiales osmSchools c ss layerFeatures config :
  let merge :=
    ServiceObjects.twice
      (ServiceObjects.mergeSchools oficiales osmSchools) this in
  let build :=
    ServiceObjects.twice (ServiceObjects.createBufferZones c config) this in
  let aggregate :=
    ServiceObjects.twice
      (ServiceObjects.analyzeBufferZones c ss layerFeatures config) this in
  (merge.1.1 = merge.2.1 ∧ merge.1.2 = this ∧ merge.2.2 = this)
  ∧ (build.1.1 = build.2.1 ∧ build.1.2 = this ∧ build.2.2 = this)
  ∧ (aggregate.1.1 = aggregate.2.1 ∧ aggregate.1.2 = this
     ∧ aggregate.2.2 = this)
  ∧ (this = ServiceObjects.newFields →
     merge.1.1 = mergeSchools oficiales osmSchools
     ∧ build.1.1 = createBufferZones c config
     ∧ aggregate.1.1 = analyzeBufferZones c ss layerFeatures config).
Proof.
  intros merge build aggregate. subst merge build aggregate.
  unfold ServiceObjects.twice. cbv zeta.
  rewrite !mergeSchools_run, !createBufferZones_run,
    !analyzeBufferZones_run.
  cbn [fst snd].
  split; [done|]. split; [done|]. split; [done|].
  intros ->. done.
Qed.

End Methods.

(** The callback of [calculateStatistics] by itself is no function of
    its argument: the second zone of the default analysis, with a
    hospital at the centre, counts the hospital when no zone has been
    visited before it and does not count it after the first zone. *)
Lemma statisticsCallback_depends_on_history :
  ∃ zs z1 z2,
    @createBufferZones _ planarTurf (0, 0)%Q None = Some zs
    ∧ zs !! 0%nat = Some z1 ∧ zs !! 1%nat = Some z2
    ∧ hospitals
        (@ServiceObjects.statisticsCallback _ planarTurf []
           {[ hospitals_layer := [hospitalAt (0, 0)%Q] ]} z2
           ([], ServiceObjects.newFields)).1 = 1%nat
    ∧ hospitals
        (@ServiceObjects.statisticsCallback _ planarTurf []
           {[ hospitals_layer := [hospitalAt (0, 0)%Q] ]} z2
           ([polygon z1], ServiceObjects.newFields)).1 = 0%nat.
Proof.
  eexists _, _, _. split; [vm_compute; reflexivity|].
  split; [reflexivity|]. split; [reflexivity|].
  split; vm_compute; reflexivity.
Qed.

(** * Further properties *)

(** ** Shape of the zones *)

(** The doubles of the opacity formula. *)
Lemma opacity_constants :
  (0 < double (2 # 10))%Q
  ∧ (double (2 # 10) < double (35 # 100))%Q
  ∧ (round64 (double (2 # 10)) == double (2 # 10))%Q
  ∧ (round64 (double (35 # 100)) == double (35 # 100))%Q
  ∧ (round64 1 == 1)%Q.
Proof. repeat split; vm_compute; reflexivity. Qed.

Lemma div64_ratio_bounds (i n : Z) :
  0 < i → i <= n →
  (0 <= div64 (inject_Z i) (inject_Z n))%Q
  ∧ (div64 (inject_Z i) (inject_Z n) <= 1)%Q.
Proof.
  intros Hi Hin. destruct (ratio_bounds i n Hi Hin) as [H0 H1].
  destruct opacity_constants as (_ & _ & _ & _ & Hone).
  unfold div64. split.
  - apply round64_nonneg. by apply Qlt_le_weak.
  - apply Qle_trans with (round64 1); [|rewrite Hone; apply Qle_refl].
    apply round64_mono; [by apply Qlt_le_weak | exact H1].
Qed.

Lemma div64_ratio_mono (i j n : Z) :
  0 < i → i <= j → 0 < n →
  (div64 (inject_Z i) (inject_Z n) <= div64 (inject_Z j) (inject_Z n))%Q.
Proof.
  intros Hi Hij Hn. unfold div64. apply round64_mono.
  - apply Qle_shift_div_l; [apply inject_Z_pos, Hn|]. rewrite Qmult_0_l.
    apply Qlt_le_weak, inject_Z_pos, Hi.
  - by apply ratio_mono.
Qed.

Lemma div64_ratio_one (n : Z) :
  0 < n → (div64 (inject_Z n) (inject_Z n) == 1)%Q.
Proof.
  intros Hn. destruct opacity_constants as (_ & _ & _ & _ & Hone).
  unfold div64. transitivity (round64 1); [|exact Hone].
  apply round64_eq; [|by apply ratio_one].
  rewrite (ratio_one n Hn). discriminate.
Qed.

(** [ratio * 0.2] on doubles, for a ratio between 0 and 1. *)
Lemma scaled_ratio_bounds (r : Q) :
  (0 <= r)%Q → (r <= 1)%Q →
  (0 <= mul64 r (double (2 # 10)))%Q
  ∧ (mul64 r (double (2 # 10)) <= double (2 # 10))%Q.
Proof.
  intros H0 H1. destruct opacity_constants as (Hc & _ & Hid & _).
  unfold mul64. set (c02 := double (2 # 10)) in *. clearbody c02. split.
  - apply round64_nonneg. nra.
  - apply Qle_trans with (round64 c02); [|rewrite Hid; apply Qle_refl].
    apply round64_mono; nra.
Qed.

Lemma scaled_ratio_mono (r r' : Q) :
  (0 <= r)%Q → (r <= r')%Q →
  (mul64 r (double (2 # 10)) <= mul64 r' (double (2 # 10)))%Q.
Proof.
  intros H0 Hle. destruct opacity_constants as (Hc & _).
  unfold mul64. set (c02 := double (2 # 10)) in *. clearbody c02.
  apply round64_mono; nra.
Qed.

Lemma getFillOpacity_antitone (i j n : Z) :
  0 < i → i <= j → j <= n →
  (getFillOpacity j n <= getFillOpacity i n)%Q.
Proof.
  intros Hi Hij Hjn. unfold getFillOpacity, sub64.
  destruct (div64_ratio_bounds i n Hi ltac:(lia)) as [Hi0 Hi1].
  destruct (div64_ratio_bounds j n ltac:(lia) Hjn) as [Hj0 Hj1].
  pose proof (div64_ratio_mono i j n Hi Hij ltac:(lia)) as Hr.
  pose proof (scaled_ratio_mono _ _ Hi0 Hr) as Hp.
  destruct (scaled_ratio_bounds _ Hj0 Hj1) as [_ Hpj].
  destruct opacity_constants as (_ & Hlt & _).
  set (pi := mul64 (div64 (inject_Z i) (inject_Z n)) (double (2 # 10))) in *.
  set (pj := mul64 (div64 (inject_Z j) (inject_Z n)) (double (2 # 10))) in *.
  set (c02 := double (2 # 10)) in *. set (c35 := double (35 # 100)) in *.
  clearbody pi pj c02 c35. apply round64_mono; lra.
Qed.

Lemma getFillOpacity_range (i n : Z) :
  0 < i → i <= n →
  (lowestOpacity <= getFillOpacity i n)%Q
  ∧ (getFillOpacity i n <= double (35 # 100))%Q.
Proof.
  intros Hi Hin. unfold getFillOpacity, lowestOpacity, sub64.
  destruct (div64_ratio_bounds i n Hi Hin) as [H0 H1].
  destruct (scaled_ratio_bounds _ H0 H1) as [Hp0 Hp1].
  destruct opacity_constants as (_ & Hlt & _ & Hid & _).
  set (p := mul64 (div64 (inject_Z i) (inject_Z n)) (double (2 # 10))) in *.
  set (c02 := double (2 # 10)) in *. set (c35 := double (35 # 100)) in *.
  clearbody p c02 c35. split.
  - apply round64_mono; lra.
  - apply Qle_trans with (round64 c35); [|rewrite Hid; apply Qle_refl].
    apply round64_mono; lra.
Qed.

Lemma getFillOpacity_last (n : Z) :
  0 < n → (getFillOpacity n n == lowestOpacity)%Q.
Proof.
  intros Hn. unfold getFillOpacity, lowestOpacity, sub64.
  pose proof (div64_ratio_one n Hn) as Hr.
  destruct opacity_constants as (Hc & Hlt & Hid & _).
  assert (Hp : (mul64 (div64 (inject_Z n) (inject_Z n)) (double (2 # 10))
                == double (2 # 10))%Q).
  { unfold mul64. transitivity (round64 (double (2 # 10))); [|exact Hid].
    set (r := div64 (inject_Z n) (inject_Z n)) in *.
    set (c02 := double (2 # 10)) in *. clearbody r c02.
    apply round64_eq; [nra|]. rewrite Hr. ring. }
  set (p := mul64 (div64 (inject_Z n) (inject_Z n)) (double (2 # 10))) in *.
  set (c02 := double (2 # 10)) in *. set (c35 := double (35 # 100)) in *.
  clearbody p c02 c35. apply round64_eq; lra.
Qed.

Section ZoneShape.
Context {Geom : Type} `{T : Turf Geom}.

(** X1.  The fill opacity of the zones never rises from the centre
    outwards and stays between the doubles 0.14999999999999997 and 0.35.
    The outermost zone has the opacity 0.14999999999999997, the double
    just below the 0.15 of exact arithmetic. *)
Theorem fill_opacity_fades_outwards c cfg zs i j zi zj :
  createBufferZones c (Some cfg) = Some zs →
  zs !! i = Some zi → zs !! j = Some zj → (i ≤ j)%nat →
  (fillOpacity zj <= fillOpacity zi)%Q
  ∧ (lowestOpacity <= fillOpacity zj)%Q
  ∧ (fillOpacity zi <= double (35 # 100))%Q
  ∧ (last zs = Some zj → (fillOpacity zj == lowestOpacity)%Q)
  ∧ (lowestOpacity == 2702159776422297 # 18014398509481984)%Q
  ∧ (lowestOpacity < 15 # 100)%Q.
Proof.
  intros Hzs Hi Hj Hij.
  assert (Hlast : last zs = Some zj → Z.of_nat (S j) = zoneCount cfg).
  { intros Hl. apply (createBufferZones_last _ _ _ _ Hzs) in Hl.
    apply (createBufferZones_lookup _ _ _ _ _ Hzs) in Hj as [_ Hj].
    rewrite Hl in Hj. apply (f_equal id) in Hj. cbn [id zoneAt] in Hj.
    lia. }
  apply (createBufferZones_lookup _ _ _ _ _ Hzs) in Hi as [Hin ->].
  apply (createBufferZones_lookup _ _ _ _ _ Hzs) in Hj as [Hjn ->].
  cbn [fillOpacity zoneAt].
  split; [apply getFillOpacity_antitone; lia|].
  split; [refine (proj1 (getFillOpacity_range _ _ _ _)); lia|].
  split; [refine (proj2 (getFillOpacity_range _ _ _ _)); lia|].
  split.
  - intros Hl. rewrite (Hlast Hl). apply getFillOpacity_last. lia.
  - split; vm_compute; reflexivity.
Qed.

Lemma calculateRiskLevel_antitone (i j n : Z) :
  0 < i → 0 < n → i <= j →
  (riskRank (calculateRiskLevel j n) ≤ riskRank (calculateRiskLevel i n))%nat.
Proof.
  intros Hi Hn Hij.
  pose proof (div64_ratio_mono i j n Hi Hij Hn) as Hle.
  unfold calculateRiskLevel.
  set (ri := div64 (inject_Z i) (inject_Z n)) in *.
  set (rj := div64 (inject_Z j) (inject_Z n)) in *.
  set (d06 := double (6 # 10)). set (d08 := double (8 # 10)).
  clearbody ri rj d06 d08.
  destruct (Qle_bool ri d06) eqn:Ei6; destruct (Qle_bool ri d08) eqn:Ei8;
    destruct (Qle_bool rj d06) eqn:Ej6; destruct (Qle_bool rj d08) eqn:Ej8;
    simpl; try lia;
    try apply Qle_bool_iff in Ei6; try apply Qle_bool_iff in Ei8;
    try apply Qle_bool_iff in Ej6; try apply Qle_bool_iff in Ej8;
    try apply Qle_bool_false_iff in Ei6;
    try apply Qle_bool_false_iff in Ei8;
    try apply Qle_bool_false_iff in Ej6;
    try apply Qle_bool_false_iff in Ej8;
    exfalso; lra.
Qed.

(** X2.  The risk level never rises from the centre outwards; the
    outermost zone is always low risk, so a single zone is low risk; and
    with two zones or more the innermost zone is high risk. *)
Theorem risk_falls_outwards c cfg zs i j zi zj :
  createBufferZones c (Some cfg) = Some zs →
  zs !! i = Some zi → zs !! j = Some zj → (i ≤ j)%nat →
  (riskRank (riskLevel zj) ≤ riskRank (riskLevel zi))%nat
  ∧ (last zs = Some zj → riskLevel zj = Low)
  ∧ (i = 0%nat → (2 ≤ length zs)%nat → riskLevel zi = High).
Proof.
  intros Hzs Hi Hj Hij.
  pose proof (createBufferZones_length c cfg zs Hzs) as Hlen.
  destruct (createBufferZones_Some c cfg zs Hzs) as [Hmax _].
  apply (createBufferZones_lookup _ _ _ _ _ Hzs) in Hi as [Hin ->].
  split; [|split].
  - apply (createBufferZones_lookup _ _ _ _ _ Hzs) in Hj as [Hjn ->].
    cbn [riskLevel zoneAt]. apply calculateRiskLevel_antitone; lia.
  - intros Hl. apply (createBufferZones_last _ _ _ _ Hzs) in Hl as ->.
    cbn [riskLevel zoneAt].
    assert (Hn : 0 < zoneCount cfg) by lia.
    apply calculateRiskLevel_cases; [lia | lia | exact Hmax |].
    rewrite (ratio_one _ Hn). reflexivity.
  - intros -> H2. cbn [riskLevel zoneAt].
    assert (Hn : 2 <= zoneCount cfg) by lia.
    apply calculateRiskLevel_cases; [lia | lia | exact Hmax |].
    apply Qle_shift_div_r; [apply inject_Z_pos; lia|].
    apply Qle_trans with ((6 # 10) * inject_Z 2)%Q; [by vm_compute|].
    apply Qmult_le_l; [reflexivity|]. by rewrite <- Zle_Qle.
Qed.

(** X3.  When [createBufferZones] returns, it returns
    [Math.ceil(totalRadius / zoneWidth)] zones, the quotient being that
    of doubles; the zone at position [i] (from 1) has the id [i] and the
    radius [Math.min(i * zoneWidth, totalRadius)], the product being
    that of doubles.  With a zone width that is not negative the radii
    never fall from one zone to the next; no radius is above the total
    radius; and the last radius is the total radius exactly when the
    rounded product of the zone count and the zone width reaches it. *)
Theorem zone_radii_rounded_and_clamped c cfg zs :
  (0 <= zoneWidth cfg)%Q →
  createBufferZones c (Some cfg) = Some zs →
  let t := totalRadius cfg in
  let w := zoneWidth cfg in
  length zs = Z.to_nat (Qceiling (div64 t w))
  ∧ (∀ k z, zs !! k = Some z →
       id z = Z.of_nat (S k)
       ∧ radiusKm z = Qmin (mul64 (inject_Z (Z.of_nat (S k))) w) t)
  ∧ (∀ i j zi zj, zs !! i = Some zi → zs !! j = Some zj → (i ≤ j)%nat →
       (radiusKm zi <= radiusKm zj)%Q)
  ∧ (∀ z, z ∈ zs → (radiusKm z <= t)%Q)
  ∧ (∀ z, last zs = Some z →
       ((radiusKm z == t)%Q
        ↔ (t <= mul64 (inject_Z (Qceiling (div64 t w))) w)%Q)).
Proof.
  intros Hw Hzs t w. subst t w. fold (zoneCount cfg).
  split; [by apply (createBufferZones_length c)|].
  split.
  { intros k z Hk.
    apply (createBufferZones_lookup _ _ _ _ _ Hzs) in Hk as [_ ->].
    by split. }
  split.
  { intros i j zi zj Hi Hj Hij. by apply (zone_radius_mono c cfg zs i j). }
  split.
  { intros z Hz. apply list_elem_of_lookup in Hz as [k Hk].
    apply (createBufferZones_lookup _ _ _ _ _ Hzs) in Hk as [_ ->].
    apply zone_radius_le_total. }
  intros z Hz. apply (createBufferZones_last _ _ _ _ Hzs) in Hz as ->.
  cbn [radiusKm zoneAt].
  set (x := mul64 (inject_Z (zoneCount cfg)) (zoneWidth cfg)).
  split.
  - intros E. rewrite <- E. apply Q.le_min_l.
  - intros Hle. apply Q.min_r. exact Hle.
Qed.

(** X4.  With a positive zone width and a total radius that is zero or
    negative the loop never runs: there are no zones and no statistics,
    while the overall totals still count the input collections. *)
Theorem no_zones_without_radius c cfg ss layerFeatures :
  (0 < zoneWidth cfg)%Q → (totalRadius cfg <= 0)%Q →
  ∃ res, analyzeBufferZones c ss layerFeatures (Some cfg) = Some res
    ∧ zones res = [] ∧ statistics res = []
    ∧ tot_schools (totalElements res) = length ss.
Proof.
  intros Hw Ht.
  assert (Hn : zoneCount cfg <= 0).
  { apply Z.le_trans with (Qceiling (inject_Z 0));
      [|rewrite Qceiling_Z; lia].
    apply Qceiling_resp_le. apply round64_nonpos.
    apply Qle_shift_div_r; [exact Hw|]. by rewrite Qmult_0_l. }
  assert (Hzs : createBufferZones c (Some cfg) = Some []).
  { rewrite createBufferZones_returns.
    - by rewrite seqZ_nil.
    - intros E. rewrite E in Hw. apply (Qlt_irrefl 0 Hw).
    - unfold maxArrayLength. lia. }
  unfold analyzeBufferZones. rewrite Hzs. simpl. by eexists.
Qed.

End ZoneShape.

(** ** The statistics records *)

Section StatisticsRecords.
Context {Geom : Type} `{T : Turf Geom}.

(** X5.  The statistics of an analysis that returns come one per zone,
    in the order of the zones; each record repeats the id, the radius and
    the risk level of its zone, and its [total] is the sum of its five
    category counts. *)
Theorem statistics_mirror_zones c ss layerFeatures config res :
  analyzeBufferZones c ss layerFeatures config = Some res →
  length (statistics res) = length (zones res)
  ∧ ∀ k st, statistics res !! k = Some st →
      ∃ z, zones res !! k = Some z
        ∧ zoneId st = id z
        ∧ stat_radiusKm st = radiusKm z
        ∧ stat_riskLevel st = riskLevel z
        ∧ total st
          = (schools st + hospitals st + police st + fireStations st
             + riskZones st)%nat.
Proof.
  intros (_ & _ & -> & _)%analyzeBufferZones_Some.
  split; [apply calculateStatistics_from_length|].
  intros k st Hst.
  apply calculateStatistics_lookup_inv in Hst as (z & Hz & ->).
  exists z. done.
Qed.

(** X6.  Whatever the geometry library does, no zone counts more
    features of a category than the category has in all: every per-zone
    count is at most the category's overall total. *)
Theorem zone_count_at_most_category_total c ss layerFeatures config cat
    res st :
  analyzeBufferZones c ss layerFeatures config = Some res →
  st ∈ statistics res →
  (categoryCount cat st ≤ categoryTotal cat (totalElements res))%nat.
Proof.
  intros Hres Hst.
  rewrite (categoryTotal_analyze _ _ _ _ _ _ Hres).
  apply analyzeBufferZones_Some in Hres as (_ & _ & Hstats & _).
  rewrite Hstats in Hst.
  apply list_elem_of_lookup in Hst as [k Hst].
  apply calculateStatistics_lookup_inv in Hst as (z & Hz & ->).
  rewrite categoryCount_zoneStats. apply length_filter.
Qed.

Lemma zoneStats_layers_ext z (ring : Geom) ss l1 l2 :
  layerOrEmpty l1 hospitals_layer = layerOrEmpty l2 hospitals_layer →
  layerOrEmpty l1 police_layer = layerOrEmpty l2 police_layer →
  layerOrEmpty l1 fire_stations_layer
  = layerOrEmpty l2 fire_stations_layer →
  layerOrEmpty l1 risk_zones_layer = layerOrEmpty l2 risk_zones_layer →
  zoneStats z ring ss l1 = zoneStats z ring ss l2.
Proof. intros H1 H2 H3 H4. unfold zoneStats. by rewrite H1, H2, H3, H4. Qed.

Lemma analyzeBufferZones_layers_ext c ss l1 l2 config :
  layerOrEmpty l1 hospitals_layer = layerOrEmpty l2 hospitals_layer →
  layerOrEmpty l1 police_layer = layerOrEmpty l2 police_layer →
  layerOrEmpty l1 fire_stations_layer
  = layerOrEmpty l2 fire_stations_layer →
  layerOrEmpty l1 risk_zones_layer = layerOrEmpty l2 risk_zones_layer →
  analyzeBufferZones c ss l1 config = analyzeBufferZones c ss l2 config.
Proof.
  intros H1 H2 H3 H4. unfold analyzeBufferZones.
  destruct (createBufferZones c config) as [zs|]; [|done].
  cbn [mbind option_bind]. rewrite H1, H2, H3, H4. do 2 f_equal.
  rewrite !calculateStatistics_imap. apply imap_ext.
  intros k z _. by apply zoneStats_layers_ext.
Qed.

(** X7.  The analysis reads four keys of the layer map only (hospitals,
    police, fire stations, risk zones): setting or removing any other
    key, the key [schools] included, changes nothing; and a counted
    layer that is missing from the map gives the same result as that
    layer present with no features. *)
Theorem analysis_reads_four_layers c ss layerFeatures config t fs :
  (t ≠ hospitals_layer → t ≠ police_layer → t ≠ fire_stations_layer →
   t ≠ risk_zones_layer →
   analyzeBufferZones c ss (<[t := fs]> layerFeatures) config
   = analyzeBufferZones c ss layerFeatures config
   ∧ analyzeBufferZones c ss (delete t layerFeatures) config
     = analyzeBufferZones c ss layerFeatures config)
  ∧ analyzeBufferZones c ss (<[t := []]> layerFeatures) config
    = analyzeBufferZones c ss (delete t layerFeatures) config.
Proof.
  split.
  - intros Hh Hp Hf Hr. split.
    + apply analyzeBufferZones_layers_ext; unfold layerOrEmpty;
        by rewrite lookup_insert_ne.
    + apply analyzeBufferZones_layers_ext; unfold layerOrEmpty;
        by rewrite lookup_delete_ne.
  - apply analyzeBufferZones_layers_ext; unfold layerOrEmpty;
      match goal with
      | |- context [<[t := _]> _ !! ?t'] =>
          destruct (decide (t = t')) as [->|Hne];
          [by rewrite lookup_insert_eq, lookup_delete_eq
          |by rewrite lookup_insert_ne, lookup_delete_ne]
      end.
Qed.

(** X8.  Counting is additive in the schools: for the schools of two
    lists put together, every zone counts the sum of what it counts for
    each list alone; the analyses of the two lists return whenever the
    analysis of both together does. *)
Theorem school_counts_add_up c ss1 ss2 layerFeatures config res k st :
  analyzeBufferZones c (ss1 ++ ss2) layerFeatures config = Some res →
  statistics res !! k = Some st →
  ∃ res1 res2 st1 st2,
    analyzeBufferZones c ss1 layerFeatures config = Some res1
    ∧ analyzeBufferZones c ss2 layerFeatures config = Some res2
    ∧ statistics res1 !! k = Some st1
    ∧ statistics res2 !! k = Some st2
    ∧ schools st = (schools st1 + schools st2)%nat
    ∧ hospitals st = hospitals st1 ∧ hospitals st = hospitals st2.
Proof.
  intros (Hzs & _ & -> & _)%analyzeBufferZones_Some Hst.
  destruct (analyzeBufferZones_returns c ss1 layerFeatures config _ Hzs)
    as (res1 & Hres1 & Hz1).
  destruct (analyzeBufferZones_returns c ss2 layerFeatures config _ Hzs)
    as (res2 & Hres2 & Hz2).
  apply calculateStatistics_lookup_inv in Hst as (z & Hz & ->).
  exists res1, res2. eexists _, _.
  split; [exact Hres1|]. split; [exact Hres2|].
  apply analyzeBufferZones_Some in Hres1 as (_ & _ & -> & _).
  apply analyzeBufferZones_Some in Hres2 as (_ & _ & -> & _).
  rewrite Hz1, Hz2.
  split; [by apply calculateStatistics_lookup|].
  split; [by apply calculateStatistics_lookup|].
  cbn [schools hospitals zoneStats]. unfold countPointsInPolygon.
  by rewrite fmap_app, filter_app, length_app.
Qed.

End StatisticsRecords.

(** ** When the difference always fails *)

Lemma length_filter_mono {A : Type} (f g : A → bool) (l : list A) :
  (∀ x, f x = true → g x = true) →
  (length (filter (fun x => f x = true) l)
   ≤ length (filter (fun x => g x = true) l))%nat.
Proof.
  intros Hfg. induction l as [|x l IH]; [done|].
  rewrite !filter_cons. destruct (f x) eqn:E.
  - rewrite (Hfg x E). rewrite !decide_True by done. simpl. lia.
  - rewrite (decide_False (P := false = true)) by done.
    destruct (decide (g x = true)); simpl; lia.
Qed.

Section FailingDifference.
Context {Geom : Type} `{T : Turf Geom}.
Context (Hfail : ∀ a b d, turf_difference a b ≠ DiffFeature d).
Context (Hnest : ∀ c r1 r2 p, (r1 <= r2)%Q →
  turf_booleanPointInPolygon p (turf_buffer c r1) = true →
  turf_booleanPointInPolygon p (turf_buffer c r2) = true).

Lemma failing_ring_is_buffer (zones : list (BufferZone Geom)) k z :
  countableRing zones k z = polygon z.
Proof.
  destruct k as [|k]; [done|]. simpl.
  destruct (zones !! k) as [before|]; [|done].
  destruct (turf_difference (polygon z) (polygon before)) as [| |d] eqn:E;
    [done | done |].
  destruct (Hfail _ _ _ E).
Qed.

(** X9.  If the difference never yields a feature (it throws or is
    [null] every time) and buffers are nested, every zone is counted
    against its whole buffer: its count of a category is the number of
    the category's features inside the buffer, and the counts never
    decrease from one zone to the next one out. *)
Theorem failing_difference_counts_whole_buffers c cfg ss layerFeatures cat
    res i j sti stj :
  (0 < zoneWidth cfg)%Q →
  analyzeBufferZones c ss layerFeatures (Some cfg) = Some res →
  statistics res !! i = Some sti → statistics res !! j = Some stj →
  (i ≤ j)%nat →
  (∃ zi, zones res !! i = Some zi
     ∧ categoryCount cat sti
       = length (filter (fun p => countedIn p (polygon zi) = true)
                   (categoryPoints cat ss layerFeatures)))
  ∧ (categoryCount cat sti ≤ categoryCount cat stj)%nat.
Proof.
  intros Hw (Hzs & _ & -> & _)%analyzeBufferZones_Some Hi Hj Hij.
  apply calculateStatistics_lookup_inv in Hi as (zi & Hzi & ->).
  apply calculateStatistics_lookup_inv in Hj as (zj & Hzj & ->).
  rewrite !categoryCount_zoneStats, !failing_ring_is_buffer.
  split; [by exists zi|].
  apply (length_filter_mono
           (fun p => countedIn p (polygon zi))
           (fun p => countedIn p (polygon zj))).
  intros p. unfold countedIn.
  pose proof (zone_radius_mono c cfg _ i j zi zj (Qlt_le_weak _ _ Hw)
                Hzs Hzi Hzj Hij) as Hr.
  apply (createBufferZones_lookup _ _ _ _ _ Hzs) in Hzi as [_ ->].
  apply (createBufferZones_lookup _ _ _ _ _ Hzs) in Hzj as [_ ->].
  cbn [polygon zoneAt] in *. apply Hnest. exact Hr.
Qed.

End FailingDifference.
(** ** Looking a point up in the zones *)

Section ZoneLookup.
Context {Geom : Type} `{T : Turf Geom}.
Import ZoneQueries.

Lemma insertByRadius_perm (z : BufferZone Geom) l :
  insertByRadius z l ≡ₚ z :: l.
Proof.
  induction l as [|y l IH]; [done|]. simpl.
  destruct (Qle_bool (radiusKm z) (radiusKm y)); [done|].
  rewrite IH. apply Permutation_swap.
Qed.

Lemma sortByRadius_perm (l : list (BufferZone Geom)) : sortByRadius l ≡ₚ l.
Proof.
  induction l as [|z l IH]; [done|]. simpl.
  by rewrite insertByRadius_perm, IH.
Qed.

Lemma insertByRadius_sorted (z : BufferZone Geom) l :
  radiusSorted l → radiusSorted (insertByRadius z l).
Proof.
  induction l as [|y l IH]; simpl; [done|]. intros [Hy Hl].
  destruct (Qle_bool (radiusKm z) (radiusKm y)) eqn:E.
  - apply Qle_bool_iff in E. simpl. split; [|done].
    constructor; [exact E|].
    eapply Forall_impl; [exact Hy|]. intros x Hx. simpl in *.
    by apply Qle_trans with (radiusKm y).
  - apply Qle_bool_false_iff in E. simpl. split; [|by apply IH].
    rewrite insertByRadius_perm. constructor; [|exact Hy].
    by apply Qlt_le_weak.
Qed.

Lemma sortByRadius_sorted (l : list (BufferZone Geom)) :
  radiusSorted (sortByRadius l).
Proof.
  induction l as [|z l IH]; simpl; [done|].
  by apply insertByRadius_sorted.
Qed.

Lemma radiusSorted_app_r (l1 l2 : list (BufferZone Geom)) :
  radiusSorted (l1 ++ l2) → radiusSorted l2.
Proof.
  induction l1 as [|y l1 IH]; simpl; [done|]. intros [_ H]. by apply IH.
Qed.

Lemma getZoneForPoint_loop_Some p (l : list (BufferZone Geom)) z :
  getZoneForPoint_loop p l = Some z →
  ∃ l1 l2, l = l1 ++ z :: l2 ∧ isPointInZone p z = true
    ∧ Forall (fun y => isPointInZone p y = false) l1.
Proof.
  induction l as [|y l IH]; [done|]. simpl.
  destruct (isPointInZone p y) eqn:E.
  - intros [= <-]. by exists [], l.
  - intros H. destruct (IH H) as (l1 & l2 & -> & Hz & Hl1).
    exists (y :: l1), l2. split; [done|]. split; [done|].
    by constructor.
Qed.

Lemma getZoneForPoint_loop_None p (l : list (BufferZone Geom)) :
  getZoneForPoint_loop p l = None
  ↔ Forall (fun y => isPointInZone p y = false) l.
Proof.
  induction l as [|y l IH]; simpl; [by split|].
  rewrite Forall_cons. destruct (isPointInZone p y); [|by rewrite IH; tauto].
  split; [done | by intros [? _]].
Qed.

Lemma getZoneForPoint_loop_first p (l : list (BufferZone Geom)) k z :
  l !! k = Some z → isPointInZone p z = true →
  (∀ j y, (j < k)%nat → l !! j = Some y → isPointInZone p y = false) →
  getZoneForPoint_loop p l = Some z.
Proof.
  revert k. induction l as [|y l IH]; intros k Hk Hz Hbefore; [done|].
  destruct k as [|k]; simpl in *.
  - injection Hk as ->. by rewrite Hz.
  - rewrite (Hbefore 0%nat y); [|lia|done].
    apply (IH k Hk Hz). intros j y' Hj Hy'.
    apply (Hbefore (S j)); [lia | done].
Qed.

(** X10.  [getZoneForPoint] answers [null] exactly when no zone contains
    the point; otherwise it answers a zone of the list that contains the
    point and whose radius is the smallest among the zones that contain
    it, whatever the order in which the zones are given. *)
Theorem getZoneForPoint_smallest_containing p
    (zones : list (BufferZone Geom)) :
  (getZoneForPoint p zones = None
   ↔ ∀ z, z ∈ zones → isPointInZone p z = false)
  ∧ ∀ z, getZoneForPoint p zones = Some z →
      z ∈ zones ∧ isPointInZone p z = true
      ∧ ∀ z', z' ∈ zones → isPointInZone p z' = true →
          (radiusKm z <= radiusKm z')%Q.
Proof.
  unfold getZoneForPoint. split.
  - rewrite getZoneForPoint_loop_None, Forall_forall.
    by setoid_rewrite (sortByRadius_perm zones).
  - intros z Hz.
    pose proof (sortByRadius_sorted zones) as Hsorted.
    apply getZoneForPoint_loop_Some in Hz as (l1 & l2 & Hl & Hin & Hl1).
    rewrite Hl in Hsorted.
    assert (Hmem : ∀ x, x ∈ zones ↔ x ∈ l1 ++ z :: l2).
    { intros x. by rewrite <- Hl, (sortByRadius_perm zones). }
    split.
    { apply Hmem, elem_of_app. right. apply elem_of_cons. by left. }
    split; [exact Hin|].
    intros z' Hz' Hin'. apply Hmem in Hz'.
    apply elem_of_app in Hz' as [Hz'|Hz'].
    + rewrite Forall_forall in Hl1. rewrite (Hl1 z' Hz') in Hin'. done.
    + apply radiusSorted_app_r in Hsorted as [Hall _].
      apply elem_of_cons in Hz' as [->|Hz']; [apply Qle_refl|].
      rewrite Forall_forall in Hall. by apply Hall.
Qed.

Lemma sortByRadius_sorted_id (l : list (BufferZone Geom)) :
  (∀ i j zi zj, (i ≤ j)%nat → l !! i = Some zi → l !! j = Some zj →
                (radiusKm zi <= radiusKm zj)%Q) →
  sortByRadius l = l.
Proof.
  induction l as [|a l IH]; intros Hmono; [done|]. simpl.
  rewrite IH.
  - destruct l as [|b l]; [done|]. simpl.
    assert (Hab : (radiusKm a <= radiusKm b)%Q).
    { apply (Hmono 0%nat 1%nat); [lia | done | done]. }
    apply Qle_bool_iff in Hab. by rewrite Hab.
  - intros i j zi zj Hij Hi Hj.
    apply (Hmono (S i) (S j)); [lia | done | done].
Qed.

End ZoneLookup.

Section ZoneLookupExact.
Context {Geom : Type} `{T : Turf Geom} (HT : TurfExact T).
Import ZoneQueries.

Lemma rising_zones_sorted (zs : list (BufferZone Geom)) :
  radiiRise zs → sortByRadius zs = zs.
Proof.
  intros Hrise. apply sortByRadius_sorted_id. intros i j zi zj Hij Hi Hj.
  destruct (decide (i = j)) as [->|Hne].
  - rewrite Hi in Hj. injection Hj as <-. apply Qle_refl.
  - apply Qlt_le_weak.
    apply (radiiRiseFrom_strict _ _ i j _ _ Hrise Hi Hj). lia.
Qed.

(** X11.  For the zones of an analysis whose radii rise strictly, and
    an exact geometry library, [getZoneForPoint] and the aggregator
    agree: the zone it answers for a point is the one zone whose ring
    holds the point, and it answers [null] exactly for the points
    outside the outermost buffer. *)
Theorem getZoneForPoint_is_the_counting_zone c cfg zs p :
  createBufferZones c (Some cfg) = Some zs →
  radiiRise zs →
  (∀ z, getZoneForPoint p zs = Some z
        ↔ ∃ k, zs !! k = Some z
            ∧ countedIn p (countableRing zs k z) = true)
  ∧ (∀ outer, last zs = Some outer →
       getZoneForPoint p zs = None
       ↔ countedIn p (polygon outer) = false).
Proof.
  intros Hzs Hrise.
  unfold getZoneForPoint. rewrite (rising_zones_sorted zs Hrise). split.
  - intros z. split.
    + intros H.
      apply getZoneForPoint_loop_Some in H as (l1 & l2 & Hl & Hin & Hl1).
      exists (length l1).
      assert (Hk : zs !! length l1 = Some z).
      { rewrite Hl. by rewrite list_lookup_middle. }
      split; [exact Hk|].
      apply (ring_first_buffer HT c cfg zs Hzs Hrise p _ _ Hk).
      split; [exact Hin|].
      intros j zj Hj Hzj. rewrite Hl, lookup_app_l in Hzj by done.
      rewrite Forall_forall in Hl1. apply (Hl1 zj).
      by apply list_elem_of_lookup_2 in Hzj.
    + intros (k & Hk & Hin).
      apply (ring_first_buffer HT c cfg zs Hzs Hrise p _ _ Hk)
        in Hin as [Hin Hfirst].
      by apply (getZoneForPoint_loop_first p zs k z).
  - intros outer Hlast.
    rewrite getZoneForPoint_loop_None, Forall_forall.
    rewrite last_lookup in Hlast.
    split.
    + intros Hall. apply (Hall outer).
      by apply list_elem_of_lookup_2 in Hlast.
    + intros Hout z Hz.
      apply list_elem_of_lookup in Hz as [k Hk].
      destruct (isPointInZone p z) eqn:E; [|done].
      assert (Hle : (k ≤ pred (length zs))%nat).
      { apply lookup_lt_Some in Hk. lia. }
      unfold isPointInZone in E. fold (countedIn p (polygon z)) in E.
      rewrite (zone_buffers_nested HT c cfg zs Hzs Hrise k _ z outer p
                 Hle Hk Hlast E) in Hout.
      discriminate.
Qed.

End ZoneLookupExact.
(** ** The statistics panel *)

Section Panel.
Context {Geom : Type} `{T : Turf Geom}.
Import StatisticsPanel.

Lemma foldl_total_sum (l : list BufferZoneStats) (acc : nat) :
  foldl (fun sum s => (sum + total s)%nat) acc l
  = (acc + sum_list (total <$> l))%nat.
Proof.
  revert acc. induction l as [|s l IH]; intros acc; simpl; [lia|].
  rewrite IH. unfold fmap. lia.
Qed.

Lemma sum_list_fmap_add {A : Type} (f g : A → nat) (l : list A) :
  sum_list ((fun x => (f x + g x)%nat) <$> l)
  = (sum_list (f <$> l) + sum_list (g <$> l))%nat.
Proof.
  induction l as [|x l IH]; simpl; [done|]. unfold fmap in *. lia.
Qed.

Lemma total_sum_by_category (l : list BufferZoneStats) :
  Forall (fun st => total st
            = (schools st + hospitals st + police st + fireStations st
               + riskZones st)%nat) l →
  sum_list (total <$> l)
  = sum_list ((fun cat => sum_list (categoryCount cat <$> l))
                <$> allCategories).
Proof.
  induction 1 as [|st l Hst _ IH]; [done|].
  unfold allCategories in *. simpl in *. unfold fmap in *. lia.
Qed.
(** X12.  The zone ranges shown by the panel follow one another through
    the analysed distance: the range of the first zone starts at 0, the
    range of every other zone starts where the range before it ends, no
    range ends before it starts, and no range ends beyond the total
    radius. *)
Theorem zone_ranges_tile_the_radius c ss layerFeatures cfg res k st :
  validConfig cfg →
  analyzeBufferZones c ss layerFeatures (Some cfg) = Some res →
  statistics res !! k = Some st →
  ∃ lo hi, getZoneRange (Some res) st k = Some (lo, hi)
    ∧ hi = stat_radiusKm st
    ∧ (lo <= hi)%Q
    ∧ (hi <= totalRadius cfg)%Q
    ∧ (k = 0%nat → lo = 0%Q)
    ∧ (∀ k' before l' h', k = S k' →
         statistics res !! k' = Some before →
         getZoneRange (Some res) before k' = Some (l', h') → lo = h').
Proof.
  intros [Ht Hw] (Hzs & _ & Hstats & _)%analyzeBufferZones_Some Hst.
  rewrite Hstats in Hst. assert (Hst' := Hst).
  apply calculateStatistics_lookup_inv in Hst' as (z & Hz & ->).
  assert (Htot : (radiusKm z <= totalRadius cfg)%Q).
  { apply (createBufferZones_lookup _ _ _ _ _ Hzs) in Hz as [_ ->].
    apply zone_radius_le_total. }
  destruct k as [|k].
  - exists 0%Q, (radiusKm z). cbn [getZoneRange stat_radiusKm zoneStats].
    split; [done|]. split; [done|].
    split.
    { apply (createBufferZones_lookup _ _ _ _ _ Hzs) in Hz as [_ ->].
      cbn [radiusKm zoneAt]. apply Q.min_glb; [|by apply Qlt_le_weak].
      apply round64_nonneg. apply Qmult_le_0_compat; [done|].
      by apply Qlt_le_weak. }
    split; [exact Htot|]. split; [done | intros; lia].
  - element_before Hz before Hb.
    exists (radiusKm before), (radiusKm z).
    cbn [getZoneRange mbind option_bind]. rewrite Hstats.
    rewrite (calculateStatistics_lookup _ _ _ _ _ Hb).
    cbn [mbind option_bind stat_radiusKm zoneStats].
    split; [done|]. split; [done|].
    split.
    { apply (zone_radius_mono c cfg _ k (S k) before z
               (Qlt_le_weak _ _ Hw) Hzs Hb Hz). lia. }
    split; [exact Htot|].
    split; [intros; lia|].
    intros k' before' l' h' [= <-] Hbefore' Hrange.
    rewrite (calculateStatistics_lookup _ _ _ _ _ Hb) in Hbefore'.
    injection Hbefore' as <-.
    destruct k as [|k]; cbn [getZoneRange mbind option_bind] in Hrange.
    + by injection Hrange as _ <-.
    + destruct (statistics res !! k);
        cbn [mbind option_bind stat_radiusKm zoneStats] in Hrange; [|done].
      by injection Hrange as _ <-.
Qed.

End Panel.

Section PanelTotal.
Context {Geom : Type} `{T : Turf Geom} (HT : TurfExact T).
Import StatisticsPanel.

(** X13.  The grand total shown by the panel is 0 before any analysis.
    After an analysis with an exact geometry library whose zone radii
    rise strictly it is the number of features of the five counted
    categories (schools, hospitals, police, fire stations, risk zones)
    that lie inside the outermost buffer. *)
Theorem panel_total_is_features_within_outermost c ss layerFeatures cfg
    res outer :
  analyzeBufferZones c ss layerFeatures (Some cfg) = Some res →
  radiiRise (zones res) →
  last (zones res) = Some outer →
  getTotalInAllZones (@None (BufferAnalysisResult Geom)) = 0%nat
  ∧ getTotalInAllZones (Some res)
    = sum_list
        ((fun cat =>
            length (filter
                      (fun p => countedIn p (polygon outer) = true)
                      (categoryPoints cat ss layerFeatures)))
           <$> allCategories).
Proof.
  intros (Hzs & _ & Hstats & _)%analyzeBufferZones_Some Hrise Hlast.
  split; [done|].
  unfold getTotalInAllZones. rewrite Hstats.
  rewrite foldl_total_sum, Nat.add_0_l, total_sum_by_category.
  - apply (f_equal sum_list). apply list_fmap_ext. intros _ cat _.
    rewrite category_counts_imap.
    by apply (ring_counts_total HT c cfg (zones res) Hzs Hrise).
  - apply Forall_forall. intros st Hst.
    apply list_elem_of_lookup in Hst as [k Hk].
    by apply calculateStatistics_lookup_inv in Hk as (z & _ & ->).
Qed.

End PanelTotal.

(** ** Centroids *)

Lemma foldl_pair_sums (l : list LatLng) (a b : Q) :
  foldl (fun acc coord => ((acc.1 + coord.1)%Q, (acc.2 + coord.2)%Q))
    (a, b) l
  = (foldl (fun sum c => (sum + c.1)%Q) a l,
     foldl (fun sum c => (sum + c.2)%Q) b l).
Proof.
  revert a b. induction l as [|x l IH]; intros a b; [done|].
  simpl. by rewrite IH.
Qed.

Lemma clicked_centre_is_service_centre (s : School) centre :
  MapComponent.getSchoolCenter s = Some centre →
  BufferAnalysisService.getSchoolCenter s = centre.
Proof.
  unfold MapComponent.getSchoolCenter,
    BufferAnalysisService.getSchoolCenter.
  destruct (coordinates (school_polygon s)) as [|v vs]; [done|].
  rewrite decide_False by done. rewrite decide_True by (simpl; lia).
  by intros [= <-].
Qed.

(** X14.  The three vertex means of the application agree on a polygon
    with at least one vertex: the aggregator's [getSchoolCenter], the
    merge's [getCenter] and the map's [getSchoolCenter] give the same
    point.  On a polygon without vertices they part: the aggregator
    gives [(0, 0)], the other two give [NaN]. *)
Theorem centroids_agree_on_vertices (s : School) :
  (coordinates (school_polygon s) ≠ [] →
   getCenter (coordinates (school_polygon s))
   = Some (BufferAnalysisService.getSchoolCenter s)
   ∧ MapComponent.getSchoolCenter s
     = Some (BufferAnalysisService.getSchoolCenter s))
  ∧ (coordinates (school_polygon s) = [] →
     getCenter (coordinates (school_polygon s)) = None
     ∧ MapComponent.getSchoolCenter s = None
     ∧ BufferAnalysisService.getSchoolCenter s = (0%Q, 0%Q)).
Proof.
  unfold getCenter, MapComponent.getSchoolCenter,
    BufferAnalysisService.getSchoolCenter.
  destruct (coordinates (school_polygon s)) as [|v vs] eqn:E.
  - split; [done|]. intros _. done.
  - split; [|done]. intros _.
    rewrite foldl_pair_sums.
    rewrite decide_False by done. rewrite decide_True by (simpl; lia).
    done.
Qed.

(** ** The proximity search *)

Section Proximity.

Lemma closeEnough_iff (p o : School) :
  closeEnough p o = true
  ↔ ∃ cp co, getCenter (coordinates (school_polygon p)) = Some cp
      ∧ getCenter (coordinates (school_polygon o)) = Some co
      ∧ (dist2 cp co < maxDistance * maxDistance)%Q.
Proof.
  unfold closeEnough.
  destruct (getCenter (coordinates (school_polygon p))) as [cp|];
    destruct (getCenter (coordinates (school_polygon o))) as [co|];
    simpl; try (split; [done | by intros (? & ? & ? & ? & _)]).
  rewrite Qlt_bool_iff. split.
  - intros H. by exists cp, co.
  - by intros (? & ? & [= <-] & [= <-] & H).
Qed.

Lemma findNearestOSM_loop_None centre (ss : list School) :
  findNearestOSM_loop centre ss = None
  ↔ ∀ o, o ∈ ss →
      withinMaxDistance
        (calculateDistance centre
           (getCenter (coordinates (school_polygon o)))) = false.
Proof.
  induction ss as [|o ss IH]; cbn [findNearestOSM_loop].
  - split; [|done]. intros _ o Ho. by apply elem_of_nil in Ho.
  - destruct (withinMaxDistance
                (calculateDistance centre
                   (getCenter (coordinates (school_polygon o))))) eqn:E.
    + split; [done|]. intros H. rewrite (H o) in E; [done|].
      apply elem_of_cons. by left.
    + rewrite IH. split.
      * intros H o' [->|Ho']%elem_of_cons; [done | by apply H].
      * intros H o' Ho'. apply H, elem_of_cons. by right.
Qed.

(** X15.  [findNearestOSM] answers the first school of the OSM list, in
    list order, whose centroid is less than 0.002 degrees from the
    official school's centroid (not the closest one), and [null] exactly
    when there is none.  A school without vertices is never matched, in
    either role. *)
Theorem findNearestOSM_is_first_within_threshold p osmSchools :
  (∀ m, findNearestOSM p osmSchools = Some m →
     ∃ k, osmSchools !! k = Some m ∧ closeEnough p m = true
       ∧ ∀ j o, (j < k)%nat → osmSchools !! j = Some o →
           closeEnough p o = false)
  ∧ (findNearestOSM p osmSchools = None
     ↔ ∀ o, o ∈ osmSchools → closeEnough p o = false)
  ∧ (coordinates (school_polygon p) = [] →
     findNearestOSM p osmSchools = None)
  ∧ (∀ m, findNearestOSM p osmSchools = Some m →
     coordinates (school_polygon m) ≠ []).
Proof.
  assert (Hfirst : ∀ m, findNearestOSM p osmSchools = Some m →
     ∃ k, osmSchools !! k = Some m ∧ closeEnough p m = true
       ∧ ∀ j o, (j < k)%nat → osmSchools !! j = Some o →
           closeEnough p o = false).
  { intros m Hm. by apply findNearestOSM_loop_first in Hm. }
  assert (Hnone : findNearestOSM p osmSchools = None
     ↔ ∀ o, o ∈ osmSchools → closeEnough p o = false).
  { apply findNearestOSM_loop_None. }
  split; [exact Hfirst|]. split; [exact Hnone|]. split.
  - intros Hp. apply Hnone. intros o _. unfold closeEnough.
    by rewrite Hp.
  - intros m Hm Hempty. destruct (Hfirst m Hm) as (k & _ & Hclose & _).
    apply closeEnough_iff in Hclose as (cp & co & _ & Hco & _).
    by rewrite Hempty in Hco.
Qed.

End Proximity.

(** ** Edges of the merge *)

Section MergeEdges.
Context `{R : JsRuntime}.

Lemma filter_all {A : Type} (P : A → Prop) `{∀ x, Decision (P x)}
    (l : list A) :
  Forall P l → filter P l = l.
Proof.
  induction 1 as [|x l Hx _ IH]; [done|].
  rewrite filter_cons, decide_True by done. by rewrite IH.
Qed.

Lemma mergeSchools_no_osm oficiales : mergeSchools oficiales [] = oficiales.
Proof.
  rewrite mergeSchools_unfold, filter_nil, app_nil_r.
  induction oficiales as [|p l IH]; [done|]. by rewrite fmap_cons, IH.
Qed.

Lemma mergeSchools_no_oficial osmSchools :
  mergeSchools [] osmSchools = osmSchools.
Proof.
  rewrite mergeSchools_unfold. simpl. apply filter_all.
  apply Forall_forall. intros o _. apply not_elem_of_nil.
Qed.

(** X16.  Merging with no OSM school returns the official schools
    unchanged; merging no official school returns the OSM schools
    unchanged; and the merge is never shorter than the official list nor
    longer than the two lists together. *)
Theorem merge_edge_cases oficiales osmSchools :
  mergeSchools oficiales [] = oficiales
  ∧ mergeSchools [] osmSchools = osmSchools
  ∧ (length oficiales ≤ length (mergeSchools oficiales osmSchools))%nat
  ∧ (length (mergeSchools oficiales osmSchools)
     ≤ length oficiales + length osmSchools)%nat.
Proof.
  split; [apply mergeSchools_no_osm|].
  split; [apply mergeSchools_no_oficial|].
  rewrite !mergeSchools_unfold, !length_app, !length_fmap.
  pose proof (length_filter
    (fun o => normalizeSchoolName (name o)
              ∉ ((fun p => normalizeSchoolName (name p)) <$> oficiales))
    osmSchools).
  split; lia.
Qed.

Lemma normalizeSchoolName_plain s :
  Forall (fun c => isLowerAlnum c = true) (normalizeSchoolName s).
Proof.
  unfold normalizeSchoolName. apply Forall_forall.
  intros c Hc. by apply list_elem_of_filter in Hc as [Hc _].
Qed.

Lemma plain_is_not_combining c :
  isLowerAlnum c = true → isCombiningMark c = false.
Proof.
  unfold isLowerAlnum, isCombiningMark.
  rewrite orb_true_iff, !andb_true_iff, andb_false_iff, !N.leb_le,
    !N.leb_gt.
  lia.
Qed.

(** X17.  A normalized school name is made of the characters [a-z] and
    [0-9] only.  With a runtime that leaves such strings unchanged,
    normalizing is idempotent: a normalized name normalizes to itself. *)
Theorem normalizeSchoolName_idempotent s :
  RuntimeKeepsPlain R →
  Forall (fun c => isLowerAlnum c = true) (normalizeSchoolName s)
  ∧ normalizeSchoolName (normalizeSchoolName s) = normalizeSchoolName s.
Proof.
  intros HR. pose proof (normalizeSchoolName_plain s) as Hplain.
  split; [exact Hplain|].
  destruct (HR _ Hplain) as [Hlow Hnfd].
  unfold normalizeSchoolName at 1. rewrite Hlow, Hnfd.
  rewrite (filter_all (fun c => isCombiningMark c = false)).
  - by apply filter_all.
  - eapply Forall_impl; [exact Hplain|]. apply plain_is_not_combining.
Qed.

(** X18.  The merge never takes over a polygon of five vertices or
    fewer: if no OSM school has more than five vertices, the official
    schools come out unchanged at the head of the merge. *)
Theorem small_polygons_never_replace oficiales osmSchools :
  Forall (fun o => (length (coordinates (school_polygon o)) ≤ 5)%nat)
    osmSchools →
  take (length oficiales) (mergeSchools oficiales osmSchools) = oficiales.
Proof.
  intros Hsmall. rewrite mergeSchools_unfold.
  rewrite take_app_length'; [|by rewrite length_fmap].
  induction oficiales as [|p l IH]; [done|].
  rewrite fmap_cons, IH. f_equal.
  destruct (enrich_cases osmSchools p) as [[-> _]|(m & Hm & Hlen & _)];
    [done|].
  exfalso. unfold findNearestOSM in Hm.
  apply findNearestOSM_loop_first in Hm as (k & Hk & _).
  rewrite Forall_forall in Hsmall.
  apply list_elem_of_lookup_2 in Hk. specialize (Hsmall m Hk). lia.
Qed.

End MergeEdges.

(** ** The placeholder square of a point record *)

Section Placeholder.
Import IdecorService.

Lemma createPointPolygon_centre (lat lon : Q) :
  ∃ centre, getCenter (createPointPolygon lat lon) = Some centre
    ∧ (centre.1 == lat + (1 # 10000))%Q
    ∧ (centre.2 == lon - (1 # 10000))%Q.
Proof. eexists. split; [reflexivity|]. simpl. split; field. Qed.

(** X19.  The placeholder drawn around the point [(lat, lon)] is a
    closed ring of five vertices (a square of side 0.001 with its first
    corner repeated), so it never counts as a traced outline; because of
    the repeated corner its vertex mean is not the point but the point
    moved by 0.0001 degrees in each coordinate. *)
Theorem placeholder_square_shape (lat lon : Q) :
  length (createPointPolygon lat lon) = 5%nat
  ∧ head (createPointPolygon lat lon) = last (createPointPolygon lat lon)
  ∧ ¬ (5 < length (createPointPolygon lat lon))%nat
  ∧ ∃ centre, getCenter (createPointPolygon lat lon) = Some centre
      ∧ (centre.1 == lat + (1 # 10000))%Q
      ∧ (centre.2 == lon - (1 # 10000))%Q.
Proof.
  split; [done|]. split; [done|]. split; [simpl; lia|].
  apply createPointPolygon_centre.
Qed.

(** X20.  An official school drawn as a placeholder around a point, and
    an OSM school whose centroid is exactly that point: the proximity
    search matches them, whatever the point. *)
Theorem placeholder_matches_outline_on_its_point p s lat lon cs :
  coordinates (school_polygon p) = createPointPolygon lat lon →
  getCenter (coordinates (school_polygon s)) = Some cs →
  (cs.1 == lat)%Q → (cs.2 == lon)%Q →
  closeEnough p s = true ∧ findNearestOSM p [s] = Some s.
Proof.
  intros Hp Hs H1 H2.
  assert (Hclose : closeEnough p s = true).
  { apply closeEnough_iff.
    destruct (createPointPolygon_centre lat lon)
      as (centre & Hc & Hc1 & Hc2).
    exists centre, cs. rewrite Hp. split; [exact Hc|]. split; [exact Hs|].
    unfold dist2, maxDistance. rewrite Hc1, Hc2, H1, H2.
    ring_simplify. reflexivity. }
  split; [exact Hclose|].
  unfold findNearestOSM. cbn [findNearestOSM_loop].
  unfold closeEnough in Hclose. by rewrite Hclose.
Qed.

End Placeholder.

(** ** Analysing around a school *)

Section AroundASchool.
Context {Geom : Type} `{T : Turf Geom} (HT : TurfExact T).
Import ZoneQueries.

Lemma filter_has_one {A : Type} (f : A → bool) (l : list A) (x : A) :
  x ∈ l → f x = true →
  (1 ≤ length (filter (fun y => f y = true) l))%nat.
Proof.
  intros Hx Hf.
  assert (Hin : x ∈ filter (fun y => f y = true) l)
    by (by apply list_elem_of_filter).
  destruct (filter (fun y => f y = true) l); [|simpl; lia].
  by apply elem_of_nil in Hin.
Qed.

(** X21.  Clicking a school in buffer mode analyses the surroundings of
    its vertex mean.  With an exact geometry library and zone radii that
    rise strictly, that school is then counted in zone 1 and in no other
    zone, and [getZoneForPoint] answers zone 1 for the clicked centre. *)
Theorem clicked_school_is_counted_in_zone_one s ss layerFeatures centre
    cfg res z1 :
  s ∈ ss → MapComponent.getSchoolCenter s = Some centre →
  analyzeBufferZones centre ss layerFeatures (Some cfg) = Some res →
  radiiRise (zones res) →
  zones res !! 0%nat = Some z1 →
  BufferAnalysisService.getSchoolCenter s = centre
  ∧ (∀ k ring, ringOf (zones res) k = Some ring →
       countedIn (BufferAnalysisService.getSchoolCenter s) ring
       = bool_decide (k = 0%nat))
  ∧ ∃ st1, statistics res !! 0%nat = Some st1
      ∧ (1 ≤ schools st1)%nat
      ∧ getZoneForPoint centre (zones res) = Some z1.
Proof.
  intros Hs Hclick (Hzs & _ & Hstats & _)%analyzeBufferZones_Some Hrise Hz1.
  assert (Hcentre : BufferAnalysisService.getSchoolCenter s = centre).
  { by apply clicked_centre_is_service_centre. }
  split; [exact Hcentre|]. rewrite Hcentre.
  split.
  { intros k ring.
    apply (centre_only_in_first_ring HT centre cfg (zones res) Hzs Hrise). }
  exists (zoneStats z1 (polygon z1) ss layerFeatures).
  split.
  { rewrite Hstats. by rewrite (calculateStatistics_lookup _ _ _ _ _ Hz1). }
  pose proof (zone_centre_inside HT centre cfg (zones res) Hzs Hrise
                0%nat z1 Hz1) as Hin.
  split.
  - cbn [schools zoneStats]. unfold countPointsInPolygon.
    apply (filter_has_one (fun p => countedIn p (polygon z1))
             _ centre); [|exact Hin].
    rewrite <- Hcentre. apply list_elem_of_fmap. by exists s.
  - unfold getZoneForPoint.
    rewrite (rising_zones_sorted (zones res) Hrise).
    apply (getZoneForPoint_loop_first centre _ 0%nat z1 Hz1 Hin).
    intros j y Hj. lia.
Qed.

End AroundASchool.

(** ** Schools read from the Overpass answer *)

Section OverpassSchools.
Import OverpassService.

Lemma closeRing_cases (ring : list LatLng) first :
  head ring = Some first →
  (ringClosed ring ∧ closeRing ring = ring)
  ∨ (¬ ringClosed ring ∧ closeRing ring = ring ++ [first]).
Proof.
  intros Hh. unfold closeRing, ringClosed. rewrite Hh.
  destruct (last ring) as [lst|] eqn:Hl.
  - destruct (Qeq_bool first.1 lst.1) eqn:E1;
      destruct (Qeq_bool first.2 lst.2) eqn:E2; simpl.
    + left. split; [|done]. split; by apply Qeq_bool_iff.
    + right. split; [|by destruct first].
      intros [_ H]. apply Qeq_bool_iff in H. congruence.
    + right. split; [|by destruct first].
      intros [H _]. apply Qeq_bool_iff in H. congruence.
    + right. split; [|by destruct first].
      intros [H _]. apply Qeq_bool_iff in H. congruence.
  - destruct ring; [done|]. by rewrite last_cons in Hl; destruct (last ring).
Qed.

Lemma closeRing_closed (ring : list LatLng) :
  ring ≠ [] → ringClosed (closeRing ring).
Proof.
  intros Hne. destruct ring as [|first ring]; [done|].
  destruct (closeRing_cases (first :: ring) first eq_refl)
    as [[Hc ->]|[_ ->]]; [exact Hc|].
  unfold ringClosed. rewrite last_snoc. simpl. split; reflexivity.
Qed.

(** X22.  Closing a ring appends at most one vertex, a copy of the first
    one, and only to a ring that is not closed yet; the result is
    closed, begins with the original ring, and closing it again changes
    nothing. *)
Theorem closeRing_closes_once (ring : list LatLng) :
  ring ≠ [] →
  ringClosed (closeRing ring)
  ∧ (ringClosed ring → closeRing ring = ring)
  ∧ (¬ ringClosed ring →
     ∃ first, head ring = Some first ∧ closeRing ring = ring ++ [first])
  ∧ closeRing (closeRing ring) = closeRing ring.
Proof.
  intros Hne. destruct ring as [|first ring]; [done|].
  pose proof (closeRing_closed (first :: ring) Hne) as Hclosed.
  split; [exact Hclosed|].
  destruct (closeRing_cases (first :: ring) first eq_refl)
    as [[Hc Heq]|[Hnc Heq]].
  - split; [done|]. split; [done|]. by rewrite !Heq.
  - split; [done|]. split; [intros _; by exists first|].
    rewrite Heq in Hclosed |- *.
    destruct (closeRing_cases ((first :: ring) ++ [first]) first eq_refl)
      as [[_ Heq']|[Hnc' _]]; [exact Heq' | done].
Qed.

Lemma orString_nonempty a b : b ≠ [] → orString a b ≠ [].
Proof. intros Hb. by destruct a as [[|]|]. Qed.

Lemma buildAddress_nonempty tags : buildAddress tags ≠ [].
Proof.
  unfold buildAddress.
  destruct (decide (0 < length _)%nat); [|done].
  intros H. apply app_eq_nil in H as [_ H]. done.
Qed.

Lemma elementToSchool_Some element s :
  elementToSchool element = Some s →
  ∃ g, el_geometry element = Some g ∧ (3 ≤ length g)%nat
    ∧ coordinates (school_polygon s)
      = closeRing ((fun point => (pt_lat point, pt_lon point)) <$> g)
    ∧ school_id s = js "osm_" ++ el_id element
    ∧ detected s = true
    ∧ dataField source s = Some src_osm
    ∧ name s ≠ [] ∧ address s ≠ [].
Proof.
  unfold elementToSchool.
  destruct (decide (length _ < 3)%nat) as [|Hlen]; [done|].
  intros [= <-]. rewrite length_fmap in Hlen.
  destruct (el_geometry element) as [g|]; simpl in *; [|lia].
  exists g. split; [done|]. split; [lia|]. split; [done|].
  split; [done|]. split; [done|]. split; [done|].
  split; [by apply orString_nonempty | apply buildAddress_nonempty].
Qed.

Lemma closeRing_length (ring : list LatLng) :
  (length ring ≤ length (closeRing ring))%nat.
Proof.
  unfold closeRing. destruct (head ring), (last ring); try done.
  destruct (_ || _); [|done]. rewrite length_app. lia.
Qed.

(** X23.  Every school read from an Overpass answer has a polygon of at
    least three vertices whose first and last vertex coincide, so its
    centroid is defined; it is marked detected, carries the source tag
    [osm], and has a name and an address that are not empty. *)
Theorem overpass_schools_are_closed_rings response s :
  s ∈ transformToSchools response →
  (3 ≤ length (coordinates (school_polygon s)))%nat
  ∧ ringClosed (coordinates (school_polygon s))
  ∧ getCenter (coordinates (school_polygon s)) ≠ None
  ∧ detected s = true
  ∧ dataField source s = Some src_osm
  ∧ name s ≠ [] ∧ address s ≠ [].
Proof.
  destruct response as [elements|]; simpl; [|by intros ?%elem_of_nil].
  intros (element & _ & Hs)%list_elem_of_omap.
  apply elementToSchool_Some in Hs
    as (g & _ & Hlen & Hcoords & _ & Hdet & Hsrc & Hname & Haddr).
  remember ((fun point => (pt_lat point, pt_lon point)) <$> g) as ring
    eqn:Ering.
  assert (Hring : (3 ≤ length ring)%nat)
    by (subst ring; by rewrite length_fmap).
  assert (Hlen' : (3 ≤ length (coordinates (school_polygon s)))%nat).
  { rewrite Hcoords.
    exact (Nat.le_trans _ _ _ Hring (closeRing_length ring)). }
  split; [exact Hlen'|].
  split.
  { rewrite Hcoords. apply closeRing_closed.
    intros ->. simpl in Hring. lia. }
  split.
  { destruct (coordinates (school_polygon s)) as [|v vs];
      [simpl in Hlen'; lia|].
    unfold getCenter. by rewrite decide_False. }
  done.
Qed.

End OverpassSchools.

Section OverpassFiltering.
Import OverpassService.

Lemma elementToSchool_id element s :
  elementToSchool element = Some s →
  school_id s = js "osm_" ++ el_id element.
Proof.
  intros H. by apply elementToSchool_Some in H as (_ & _ & _ & _ & ? & _).
Qed.

Lemma elementToSchool_None element :
  elementToSchool element = None
  ↔ (length (default [] (el_geometry element)) < 3)%nat.
Proof.
  unfold elementToSchool. rewrite length_fmap.
  destruct (decide (length (default [] (el_geometry element)) < 3)%nat);
    split; done.
Qed.

Lemma transformToSchools_cons e elements :
  transformToSchools (Some (e :: elements))
  = match elementToSchool e with
    | Some s => s :: transformToSchools (Some elements)
    | None => transformToSchools (Some elements)
    end.
Proof.
  unfold transformToSchools. rewrite filter_cons.
  destruct (decide (hasGeometry e)) as [Hg|Hg]; [done|].
  assert (Hnone : elementToSchool e = None).
  { apply elementToSchool_None. unfold hasGeometry in Hg.
    destruct (el_geometry e) as [[|]|]; simpl; try lia; tauto. }
  by rewrite Hnone.
Qed.

(** X24.  A missing answer gives no school.  Otherwise the schools are,
    in the order of the answer, those of the elements whose geometry has
    at least three points; elements without geometry or with one or two
    points are dropped. *)
Theorem overpass_keeps_elements_with_three_points elements :
  transformToSchools None = []
  ∧ school_id <$> transformToSchools (Some elements)
    = (fun e => js "osm_" ++ el_id e)
        <$> filter (fun e =>
              (3 ≤ length (default [] (el_geometry e)))%nat) elements
  ∧ (length (transformToSchools (Some elements)) ≤ length elements)%nat.
Proof.
  split; [done|].
  induction elements as [|e elements [IH1 IH2]]; [done|].
  rewrite transformToSchools_cons, filter_cons.
  destruct (elementToSchool e) as [s|] eqn:Es.
  - assert (Hs := Es).
    apply elementToSchool_Some in Hs as (g & Hg & Hlen & _).
    rewrite decide_True by (by rewrite Hg).
    rewrite !fmap_cons, IH1, (elementToSchool_id e s Es).
    split; [done | cbn [length]; lia].
  - apply elementToSchool_None in Es.
    rewrite decide_False by lia. split; [done | cbn [length]; lia].
Qed.

(** X25.  The address of an Overpass school is never empty.  A street or
    a house number that is missing or empty is left out; what remains is
    joined by a space and followed by [", Córdoba"]; if nothing remains
    the address is ["Dirección no disponible"]. *)
Theorem buildAddress_cases tags :
  let street := tags !! js "addr:street" in
  let number := tags !! js "addr:housenumber" in
  buildAddress tags ≠ []
  ∧ (¬ truthy street → ¬ truthy number →
     buildAddress tags = direccionNoDisponible)
  ∧ (∀ s, street = Some s → truthy street → ¬ truthy number →
     buildAddress tags = s ++ commaCordoba)
  ∧ (∀ n, number = Some n → ¬ truthy street → truthy number →
     buildAddress tags = n ++ commaCordoba)
  ∧ (∀ s n, street = Some s → number = Some n →
     truthy street → truthy number →
     buildAddress tags = s ++ js " " ++ n ++ commaCordoba).
Proof.
  intros street number.
  split; [apply buildAddress_nonempty|].
  unfold buildAddress. fold street number.
  destruct street as [[|c s]|], number as [[|d n]|];
    repeat split; simpl; try tauto;
    try (intros; simplify_eq; by rewrite <- ?app_assoc);
    intros; simplify_eq.
Qed.

End OverpassFiltering.

(** ** Geometry of WFS features *)

Section WfsFeatures.
Import IdecorLayersService.

Lemma foldl_swapped (ring : list Position) (a : Q) :
  foldl (fun sum c => (sum + c.1)%Q) a ((fun c => (c.2, c.1)) <$> ring)
  = foldl (fun sum c => (sum + c.2)%Q) a ring
  ∧ foldl (fun sum c => (sum + c.2)%Q) a ((fun c => (c.2, c.1)) <$> ring)
    = foldl (fun sum c => (sum + c.1)%Q) a ring.
Proof.
  split; revert a;
    (induction ring as [|c ring IH]; intros a; [done|]; simpl; apply IH).
Qed.

Lemma ringMean_is_getCenter (ring : list Position) :
  ringMean ring = getCenter ((fun c => (c.2, c.1)) <$> ring).
Proof.
  unfold ringMean, getCenter. rewrite foldl_pair_sums, length_fmap.
  destruct (foldl_swapped ring 0%Q) as [-> ->]. done.
Qed.

(** X26.  For a WFS feature whose polygon is drawn, the marker position
    is the vertex mean of exactly that polygon (the first ring of the
    first polygon, with the coordinates swapped to [[lat, lng]]); both
    functions throw on a polygon without rings; and a geometry of any
    other type than the four handled is placed at [(0, 0)] without a
    polygon. *)
Theorem marker_is_mean_of_drawn_polygon (geometry : WfsGeometry) :
  (∀ poly, extractPolygon geometry = Returns (Some poly) →
     extractCoordinates geometry = Returns (getCenter poly))
  ∧ (extractPolygon geometry = Throws →
     extractCoordinates geometry = Throws)
  ∧ (∀ t, geometry = OtherGeometry t →
     extractCoordinates geometry = Returns (Some (0%Q, 0%Q))
     ∧ extractPolygon geometry = Returns None).
Proof.
  split; [|split].
  - intros poly. destruct geometry as [| |[|ring rest]|[|[|ring rest] ps]|];
      simpl; try done; intros [= <-]; by rewrite ringMean_is_getCenter.
  - by destruct geometry as [| |[|ring rest]|[|[|ring rest] ps]|].
  - by intros t ->.
Qed.

End WfsFeatures.

(** ** Fetching the schools *)

Section FetchingSchools.
Context `{R : JsRuntime}.
Import OverpassService Fetching.

(** X27.  The schools are asked of the Overpass servers in the order of
    the server list, each server at most three times.  Every request
    sent before the last one failed; if the last request was answered,
    the schools are those of that answer and no further request is
    sent; if it failed too, all nine requests were sent and the result
    is the empty list. *)
Theorem overpass_failover_order (net : Network) :
  let result := getSchoolsInCordoba net in
  result.2 `prefix_of` requestOrder
  ∧ (∀ k req, (S k < length result.2)%nat → result.2 !! k = Some req →
       net req.1 req.2 = Failure)
  ∧ ∃ lastRequest, last result.2 = Some lastRequest
      ∧ match net lastRequest.1 lastRequest.2 with
        | Answer response => result.1 = transformToSchools response
        | Failure => result.1 = [] ∧ result.2 = requestOrder
        end.
Proof.
  unfold getSchoolsInCordoba, tryServer, requestOrder.
  cbn [length overpassServers Nat.sub tryServer_from postWithRetry].
  repeat
    (match goal with
     | |- context [net ?s ?a] =>
         lazymatch goal with
         | H : net s a = _ |- _ => fail
         | _ => destruct (net s a) eqn:?
         end
     end;
     cbn [fst snd app];
     try (split; [eexists; reflexivity|];
          split;
          [intros k req Hk Hreq;
           repeat (destruct k as [|k];
                   [injection Hreq as <-; assumption|]);
           simpl in Hk; lia
          |eexists; split; [reflexivity|];
           cbn [fst snd];
           repeat match goal with
                  | H : net _ _ = _ |- _ => rewrite H
                  end; done])).
Qed.

Lemma all_fail_no_schools (net : Network) :
  (∀ server attempt, (server < 3)%nat → (attempt < 3)%nat →
     net server attempt = Failure) →
  (getSchoolsInCordoba net).1 = [].
Proof.
  intros Hfail. unfold getSchoolsInCordoba, tryServer.
  cbn [length overpassServers Nat.sub tryServer_from postWithRetry].
  rewrite !Hfail by lia. done.
Qed.

(** X28.  The combined list degrades gracefully: if every request to
    every Overpass server fails, it is the official list unchanged; if
    the official source delivers nothing, it is the list of OSM schools
    unchanged. *)
Theorem combined_schools_degrade_gracefully oficial (net : Network) :
  ((∀ server attempt, (server < 3)%nat → (attempt < 3)%nat →
      net server attempt = Failure) →
   getSchoolsCombined oficial net = oficial)
  ∧ getSchoolsCombined [] net = (getSchoolsInCordoba net).1.
Proof.
  unfold getSchoolsCombined. split.
  - intros Hfail. rewrite (all_fail_no_schools net Hfail).
    apply mergeSchools_no_osm.
  - apply mergeSchools_no_oficial.
Qed.

End FetchingSchools.

(** ** Worked examples of the further properties *)

Lemma fill_opacity_fades_outwards_witness :
  let cfg := {| totalRadius := 5; zoneWidth := 1 |} in
  ∃ zs zi zj,
    @createBufferZones _ planarTurf (0, 0)%Q (Some cfg) = Some zs
    ∧ zs !! 0%nat = Some zi ∧ zs !! 4%nat = Some zj
    ∧ (fillOpacity zj <= fillOpacity zi)%Q
    ∧ (fillOpacity zj == lowestOpacity)%Q.
Proof.
  intros cfg.
  destruct (@createBufferZones _ planarTurf (0, 0)%Q (Some cfg))
    as [zs|] eqn:Hzs; [|vm_compute in Hzs; discriminate].
  destruct (zs !! 0%nat) as [zi|] eqn:Hi;
    [|vm_compute in Hzs; injection Hzs as <-; discriminate].
  destruct (zs !! 4%nat) as [zj|] eqn:Hj;
    [|vm_compute in Hzs; injection Hzs as <-; discriminate].
  destruct (@fill_opacity_fades_outwards _ planarTurf (0, 0)%Q cfg zs
              0%nat 4%nat zi zj Hzs Hi Hj ltac:(lia))
    as (Hle & _ & _ & Hlast & _).
  exists zs, zi, zj. split; [reflexivity|]. split; [exact Hi|].
  split; [exact Hj|]. split; [exact Hle|]. apply Hlast.
  vm_compute in Hzs. injection Hzs as <-.
  vm_compute in Hj. injection Hj as <-. reflexivity.
Defined.

Lemma risk_falls_outwards_witness :
  let cfg := {| totalRadius := 5; zoneWidth := 1 |} in
  ∃ zs zi zj,
    @createBufferZones _ planarTurf (0, 0)%Q (Some cfg) = Some zs
    ∧ zs !! 0%nat = Some zi ∧ zs !! 4%nat = Some zj
    ∧ riskLevel zi = High ∧ riskLevel zj = Low.
Proof.
  intros cfg.
  destruct (@createBufferZones _ planarTurf (0, 0)%Q (Some cfg))
    as [zs|] eqn:Hzs; [|vm_compute in Hzs; discriminate].
  destruct (zs !! 0%nat) as [zi|] eqn:Hi;
    [|vm_compute in Hzs; injection Hzs as <-; discriminate].
  destruct (zs !! 4%nat) as [zj|] eqn:Hj;
    [|vm_compute in Hzs; injection Hzs as <-; discriminate].
  destruct (@risk_falls_outwards _ planarTurf (0, 0)%Q cfg zs
              0%nat 4%nat zi zj Hzs Hi Hj ltac:(lia))
    as (_ & Hlast & Hfirst).
  exists zs, zi, zj. split; [reflexivity|]. split; [exact Hi|].
  split; [exact Hj|]. split.
  - apply Hfirst; [reflexivity|].
    vm_compute in Hzs. injection Hzs as <-. simpl. lia.
  - apply Hlast. vm_compute in Hzs. injection Hzs as <-.
    vm_compute in Hj. injection Hj as <-. reflexivity.
Defined.

(** Width 2 and total 5: three zones, the last one clamped to 5. *)
Lemma zone_radii_rounded_and_clamped_witness :
  let cfg := {| totalRadius := 5; zoneWidth := 2 |} in
  ∃ zs z,
    @createBufferZones _ planarTurf (0, 0)%Q (Some cfg) = Some zs
    ∧ length zs = 3%nat
    ∧ last zs = Some z
    ∧ (radiusKm z == 5)%Q.
Proof.
  intros cfg.
  destruct (@createBufferZones _ planarTurf (0, 0)%Q (Some cfg))
    as [zs|] eqn:Hzs; [|vm_compute in Hzs; discriminate].
  destruct (last zs) as [z|] eqn:Hz;
    [|vm_compute in Hzs; injection Hzs as <-; discriminate].
  destruct (@zone_radii_rounded_and_clamped _ planarTurf (0, 0)%Q cfg zs
              ltac:(discriminate) Hzs)
    as (Hlen & _ & _ & _ & Hlast).
  exists zs, z. split; [reflexivity|].
  split; [rewrite Hlen; reflexivity|]. split; [exact Hz|].
  apply (Hlast z Hz). vm_compute. discriminate.
Defined.

Lemma no_zones_without_radius_witness :
  ∃ res,
    @analyzeBufferZones _ planarTurf (0, 0)%Q [oficialBelgrano] ∅
      (Some {| totalRadius := 0; zoneWidth := 1 |}) = Some res
    ∧ zones res = [] ∧ statistics res = []
    ∧ tot_schools (totalElements res) = 1%nat.
Proof.
  exact (@no_zones_without_radius _ planarTurf (0, 0)%Q
           {| totalRadius := 0; zoneWidth := 1 |} [oficialBelgrano] ∅
           eq_refl ltac:(discriminate)).
Defined.

Lemma statistics_mirror_zones_witness :
  let cfg := {| totalRadius := 2; zoneWidth := 1 |} in
  ∃ res st z,
    @analyzeBufferZones _ planarTurf (0, 0)%Q []
      {[ hospitals_layer := [hospitalAt (0, 0)%Q] ]} (Some cfg) = Some res
    ∧ length (statistics res) = length (zones res)
    ∧ statistics res !! 1%nat = Some st
    ∧ zones res !! 1%nat = Some z
    ∧ zoneId st = id z
    ∧ zoneId st = 2.
Proof.
  intros cfg.
  destruct (@analyzeBufferZones _ planarTurf (0, 0)%Q []
              {[ hospitals_layer := [hospitalAt (0, 0)%Q] ]} (Some cfg))
    as [res|] eqn:Hres; [|vm_compute in Hres; discriminate].
  destruct (statistics res !! 1%nat) as [st|] eqn:Hst;
    [|vm_compute in Hres; injection Hres as <-; discriminate].
  destruct (@statistics_mirror_zones _ planarTurf (0, 0)%Q [] _ _ res Hres)
    as [Hlen Hall].
  destruct (Hall 1%nat st Hst) as (z & Hz & Hid & _).
  exists res, st, z. split; [reflexivity|]. split; [exact Hlen|].
  split; [exact Hst|]. split; [exact Hz|]. split; [exact Hid|].
  vm_compute in Hres. injection Hres as <-.
  vm_compute in Hst. by injection Hst as <-.
Defined.

Lemma zone_count_at_most_category_total_witness :
  let cfg := {| totalRadius := 2; zoneWidth := 1 |} in
  ∃ res st,
    @analyzeBufferZones _ throwingTurf (0, 0)%Q []
      {[ hospitals_layer := [hospitalAt (0, 0)%Q] ]} (Some cfg) = Some res
    ∧ statistics res !! 1%nat = Some st
    ∧ hospitals st = 1%nat
    ∧ (hospitals st ≤ tot_hospitals (totalElements res))%nat.
Proof.
  intros cfg.
  destruct (@analyzeBufferZones _ throwingTurf (0, 0)%Q []
              {[ hospitals_layer := [hospitalAt (0, 0)%Q] ]} (Some cfg))
    as [res|] eqn:Hres; [|vm_compute in Hres; discriminate].
  destruct (statistics res !! 1%nat) as [st|] eqn:Hst;
    [|vm_compute in Hres; injection Hres as <-; discriminate].
  exists res, st. split; [reflexivity|]. split; [exact Hst|].
  split.
  - vm_compute in Hres. injection Hres as <-.
    vm_compute in Hst. by injection Hst as <-.
  - exact (@zone_count_at_most_category_total _ throwingTurf (0, 0)%Q []
             _ _ CatHospitals res st Hres
             (list_elem_of_lookup_2 _ 1%nat _ Hst)).
Defined.

Lemma school_counts_add_up_witness :
  let config := Some {| totalRadius := 1; zoneWidth := 1 |} in
  ∃ res st res1 res2 st1 st2,
    @analyzeBufferZones _ planarTurf (0, 0)%Q
      ([schoolWithoutVertices] ++ [schoolWithoutVertices]) ∅ config
    = Some res
    ∧ statistics res !! 0%nat = Some st
    ∧ @analyzeBufferZones _ planarTurf (0, 0)%Q [schoolWithoutVertices] ∅
        config = Some res1
    ∧ @analyzeBufferZones _ planarTurf (0, 0)%Q [schoolWithoutVertices] ∅
        config = Some res2
    ∧ statistics res1 !! 0%nat = Some st1
    ∧ statistics res2 !! 0%nat = Some st2
    ∧ schools st = (schools st1 + schools st2)%nat
    ∧ schools st = 2%nat.
Proof.
  intros config.
  destruct (@analyzeBufferZones _ planarTurf (0, 0)%Q
              ([schoolWithoutVertices] ++ [schoolWithoutVertices]) ∅
              config) as [res|] eqn:Hres;
    [|vm_compute in Hres; discriminate].
  destruct (statistics res !! 0%nat) as [st|] eqn:Hst;
    [|vm_compute in Hres; injection Hres as <-; discriminate].
  destruct (@school_counts_add_up _ planarTurf (0, 0)%Q
              [schoolWithoutVertices] [schoolWithoutVertices] ∅
              config res 0%nat st Hres Hst)
    as (res1 & res2 & st1 & st2 & H1 & H2 & Hs1 & Hs2 & Hsum & _).
  exists res, st, res1, res2, st1, st2.
  split; [reflexivity|]. split; [exact Hst|].
  split; [exact H1|]. split; [exact H2|].
  split; [exact Hs1|]. split; [exact Hs2|]. split; [exact Hsum|].
  vm_compute in Hres. injection Hres as <-.
  vm_compute in Hst. by injection Hst as <-.
Defined.

Lemma throwingTurf_never_differs (a b d : PlanarGeom) :
  @turf_difference _ throwingTurf a b ≠ DiffFeature d.
Proof. discriminate. Qed.

(** Two police stations, at the centre and a kilometre and a half from
    it: a library whose difference throws counts 1 and 2. *)
Lemma failing_difference_counts_whole_buffers_witness :
  let cfg := {| totalRadius := 2; zoneWidth := 1 |} in
  let layers : gmap LayerType (list LayerFeature) :=
    {[ police_layer := [hospitalAt (0, 0)%Q;
                        hospitalAt (0, 135 # 10000)%Q] ]} in
  ∃ res sti stj,
    @analyzeBufferZones _ throwingTurf (0, 0)%Q [] layers (Some cfg)
    = Some res
    ∧ police <$> statistics res = [1; 2]%nat
    ∧ statistics res !! 0%nat = Some sti
    ∧ statistics res !! 1%nat = Some stj
    ∧ (police sti ≤ police stj)%nat.
Proof.
  intros cfg layers.
  destruct (@analyzeBufferZones _ throwingTurf (0, 0)%Q [] layers
              (Some cfg)) as [res|] eqn:Hres;
    [|vm_compute in Hres; discriminate].
  destruct (statistics res !! 0%nat) as [sti|] eqn:Hi;
    [|vm_compute in Hres; injection Hres as <-; discriminate].
  destruct (statistics res !! 1%nat) as [stj|] eqn:Hj;
    [|vm_compute in Hres; injection Hres as <-; discriminate].
  exists res, sti, stj. split; [reflexivity|].
  split; [vm_compute in Hres; by injection Hres as <-|].
  split; [exact Hi|]. split; [exact Hj|].
  exact (proj2 (@failing_difference_counts_whole_buffers _ throwingTurf
           throwingTurf_never_differs (buffer_nested planarTurf_exact)
           (0, 0)%Q cfg [] layers CatPolice res 0%nat 1%nat sti stj
           eq_refl Hres Hi Hj ltac:(lia))).
Defined.

(** A point a kilometre and a half from the centre is looked up in
    zone 2, the zone whose ring holds it. *)
Lemma getZoneForPoint_is_the_counting_zone_witness :
  let cfg := {| totalRadius := 3; zoneWidth := 1 |} in
  let p := (0, 135 # 10000)%Q in
  ∃ zs z k,
    @createBufferZones _ planarTurf (0, 0)%Q (Some cfg) = Some zs
    ∧ radiiRise zs
    ∧ @ZoneQueries.getZoneForPoint _ planarTurf p zs = Some z
    ∧ id z = 2
    ∧ zs !! k = Some z
    ∧ @countedIn _ planarTurf p (@countableRing _ planarTurf zs k z)
      = true.
Proof.
  intros cfg p.
  destruct (@createBufferZones _ planarTurf (0, 0)%Q (Some cfg))
    as [zs|] eqn:Hzs; [|vm_compute in Hzs; discriminate].
  assert (Hrise : radiiRise zs).
  { vm_compute in Hzs. injection Hzs as <-. repeat split. }
  destruct (@ZoneQueries.getZoneForPoint _ planarTurf p zs)
    as [z|] eqn:Hz;
    [|vm_compute in Hzs; injection Hzs as <-; vm_compute in Hz;
      discriminate].
  destruct (@getZoneForPoint_is_the_counting_zone _ planarTurf
              planarTurf_exact (0, 0)%Q cfg zs p Hzs Hrise) as [Hsome _].
  destruct (proj1 (Hsome z) Hz) as (k & Hk & Hin).
  exists zs, z, k. split; [reflexivity|]. split; [exact Hrise|].
  split; [exact Hz|]. split; [|split; [exact Hk | exact Hin]].
  vm_compute in Hzs. injection Hzs as <-.
  vm_compute in Hz. by injection Hz as <-.
Defined.

Lemma zone_ranges_tile_the_radius_witness :
  let cfg := {| totalRadius := 5; zoneWidth := 2 |} in
  ∃ res st lo hi,
    @analyzeBufferZones _ planarTurf (0, 0)%Q [] ∅ (Some cfg) = Some res
    ∧ statistics res !! 2%nat = Some st
    ∧ StatisticsPanel.getZoneRange (Some res) st 2 = Some (lo, hi)
    ∧ (lo <= hi)%Q ∧ (hi <= 5)%Q.
Proof.
  intros cfg.
  assert (Hv : validConfig cfg) by (split; reflexivity).
  destruct (@analyzeBufferZones _ planarTurf (0, 0)%Q [] ∅ (Some cfg))
    as [res|] eqn:Hres; [|vm_compute in Hres; discriminate].
  destruct (statistics res !! 2%nat) as [st|] eqn:Hst;
    [|vm_compute in Hres; injection Hres as <-; discriminate].
  destruct (@zone_ranges_tile_the_radius _ planarTurf (0, 0)%Q [] ∅
              cfg res 2%nat st Hv Hres Hst)
    as (lo & hi & Hrange & _ & Hle & Htot & _).
  exists res, st, lo, hi. split; [reflexivity|]. split; [exact Hst|].
  split; [exact Hrange|]. split; [exact Hle | exact Htot].
Defined.

(** A school at the centre, a police station half a kilometre from it
    and one three degrees away: the panel shows a total of 2. *)
Lemma panel_total_is_features_within_outermost_witness :
  let cfg := {| totalRadius := 2; zoneWidth := 1 |} in
  let layers : gmap LayerType (list LayerFeature) :=
    {[ police_layer := [hospitalAt (0, 45 # 10000)%Q;
                        hospitalAt (3, 0)%Q] ]} in
  ∃ res outer,
    @analyzeBufferZones _ planarTurf (0, 0)%Q [schoolWithoutVertices]
      layers (Some cfg) = Some res
    ∧ radiiRise (zones res)
    ∧ last (zones res) = Some outer
    ∧ StatisticsPanel.getTotalInAllZones (Some res) = 2%nat
    ∧ StatisticsPanel.getTotalInAllZones (Some res)
      = sum_list
          ((fun cat =>
              length (filter
                (fun p => @countedIn _ planarTurf p (polygon outer) = true)
                (@categoryPoints cat [schoolWithoutVertices] layers)))
             <$> allCategories).
Proof.
  intros cfg layers.
  destruct (@analyzeBufferZones _ planarTurf (0, 0)%Q
              [schoolWithoutVertices] layers (Some cfg))
    as [res|] eqn:Hres; [|vm_compute in Hres; discriminate].
  destruct (last (zones res)) as [outer|] eqn:Hlast;
    [|vm_compute in Hres; injection Hres as <-; discriminate].
  assert (Hrise : radiiRise (zones res)).
  { vm_compute in Hres. injection Hres as <-. repeat split. }
  exists res, outer. split; [reflexivity|]. split; [exact Hrise|].
  split; [exact Hlast|].
  split; [vm_compute in Hres; by injection Hres as <-|].
  exact (proj2 (@panel_total_is_features_within_outermost _ planarTurf
           planarTurf_exact (0, 0)%Q [schoolWithoutVertices] layers cfg
           res outer Hres Hrise Hlast)).
Defined.

Lemma asciiRuntime_keeps_plain : RuntimeKeepsPlain asciiRuntime.
Proof.
  intros s Hs. split; [|done]. simpl.
  induction Hs as [|c s Hc _ IH]; [done|].
  rewrite fmap_cons, IH. f_equal. unfold asciiLower.
  unfold isLowerAlnum in Hc.
  apply orb_true_iff in Hc.
  destruct ((65 <=? c)%N && (c <=? 90)%N) eqn:E; [|done].
  apply andb_true_iff in E as [E1 E2].
  apply N.leb_le in E1, E2.
  destruct Hc as [Hc|Hc]; apply andb_true_iff in Hc as [H1 H2];
    apply N.leb_le in H1, H2; lia.
Qed.

Lemma normalizeSchoolName_idempotent_witness :
  @normalizeSchoolName asciiRuntime (js "Escuela  Manuel-Belgrano!")
  = js "escuelamanuelbelgrano"
  ∧ @normalizeSchoolName asciiRuntime (js "escuelamanuelbelgrano")
    = js "escuelamanuelbelgrano".
Proof.
  split; [reflexivity|].
  exact (proj2 (@normalizeSchoolName_idempotent asciiRuntime
                  (js "Escuela  Manuel-Belgrano!")
                  asciiRuntime_keeps_plain)).
Defined.

Lemma small_polygons_never_replace_witness :
  Forall (fun o => (length (coordinates (school_polygon o)) ≤ 5)%nat)
    [osmTriangle]
  ∧ @findNearestOSM oficialPlaceholder [osmTriangle] = Some osmTriangle
  ∧ take 1 (@mergeSchools asciiRuntime [oficialPlaceholder] [osmTriangle])
    = [oficialPlaceholder].
Proof.
  assert (Hsmall :
    Forall (fun o => (length (coordinates (school_polygon o)) ≤ 5)%nat)
      [osmTriangle]).
  { constructor; [simpl; lia | constructor]. }
  split; [exact Hsmall|]. split; [reflexivity|].
  exact (@small_polygons_never_replace asciiRuntime [oficialPlaceholder]
           [osmTriangle] Hsmall).
Defined.

Lemma placeholder_matches_outline_on_its_point_witness :
  closeEnough oficialPlaceholder osmTriangle = true
  ∧ @findNearestOSM oficialPlaceholder [osmTriangle] = Some osmTriangle.
Proof.
  refine (@placeholder_matches_outline_on_its_point oficialPlaceholder
            osmTriangle (-314 # 10) (-642 # 10) _ eq_refl eq_refl _ _).
  - vm_compute. reflexivity.
  - vm_compute. reflexivity.
Defined.

Lemma clicked_school_is_counted_in_zone_one_witness :
  ∃ centre res z1 st1,
    MapComponent.getSchoolCenter oficialBelgrano = Some centre
    ∧ @analyzeBufferZones _ planarTurf centre [oficialBelgrano] ∅
        (Some defaultConfig) = Some res
    ∧ radiiRise (zones res)
    ∧ zones res !! 0%nat = Some z1
    ∧ statistics res !! 0%nat = Some st1
    ∧ (1 ≤ schools st1)%nat
    ∧ @ZoneQueries.getZoneForPoint _ planarTurf centre (zones res)
      = Some z1.
Proof.
  destruct (MapComponent.getSchoolCenter oficialBelgrano)
    as [centre|] eqn:Hc; [|vm_compute in Hc; discriminate].
  destruct (@analyzeBufferZones _ planarTurf centre [oficialBelgrano] ∅
              (Some defaultConfig)) as [res|] eqn:Hres;
    [|vm_compute in Hc; injection Hc as <-; vm_compute in Hres;
      discriminate].
  assert (Hrise : radiiRise (zones res)).
  { vm_compute in Hc. injection Hc as <-.
    vm_compute in Hres. injection Hres as <-. repeat split. }
  destruct (zones res !! 0%nat) as [z1|] eqn:Hz1;
    [|vm_compute in Hc; injection Hc as <-;
      vm_compute in Hres; injection Hres as <-; discriminate].
  destruct (@clicked_school_is_counted_in_zone_one _ planarTurf
              planarTurf_exact oficialBelgrano [oficialBelgrano] ∅ centre
              defaultConfig res z1
              ltac:(apply list_elem_of_singleton; reflexivity)
              Hc Hres Hrise Hz1)
    as (_ & _ & st1 & Hst & Hone & Hzone).
  exists centre, res, z1, st1. split; [reflexivity|].
  split; [exact Hres|]. split; [exact Hrise|]. split; [exact Hz1|].
  split; [exact Hst|]. split; [exact Hone | exact Hzone].
Defined.

Lemma closeRing_closes_once_witness :
  OverpassService.closeRing [(0, 0); (0, 1); (1, 0)]%Q
  = [(0, 0); (0, 1); (1, 0); (0, 0)]%Q
  ∧ OverpassService.closeRing
      (OverpassService.closeRing [(0, 0); (0, 1); (1, 0)]%Q)
    = OverpassService.closeRing [(0, 0); (0, 1); (1, 0)]%Q.
Proof.
  split; [reflexivity|].
  exact (proj2 (proj2 (proj2
    (closeRing_closes_once [(0, 0); (0, 1); (1, 0)]%Q
       ltac:(discriminate))))).
Defined.

Lemma overpass_schools_are_closed_rings_witness :
  ∃ s, OverpassService.transformToSchools (Some [brokenWay; triangleWay])
       = [s]
    ∧ school_id s = js "osm_101"
    ∧ (3 ≤ length (coordinates (school_polygon s)))%nat
    ∧ ringClosed (coordinates (school_polygon s)).
Proof.
  destruct (OverpassService.transformToSchools
              (Some [brokenWay; triangleWay])) as [|s l] eqn:Hs;
    [discriminate|].
  assert (Hin : s ∈ OverpassService.transformToSchools
                      (Some [brokenWay; triangleWay]))
    by (rewrite Hs; apply list_elem_of_here).
  exists s. injection Hs as Hs Hl. split; [by rewrite <- Hl|].
  split; [by rewrite <- Hs|].
  destruct (overpass_schools_are_closed_rings
              (Some [brokenWay; triangleWay]) s Hin)
    as (Hlen & Hclosed & _).
  split; [exact Hlen | exact Hclosed].
Defined.
